(** * Bytebase: the database-create task executor and the PostgreSQL sync engine

    A shallow embedding of

      - [server/task_executor_database_create.go]: the executor that runs a
        "create database" task ([RunOnce], [IsCompleted], [GetProgress]);
      - [plugin/db/pg/sync.go]: instance sync, database-schema sync and the
        parser of index definitions.

    Go strings are byte sequences and are modelled by [string]; Go integers
    are modelled by [Z] (every integer below is either read from the database
    or a small counter, no arithmetic can wrap); maps are stdpp [gmap]s.
    Calls that leave the process (database driver, store, logger) are
    answered by records of oracles, and the state they touch is threaded
    explicitly through a state monad. *)

From Stdlib Require Import String Ascii List ZArith Bool Lia DecimalString.
From stdpp Require Import base option gmap strings list.

#[local] Open Scope string_scope.
#[local] Open Scope list_scope.
#[local] Open Scope Z_scope.
#[local] Set Warnings "-clear-no-such-hyp".

(* ===================================================================== *)
(** ** Errors *)
(* ===================================================================== *)

(** The codes of [common.Errorf] used by the embedded code. *)
Inductive Code : Type :=
| NotFound.

(** Go [error] values.  An error is either produced by a collaborator outside
    the embedded code ([External]), or built by [fmt.Errorf] / [common.Errorf]
    from a format string and its arguments; the text is never inspected by the
    code, so it is kept unformatted. *)
Inductive error : Type :=
| External (msg : string)
| Errorf (format : string) (args : list Arg)
| CodedErrorf (code : Code) (format : string) (args : list Arg)
with Arg : Type :=
| ArgStr (s : string)
| ArgInt (n : Z)
| ArgErr (e : error).

(** [(value, error)] results in which the value is only used when the error
    is nil. *)
Abbreviation result A := (error + A)%type.

Definition isErr {A} (r : result A) : bool :=
  match r with inl _ => true | inr _ => false end.

(* ===================================================================== *)
(** ** A state monad for code that talks to the outside world *)
(* ===================================================================== *)

Definition M (S A : Type) : Type := S -> A * S.

Definition ret {S A} (a : A) : M S A := fun s => (a, s).

Definition bind {S A B} (m : M S A) (k : A -> M S B) : M S B :=
  fun s => let (a, s') := m s in k a s'.

Definition modify {S} (f : S -> S) : M S unit := fun s => (tt, f s).

Definition get {S} : M S S := fun s => (s, s).

(** [defer d body]: Go's [defer d] followed by [body].  The values returned by
    [body] are fixed before [d] runs, and no deferred call of the embedded
    code touches them. *)
Definition defer {S A} (d : M S unit) (body : M S A) : M S A :=
  bind body (fun r => bind d (fun _ => ret r)).

(** How a call ends: it returns its values, or it panics.  A panic ends
    the body where it is raised and is handed on once the deferred calls
    have run, so [defer] treats it like any other way out of the body. *)
Inductive Exit (A : Type) : Type :=
| Returns (a : A)
| Panics (msg : string).
Arguments Returns {A} _.
Arguments Panics {A} _.

(** The panic of the Go runtime for a field read through a nil pointer. *)
Definition nilDereference : string :=
  "runtime error: invalid memory address or nil pointer dereference".

Declare Scope go_scope.
Delimit Scope go_scope with go.
Notation "x <- m ;; k" := (bind m (fun x => k))
  (at level 100, m at next level, right associativity) : go_scope.
Notation "m ;;; k" := (bind m (fun _ => k))
  (at level 100, right associativity) : go_scope.

(* ===================================================================== *)
(** ** Package [strings] and the regular expressions of [sync.go] *)
(* ===================================================================== *)

Module GoStrings.

Definition byte (n : nat) : ascii := ascii_of_nat n.

(** [len(s)] *)
Definition len (s : string) : nat := String.length s.

(** [s[n:]] for [n <= len(s)] *)
Fixpoint drop (n : nat) (s : string) : string :=
  match n, s with
  | O, _ => s
  | S n', String _ s' => drop n' s'
  | S _, EmptyString => EmptyString
  end.

(** [s[:n]] for [n <= len(s)] *)
Fixpoint take (n : nat) (s : string) : string :=
  match n, s with
  | O, _ => EmptyString
  | S n', String c s' => String c (take n' s')
  | S _, EmptyString => EmptyString
  end.

(** [strings.HasPrefix] *)
Fixpoint HasPrefix (s prefix : string) : bool :=
  match prefix, s with
  | EmptyString, _ => true
  | String c p, String d s' => if Ascii.eqb c d then HasPrefix s' p else false
  | String _ _, EmptyString => false
  end.

(** Offset of the first occurrence of [sep] in [s]. *)
Fixpoint indexOf (s sep : string) : option nat :=
  if HasPrefix s sep then Some O
  else match s with
       | EmptyString => None
       | String _ s' => option_map S (indexOf s' sep)
       end.

(** Offset of the last occurrence of [sep] in [s]. *)
Fixpoint lastIndexOf (s sep : string) : option nat :=
  match s with
  | EmptyString => if HasPrefix s sep then Some O else None
  | String _ s' =>
      match lastIndexOf s' sep with
      | Some i => Some (S i)
      | None => if HasPrefix s sep then Some O else None
      end
  end.

(** [strings.Index]: [-1] when [sep] does not occur. *)
Definition Index (s sep : string) : Z :=
  match indexOf s sep with
  | Some i => Z.of_nat i
  | None => -1
  end.

(** [strings.Contains] *)
Definition Contains (s substr : string) : bool := 0 <=? Index s substr.

(** *** [strings.TrimSpace]

    White space is what [unicode.IsSpace] accepts.  In a Go string it shows
    as one of the six ASCII bytes, or as the UTF-8 encoding of U+0085,
    U+00A0, U+1680, U+2000..U+200A, U+2028, U+2029, U+202F, U+205F or
    U+3000. *)

Definition isAsciiSpace (c : ascii) : bool :=
  let n := nat_of_ascii c in
  (Nat.eqb n 9 || Nat.eqb n 10 || Nat.eqb n 11 || Nat.eqb n 12
   || Nat.eqb n 13 || Nat.eqb n 32)%bool.

Definition isSpace2 (c1 c2 : ascii) : bool :=
  let a := nat_of_ascii c1 in
  let b := nat_of_ascii c2 in
  (Nat.eqb a 194 && (Nat.eqb b 133 || Nat.eqb b 160))%bool.

Definition isSpace3 (c1 c2 c3 : ascii) : bool :=
  let a := nat_of_ascii c1 in
  let b := nat_of_ascii c2 in
  let c := nat_of_ascii c3 in
  ((Nat.eqb a 225 && Nat.eqb b 154 && Nat.eqb c 128)
   || (Nat.eqb a 226 && Nat.eqb b 128
       && (Nat.leb 128 c && Nat.leb c 138
           || Nat.eqb c 168 || Nat.eqb c 169 || Nat.eqb c 175))
   || (Nat.eqb a 226 && Nat.eqb b 129 && Nat.eqb c 159)
   || (Nat.eqb a 227 && Nat.eqb b 128 && Nat.eqb c 128))%bool.

(** Leading white space removed, one rune at a time. *)
Fixpoint trimLeft (l : list ascii) : list ascii :=
  match l with
  | [] => []
  | c1 :: l1 =>
      if isAsciiSpace c1 then trimLeft l1
      else
        match l1 with
        | c2 :: l2 =>
            if isSpace2 c1 c2 then trimLeft l2
            else
              match l2 with
              | c3 :: l3 => if isSpace3 c1 c2 c3 then trimLeft l3 else l
              | [] => l
              end
        | [] => l
        end
  end.

(** The same on the reversed string: the last rune is decoded from the end,
    so its bytes come in reverse order. *)
Fixpoint trimLeftRev (l : list ascii) : list ascii :=
  match l with
  | [] => []
  | c1 :: l1 =>
      if isAsciiSpace c1 then trimLeftRev l1
      else
        match l1 with
        | c2 :: l2 =>
            if isSpace2 c2 c1 then trimLeftRev l2
            else
              match l2 with
              | c3 :: l3 => if isSpace3 c3 c2 c1 then trimLeftRev l3 else l
              | [] => l
              end
        | [] => l
        end
  end.

Definition TrimSpace (s : string) : string :=
  string_of_list_ascii
    (rev (trimLeftRev (rev (trimLeft (list_ascii_of_string s))))).

(** *** The three regular expressions

    Go's [regexp] returns the leftmost match and, at that start, the match
    a backtracking engine finds first; [.] is every character but the
    newline, and repetition is greedy. *)

Definition newline : ascii := byte 10.

(** The text up to the first newline: as far as a run of [.] can reach. *)
Fixpoint firstLine (s : string) : string :=
  match s with
  | EmptyString => EmptyString
  | String c s' => if Ascii.eqb c newline then EmptyString else String c (firstLine s')
  end.

(** [FindStringSubmatch(s)] of the first expression of
    [getIndexColumnExpressions] (an opening parenthesis, a group of any
    characters, a closing parenthesis): [None] when there is no match, else
    the text of group 1. *)
Fixpoint findParenGroup (s : string) : option string :=
  match s with
  | EmptyString => None
  | String c rest =>
      if Ascii.eqb c "("%char then
        match lastIndexOf (firstLine rest) ")" with
        | Some q => Some (take q rest)
        | None => findParenGroup rest
        end
      else findParenGroup rest
  end.

(** [FindString(s)] of its second expression (two opening parentheses, any
    characters, two closing parentheses): the matched text, the empty
    string when there is no match. *)
Fixpoint findDoubleParen (s : string) : string :=
  match s with
  | EmptyString => EmptyString
  | String _ rest =>
      if HasPrefix s "((" then
        match lastIndexOf (firstLine (drop 2 s)) "))" with
        | Some q => take (2 + q + 2) s
        | None => findDoubleParen rest
        end
      else findDoubleParen rest
  end.

(** [\w] *)
Definition isWord (c : ascii) : bool :=
  let n := nat_of_ascii c in
  ((Nat.leb 48 n && Nat.leb n 57) || (Nat.leb 65 n && Nat.leb n 90)
   || (Nat.leb 97 n && Nat.leb n 122) || Nat.eqb n 95)%bool.

(** The longest prefix of word characters. *)
Fixpoint wordPrefix (s : string) : string :=
  match s with
  | EmptyString => EmptyString
  | String c s' => if isWord c then String c (wordPrefix s') else EmptyString
  end.

(** [FindStringSubmatch(s)] of the expression of [getIndexMethodType]
    (the word USING, a space, a group of one or more word characters, a
    space): group 1 of the leftmost match.  At a given start the group
    takes the whole run of word characters, and a shorter run is never
    followed by a space. *)
Fixpoint findUsing (s : string) : option string :=
  match s with
  | EmptyString => None
  | String _ rest =>
      if HasPrefix s "USING " then
        let w := wordPrefix (drop 6 s) in
        if (negb (Nat.eqb (len w) 0) && HasPrefix (drop (6 + len w) s) " ")%bool
        then Some w
        else findUsing rest
      else findUsing rest
  end.

End GoStrings.

(* ===================================================================== *)
(** ** [plugin/db/pg/sync.go]: the parser of index definitions *)
(* ===================================================================== *)

Module PgParse.
Import GoStrings.

(** [getIndexMethodType] *)
Definition getIndexMethodType (stmt : string) : string :=
  match findUsing stmt with
  | None => ""
  | Some m => m
  end.

Definition invalidIndexStatement (stmt : string) : error :=
  Errorf "invalid index statement: %q" [ArgStr stmt].

(** One token of the column statement: the branch of the loop body under
    the comment "Get a token". *)
Definition nextToken (columnStmt : string) : string :=
  if HasPrefix columnStmt "((" then findDoubleParen columnStmt
  else
    let i := Index columnStmt "," in
    if i <? 0 then columnStmt else take (Z.to_nat i) columnStmt.

(** What is left of the column statement once [token] has been cut off:
    the end of the loop body. *)
Definition afterToken (columnStmt token : string) : string :=
  let columnStmt := drop (len token) columnStmt in
  let columnStmt := TrimSpace columnStmt in
  let columnStmt :=
    match columnStmt with
    | String c rest => if Ascii.eqb c ","%char then rest else columnStmt
    | EmptyString => columnStmt
    end in
  TrimSpace columnStmt.

(** The [for] loop of [getIndexColumnExpressions].  Every turn removes a
    non-empty token, so [fuel] above the length of the column statement is
    never used up ([columnLoop_total] below); [None] is the answer of a
    loop that was given too little. *)
Fixpoint columnLoop (fuel : nat) (stmt columnStmt : string) (cols : list string)
  : option (result (list string)) :=
  match fuel with
  | O => None
  | S fuel' =>
      if Nat.eqb (len columnStmt) 0 then Some (inr cols)
      else
        let token := nextToken columnStmt in
        if Nat.eqb (len token) 0 then Some (inl (invalidIndexStatement stmt))
        else
          columnLoop fuel' stmt (afterToken columnStmt token)
                     (cols ++ [TrimSpace token])
  end.

(** [getIndexColumnExpressions] *)
Definition getIndexColumnExpressions (stmt : string) : result (list string) :=
  match findParenGroup stmt with
  | None => inl (invalidIndexStatement stmt)
  | Some columnStmt =>
      match columnLoop (S (len columnStmt)) stmt columnStmt [] with
      | Some r => r
      | None => inl (invalidIndexStatement stmt)
      end
  end.

End PgParse.

(* ===================================================================== *)
(** ** [plugin/db/pg/sync.go]: instance sync and database-schema sync *)
(* ===================================================================== *)

(** Binding of a [(value, error)] result: [if err != nil { return nil, err }]. *)
Definition rbind {A B} (r : result A) (k : A -> result B) : result B :=
  match r with
  | inl err => inl err
  | inr a => k a
  end.

Notation "x <-? r ;; k" := (rbind r (fun x => k))
  (at level 100, r at next level, right associativity) : go_scope.

(** A [for] loop over a slice whose body can return an error; the body
    returns the element as the loop leaves it. *)
Fixpoint forEach {A B} (f : A -> result B) (l : list A) : result (list B) :=
  match l with
  | [] => inr []
  | a :: l' =>
      match f a with
      | inl err => inl err
      | inr b =>
          match forEach f l' with
          | inl err => inl err
          | inr bs => inr (b :: bs)
          end
      end
  end.

Module db.

(** The types of package [db] that the sync fills in; a field is named
    after its type where Go repeats a field name. *)

Record User := { UserName : string; Grant : string }.

Record DatabaseMeta :=
  { MetaName : string; MetaCharacterSet : string; MetaCollation : string }.

Record InstanceMeta :=
  { Version : string; UserList : list User; DatabaseList : list DatabaseMeta }.

Record Column :=
  { ColumnName : string;
    ColumnPosition : Z;
    (** [*string]: the sync always stores a pointer to the scanned default *)
    ColumnDefault : option string;
    ColumnType : string;
    ColumnNullable : bool;
    ColumnCollation : string;
    ColumnComment : string }.

Record Index :=
  { IndexName : string;
    IndexExpression : string;
    IndexPosition : Z;
    IndexType : string;
    IndexUnique : bool;
    IndexPrimary : bool;
    IndexComment : string }.

Record Table :=
  { TableName : string;
    TableType : string;
    TableComment : string;
    TableRowCount : Z;
    TableDataSize : Z;
    TableIndexSize : Z;
    ColumnList : list Column;
    IndexList : list Index }.

Record View :=
  { ViewName : string;
    ViewCreatedTs : Z;
    ViewDefinition : string;
    ViewComment : string }.

Record Extension :=
  { ExtensionName : string;
    ExtensionVersion : string;
    ExtensionSchema : string;
    ExtensionDescription : string }.

Record Schema :=
  { SchemaName : string;
    CharacterSet : string;
    Collation : string;
    TableList : list Table;
    ViewList : list View;
    ExtensionList : list Extension }.

(** [db.MigrationSource]; the executor only names [UI]. *)
Inductive MigrationSource : Type :=
| UI.

(** [db.MigrationType]; the executor only names [Baseline]. *)
Inductive MigrationType : Type :=
| Baseline
| Migrate.

(** [db.MigrationInfo], with the fields the executor fills in; [Creator]
    and [IssueID] start as the empty string. *)
Record MigrationInfo :=
  { ReleaseVersion : string;
    MigrationVersion : string;
    Namespace : string;
    Database : string;
    Environment : string;
    Source : MigrationSource;
    Type_ : MigrationType;
    Description : string;
    Creator : string;
    IssueID : string;
    CreateDatabase : bool;
    Force : bool }.

End db.

Module Pg.
Import GoStrings PgParse.
#[local] Open Scope go_scope.

(** *** The types of [sync.go] *)

(** [pgDatabaseSchema] *)
Record pgDatabaseSchema :=
  { name : string; encoding : string; collate : string }.

(** [columnSchema] *)
Record columnSchema :=
  { columnName : string;
    dataType : string;
    ordinalPosition : Z;
    characterMaximumLength : string;
    columnDefault : string;
    isNullable : bool;
    collationName : string;
    columnComment : string }.

(** [tableConstraint] *)
Record tableConstraint :=
  { constraintName : string;
    constraintSchemaName : string;
    constraintTableName : string;
    constraint : string }.

(** [tableSchema] *)
Record tableSchema :=
  { tableSchemaName : string;
    tableName : string;
    tableowner : string;
    tableComment : string;
    rowCount : Z;
    tableSizeByte : Z;
    indexSizeByte : Z;
    columns : list columnSchema;
    constraints : list tableConstraint }.

(** [viewSchema] *)
Record viewSchema :=
  { viewSchemaName : string;
    viewName : string;
    definition : string;
    viewComment : string }.

(** [indexSchema] *)
Record indexSchema :=
  { indexSchemaName : string;
    indexName : string;
    indexTableName : string;
    statement : string;
    unique : bool;
    primary : bool;
    methodType : string;
    columnExpressions : list string;
    indexComment : string }.

(** *** What the database answers

    [sql.Rows]: the rows that [rows.Next] and [rows.Scan] deliver, and the
    error that ends the iteration early, if any (a failing [Scan], or
    [rows.Err] after the loop: the code returns the error in both cases). *)
Record Rows (A : Type) := { scanned : list A; failure : option error }.
Arguments scanned {A} _.
Arguments failure {A} _.

(** [sql.NullString]: [None] is the SQL NULL ([Valid] false). *)
Definition NullString := option string.

(** The [String] field of a [sql.NullString]. *)
Definition nullStringValue (s : NullString) : string := default "" s.

(** A row of [INFORMATION_SCHEMA.COLUMNS] as [getTableColumns] scans it. *)
Record columnRow :=
  { row_columnName : string;
    row_dataType : string;
    row_ordinalPosition : Z;
    row_characterMaximumLength : NullString;
    row_columnDefault : NullString;
    row_isNullable : string;
    row_collationName : NullString;
    row_udtSchema : NullString;
    row_udtName : NullString;
    row_comment : NullString }.

(** A row of [pg_tables] joined with [pg_class], as [getPgTables] scans it. *)
Record tableRow :=
  { row_schemaname : string;
    row_tablename : string;
    row_tableowner : string;
    row_tableSizeByte : Z;
    row_indexSizeByte : Z }.

(** [*sql.Tx]: one read transaction.  Every query of the sync is a field;
    the queries built with [fmt.Sprintf] or taking arguments are functions
    of what is substituted.  Within the transaction a query has one
    answer, so the three [obj_description] queries (tables, views and
    indexes use the same text) share a field. *)
Record Tx :=
  { query_pg_indexes : result (Rows (string * string * string * string));
    query_obj_description : string -> string -> result (Rows NullString);
    query_is_primary : string -> string -> string -> result Z;
    query_pg_constraint : result (Rows (string * string * string * string));
    query_pg_tables : result (Rows tableRow);
    query_count : string -> string -> result (Rows Z);
    query_columns : string -> string -> result (Rows columnRow);
    query_pg_views : result (Rows (string * string * NullString));
    query_pg_extension : result (Rows db.Extension);
    Commit : option error }.

(** [*sql.DB] *)
Record DB := { BeginTx : result Tx }.

(** [*Driver], with the methods that live outside [sync.go]
    ([getVersion], [getDatabases], [GetDBConnection]), the query of
    [getUserList] and the clock: [nowUnix i] is what [time.Now().Unix()]
    answers the [i]-th time a sync reads it, counting from 0. *)
Record Driver :=
  { getVersion : result string;
    query_pg_user : result (Rows (string * string));
    getDatabases : result (list pgDatabaseSchema);
    GetDBConnection : string -> result DB;
    nowUnix : nat -> Z }.

(** What the sync does to the server, in order. *)
Inductive Event : Type :=
| EvGetVersion
| EvQueryUsers
| EvGetDatabases
| EvGetDBConnection (databaseName : string)
| EvBeginTx
| EvCommit
| EvRollback.

(** The state of the package: its global [excludedDatabaseList] and the
    calls made so far. *)
Record State :=
  { excluded : gmap string bool;
    events : list Event }.

Definition emit (ev : Event) : M State unit :=
  modify (fun st => {| excluded := excluded st; events := events st ++ [ev] |}).

(** [excludedDatabaseList] as the package declares it. *)
Definition excludedDatabaseList : gmap string bool :=
  <["bytebase" := true]>
    (<["rdsadmin" := true]>
       (<["cloudsql" := true]>
          (<["cloudsqladmin" := true]> ∅))).

Definition initialState : State :=
  {| excluded := excludedDatabaseList; events := [] |}.

(** *** The helpers of the database sync *)

(** The loop shared by [getTable], [getView] and [getIndex]: every scanned
    row overwrites the comment. *)
Definition lastComment (comment : string) (rows : list NullString) : string :=
  fold_left (fun _ c => nullStringValue c) rows comment.

(** The comment query of [getTable], [getView] and [getIndex] run on an
    object whose comment is [comment] so far. *)
Definition getComment (txn : Tx) (schemaName objName comment : string) : result string :=
  rows <-? query_obj_description txn schemaName objName ;;
  let comment := lastComment comment (scanned rows) in
  match failure rows with
  | Some err => inl err
  | None => inr comment
  end.

(** [getTable] *)
Definition getTable (txn : Tx) (tbl : tableSchema) : result tableSchema :=
  rows <-? query_count txn (tableSchemaName tbl) (tableName tbl) ;;
  let count := fold_left (fun _ n => n) (scanned rows) (rowCount tbl) in
  match failure rows with
  | Some err => inl err
  | None =>
      comment <-? getComment txn (tableSchemaName tbl) (tableName tbl) (tableComment tbl) ;;
      inr {| tableSchemaName := tableSchemaName tbl;
             tableName := tableName tbl;
             tableowner := tableowner tbl;
             tableComment := comment;
             rowCount := count;
             tableSizeByte := tableSizeByte tbl;
             indexSizeByte := indexSizeByte tbl;
             columns := columns tbl;
             constraints := constraints tbl |}
  end.

(** [convertBoolFromYesNo] *)
Definition convertBoolFromYesNo (s : string) : result bool :=
  if String.eqb s "YES" then inr true
  else if String.eqb s "NO" then inr false
  else inl (Errorf "unrecognized isNullable type %q" [ArgStr s]).

(** The body of the row loop of [getTableColumns]. *)
Definition scanColumn (r : columnRow) : result columnSchema :=
  isNullBool <-? convertBoolFromYesNo (row_isNullable r) ;;
  let dataType' :=
    if String.eqb (row_dataType r) "USER-DEFINED"
    then nullStringValue (row_udtSchema r) +:+ "." +:+ nullStringValue (row_udtName r)
    else if String.eqb (row_dataType r) "ARRAY"
    then nullStringValue (row_udtName r)
    else row_dataType r in
  inr {| columnName := row_columnName r;
         dataType := dataType';
         ordinalPosition := row_ordinalPosition r;
         characterMaximumLength := nullStringValue (row_characterMaximumLength r);
         columnDefault := nullStringValue (row_columnDefault r);
         isNullable := isNullBool;
         collationName := nullStringValue (row_collationName r);
         columnComment := nullStringValue (row_comment r) |}.

(** [getTableColumns] *)
Definition getTableColumns (txn : Tx) (schemaName tableName : string)
  : result (list columnSchema) :=
  rows <-? query_columns txn schemaName tableName ;;
  columns <-? forEach scanColumn (scanned rows) ;;
  match failure rows with
  | Some err => inl err
  | None => inr columns
  end.

(** The body of the row loop of [getTableConstraints]: the scanned row, with
    the schema qualifier cut off the table name. *)
Definition scanConstraint (r : string * string * string * string) : tableConstraint :=
  let '(schemaName, tableName, name, def) := r in
  let tableName :=
    if Contains tableName "."
    then drop (Z.to_nat (1 + Index tableName ".")) tableName
    else tableName in
  {| constraintName := name;
     constraintSchemaName := schemaName;
     constraintTableName := tableName;
     constraint := def |}.

(** [ret[key] = append(ret[key], x)] *)
Definition appendAt {A} (key : string) (x : A) (m : gmap string (list A))
  : gmap string (list A) :=
  <[key := default [] (m !! key) ++ [x]]> m.

(** [getTableConstraints] *)
Definition getTableConstraints (txn : Tx) : result (gmap string (list tableConstraint)) :=
  rows <-? query_pg_constraint txn ;;
  let ret :=
    fold_left
      (fun ret r =>
         let c := scanConstraint r in
         appendAt (constraintSchemaName c +:+ "." +:+ constraintTableName c) c ret)
      (scanned rows) ∅ in
  match failure rows with
  | Some err => inl err
  | None => inr ret
  end.

(** [getPgTables] *)
Definition getPgTables (txn : Tx) : result (list tableSchema) :=
  match getTableConstraints txn with
  | inl err => inl (Errorf "getTableConstraints() got error: %v" [ArgErr err])
  | inr constraints =>
      rows <-? query_pg_tables txn ;;
      let tables :=
        map (fun r => {| tableSchemaName := row_schemaname r;
                         tableName := row_tablename r;
                         tableowner := row_tableowner r;
                         tableComment := "";
                         rowCount := 0;
                         tableSizeByte := row_tableSizeByte r;
                         indexSizeByte := row_indexSizeByte r;
                         columns := [];
                         constraints := [] |})
            (scanned rows) in
      match failure rows with
      | Some err => inl err
      | None =>
          forEach
            (fun tbl =>
               match getTable txn tbl with
               | inl err =>
                   inl (Errorf "getTable(%q, %q) got error %v"
                          [ArgStr (tableSchemaName tbl); ArgStr (tableName tbl); ArgErr err])
               | inr tbl =>
                   match getTableColumns txn (tableSchemaName tbl) (tableName tbl) with
                   | inl err =>
                       inl (Errorf "getTableColumns(%q, %q) got error %v"
                              [ArgStr (tableSchemaName tbl); ArgStr (tableName tbl); ArgErr err])
                   | inr columns =>
                       let key := tableSchemaName tbl +:+ "." +:+ tableName tbl in
                       inr {| tableSchemaName := tableSchemaName tbl;
                              tableName := tableName tbl;
                              tableowner := tableowner tbl;
                              tableComment := tableComment tbl;
                              rowCount := rowCount tbl;
                              tableSizeByte := tableSizeByte tbl;
                              indexSizeByte := indexSizeByte tbl;
                              columns := columns;
                              constraints := default [] (constraints !! key) |}
                   end
               end)
            tables
      end
  end.

(** The row loop of [getViews]: a NULL definition ends the sync. *)
Fixpoint scanViews (rows : list (string * string * NullString)) (views : list viewSchema)
  : result (list viewSchema) :=
  match rows with
  | [] => inr views
  | (schemaName, name, def) :: rows' =>
      match def with
      | None =>
          inl (Errorf
                 "schema %q view %q has empty definition; please check whether proper privileges have been granted to Bytebase"
                 [ArgStr schemaName; ArgStr name])
      | Some d =>
          scanViews rows'
            (views ++ [{| viewSchemaName := schemaName;
                          viewName := name;
                          definition := d;
                          viewComment := "" |}])
      end
  end.

(** [getView] *)
Definition getView (txn : Tx) (view : viewSchema) : result viewSchema :=
  comment <-? getComment txn (viewSchemaName view) (viewName view) (viewComment view) ;;
  inr {| viewSchemaName := viewSchemaName view;
         viewName := viewName view;
         definition := definition view;
         viewComment := comment |}.

(** [getViews] *)
Definition getViews (txn : Tx) : result (list viewSchema) :=
  rows <-? query_pg_views txn ;;
  views <-? scanViews (scanned rows) [] ;;
  match failure rows with
  | Some err => inl err
  | None =>
      forEach
        (fun view =>
           match getView txn view with
           | inl err =>
               inl (Errorf "getPgView(%q, %q) got error %v"
                      [ArgStr (viewSchemaName view); ArgStr (viewName view); ArgErr err])
           | inr view => inr view
           end)
        views
  end.

(** [getExtensions] *)
Definition getExtensions (txn : Tx) : result (list db.Extension) :=
  rows <-? query_pg_extension txn ;;
  match failure rows with
  | Some err => inl err
  | None => inr (scanned rows)
  end.

(** The body of the row loop of [getIndices]. *)
Definition scanIndex (r : string * string * string * string) : result indexSchema :=
  let '(schemaName, tableName, name, stmt) := r in
  columnExpressions <-? getIndexColumnExpressions stmt ;;
  inr {| indexSchemaName := schemaName;
         indexName := name;
         indexTableName := tableName;
         statement := stmt;
         unique := Contains stmt " UNIQUE INDEX ";
         primary := false;
         methodType := getIndexMethodType stmt;
         columnExpressions := columnExpressions;
         indexComment := "" |}.

(** [getIndex] *)
Definition getIndex (txn : Tx) (idx : indexSchema) : result indexSchema :=
  comment <-? getComment txn (indexSchemaName idx) (indexName idx) (indexComment idx) ;;
  inr {| indexSchemaName := indexSchemaName idx;
         indexName := indexName idx;
         indexTableName := indexTableName idx;
         statement := statement idx;
         unique := unique idx;
         primary := primary idx;
         methodType := methodType idx;
         columnExpressions := columnExpressions idx;
         indexComment := comment |}.

(** [getPrimary] *)
Definition getPrimary (txn : Tx) (idx : indexSchema) : result indexSchema :=
  yes <-? query_is_primary txn (indexSchemaName idx) (indexName idx) (indexTableName idx) ;;
  inr {| indexSchemaName := indexSchemaName idx;
         indexName := indexName idx;
         indexTableName := indexTableName idx;
         statement := statement idx;
         unique := unique idx;
         primary := yes =? 1;
         methodType := methodType idx;
         columnExpressions := columnExpressions idx;
         indexComment := indexComment idx |}.

(** [getIndices] *)
Definition getIndices (txn : Tx) : result (list indexSchema) :=
  rows <-? query_pg_indexes txn ;;
  indices <-? forEach scanIndex (scanned rows) ;;
  match failure rows with
  | Some err => inl err
  | None =>
      forEach
        (fun idx =>
           match getIndex txn idx with
           | inl err =>
               inl (Errorf "getIndex(%q, %q) got error %v"
                      [ArgStr (indexSchemaName idx); ArgStr (indexName idx); ArgErr err])
           | inr idx =>
               match getPrimary txn idx with
               | inl err =>
                   inl (Errorf "getPrimary(%q, %q) got error %v"
                          [ArgStr (indexSchemaName idx); ArgStr (indexName idx); ArgErr err])
               | inr idx => inr idx
               end
           end)
        indices
  end.

(** *** Assembling the snapshot: the loops of [SyncDBSchema] *)

Definition toColumn (col : columnSchema) : db.Column :=
  {| db.ColumnName := columnName col;
     db.ColumnPosition := ordinalPosition col;
     db.ColumnDefault := Some (columnDefault col);
     db.ColumnType := dataType col;
     db.ColumnNullable := isNullable col;
     db.ColumnCollation := collationName col;
     db.ColumnComment := columnComment col |}.

(** The inner loop over [idx.columnExpressions]; [i] is the loop index. *)
Fixpoint toIndexes (idx : indexSchema) (i : Z) (exprs : list string) : list db.Index :=
  match exprs with
  | [] => []
  | colExp :: exprs' =>
      {| db.IndexName := indexName idx;
         db.IndexExpression := colExp;
         db.IndexPosition := i + 1;
         db.IndexType := methodType idx;
         db.IndexUnique := unique idx;
         db.IndexPrimary := primary idx;
         db.IndexComment := indexComment idx |}
        :: toIndexes idx (i + 1) exprs'
  end.

Definition toTable (indicesMap : gmap string (list indexSchema)) (tbl : tableSchema)
  : db.Table :=
  let dbTableName := tableSchemaName tbl +:+ "." +:+ tableName tbl in
  let indices := default [] (indicesMap !! dbTableName) in
  {| db.TableName := dbTableName;
     db.TableType := "BASE TABLE";
     db.TableComment := tableComment tbl;
     db.TableRowCount := rowCount tbl;
     db.TableDataSize := tableSizeByte tbl;
     db.TableIndexSize := indexSizeByte tbl;
     db.ColumnList := map toColumn (columns tbl);
     db.IndexList := flat_map (fun idx => toIndexes idx 0 (columnExpressions idx)) indices |}.

Definition toView (now : Z) (view : viewSchema) : db.View :=
  {| db.ViewName := viewSchemaName view +:+ "." +:+ viewName view;
     db.ViewCreatedTs := now;
     db.ViewDefinition := definition view;
     db.ViewComment := viewComment view |}.

(** The loop over the views: every turn reads the clock once; [i] counts
    the readings made so far. *)
Fixpoint toViews (now : nat -> Z) (i : nat) (views : list viewSchema) : list db.View :=
  match views with
  | [] => []
  | view :: rest => toView (now i) view :: toViews now (S i) rest
  end.

(** The loop of [SyncDBSchema] that looks [databaseName] up: it stops at
    the first entry with that name. *)
Fixpoint findDatabase (databases : list pgDatabaseSchema) (databaseName : string)
  : option pgDatabaseSchema :=
  match databases with
  | [] => None
  | database :: rest =>
      if String.eqb (name database) databaseName then Some database
      else findDatabase rest databaseName
  end.

(** [SyncDBSchema] from [getIndices] to [getExtensions]: the reads inside
    the transaction. *)
Definition readSchema (now : nat -> Z) (txn : Tx) (databaseName : string)
           (database : pgDatabaseSchema) : result db.Schema :=
  match getIndices txn with
  | inl err =>
      inl (Errorf "failed to get indices from database %q: %s"
             [ArgStr databaseName; ArgErr err])
  | inr indices =>
      let indicesMap :=
        fold_left
          (fun m idx => appendAt (indexSchemaName idx +:+ "." +:+ indexTableName idx) idx m)
          indices ∅ in
      match getPgTables txn with
      | inl err =>
          inl (Errorf "failed to get tables from database %q: %s"
                 [ArgStr databaseName; ArgErr err])
      | inr tables =>
          match getViews txn with
          | inl err =>
              inl (Errorf "failed to get views from database %q: %s"
                     [ArgStr databaseName; ArgErr err])
          | inr views =>
              match getExtensions txn with
              | inl err =>
                  inl (Errorf "failed to get extensions from database %q: %s"
                         [ArgStr databaseName; ArgErr err])
              | inr extensions =>
                  inr {| db.SchemaName := databaseName;
                         db.CharacterSet := encoding database;
                         db.Collation := collate database;
                         db.TableList := map (toTable indicesMap) tables;
                         db.ViewList := toViews now 0 views;
                         db.ExtensionList := extensions |}
              end
          end
      end
  end.

(** [SyncDBSchema] *)
Definition SyncDBSchema (driver : Driver) (databaseName : string)
  : M State (result db.Schema) :=
  (emit EvGetDatabases ;;;
   match getDatabases driver with
   | inl err => ret (inl (Errorf "failed to get databases: %s" [ArgErr err]))
   | inr databases =>
       match findDatabase databases databaseName with
       | None =>
           ret (inl (CodedErrorf NotFound "database %q not found" [ArgStr databaseName]))
       | Some database =>
           emit (EvGetDBConnection databaseName) ;;;
           match GetDBConnection driver databaseName with
           | inl err =>
               ret (inl (Errorf "failed to get database connection for %q: %s"
                           [ArgStr databaseName; ArgErr err]))
           | inr sqldb =>
               emit EvBeginTx ;;;
               match BeginTx sqldb with
               | inl err => ret (inl err)
               | inr txn =>
                   defer (emit EvRollback)
                     (match readSchema (nowUnix driver) txn databaseName database with
                      | inl err => ret (inl err)
                      | inr schema =>
                          emit EvCommit ;;;
                          match Commit txn with
                          | Some err => ret (inl err)
                          | None => ret (inr schema)
                          end
                      end)
               end
           end
       end
   end)%go.

(** *** Instance sync *)

(** [getUserList]; [util.FormatErrorWithQuery], declared outside [sync.go],
    wraps the error of the query. *)
Definition getUserList (driver : Driver) : M State (result (list db.User)) :=
  (emit EvQueryUsers ;;;
   match query_pg_user driver with
   | inl err => ret (inl (Errorf "util.FormatErrorWithQuery(%v, query)" [ArgErr err]))
   | inr rows =>
       let userList :=
         map (fun r => {| db.UserName := fst r; db.Grant := snd r |}) (scanned rows) in
       match failure rows with
       | Some err => ret (inl err)
       | None => ret (inr userList)
       end
   end)%go.

Section SyncInstance.

(** The package's [systemDatabases], declared outside [sync.go]. *)
Variable systemDatabases : gmap string bool.

(** [for k := range systemDatabases { excludedDatabaseList[k] = true }] *)
Definition excludeSystemDatabases (excluded : gmap string bool) : gmap string bool :=
  map_fold (fun k _ excluded => <[k := true]> excluded) excluded systemDatabases.

(** The loop of [SyncInstance] over the databases. *)
Fixpoint listDatabases (excluded : gmap string bool) (databases : list pgDatabaseSchema)
         (databaseList : list db.DatabaseMeta) : list db.DatabaseMeta :=
  match databases with
  | [] => databaseList
  | database :: rest =>
      let dbName := name database in
      match excluded !! dbName with
      | Some _ => listDatabases excluded rest databaseList
      | None =>
          listDatabases excluded rest
            (databaseList ++ [{| db.MetaName := dbName;
                                 db.MetaCharacterSet := encoding database;
                                 db.MetaCollation := collate database |}])
      end
  end.

(** [SyncInstance] *)
Definition SyncInstance (driver : Driver) : M State (result db.InstanceMeta) :=
  (emit EvGetVersion ;;;
   match getVersion driver with
   | inl err => ret (inl err)
   | inr version =>
       userList <- getUserList driver ;;
       match userList with
       | inl err => ret (inl err)
       | inr userList =>
           modify (fun st => {| excluded := excludeSystemDatabases (excluded st);
                                events := events st |}) ;;;
           emit EvGetDatabases ;;;
           match getDatabases driver with
           | inl err => ret (inl (Errorf "failed to get databases: %s" [ArgErr err]))
           | inr databases =>
               st <- get ;;
               ret (inr {| db.Version := version;
                           db.UserList := userList;
                           db.DatabaseList := listDatabases (excluded st) databases [] |})
           end
       end
   end)%go.

End SyncInstance.

End Pg.

(* ===================================================================== *)
(** ** Package [api]: what the executor reads and writes *)
(* ===================================================================== *)

Module api.

Record Environment := { EnvironmentName : string }.

Record Instance :=
  { InstanceName : string;
    InstanceEnvironmentID : Z;
    InstanceEnvironment : Environment }.

Record Task :=
  { TaskID : Z;
    PipelineID : Z;
    InstanceID : Z;
    TaskInstance : Instance;
    CreatorID : Z;
    Payload : string }.

Record TaskDatabaseCreatePayload :=
  { DatabaseName : string;
    ProjectID : Z;
    SchemaVersion : string;
    CharacterSet : string;
    Collation : string;
    Labels : string;
    Statement : string }.

Record Principal := { PrincipalName : string }.

Record Issue := { IssueID : Z }.

Record Project := { ProjectKey : Z }.

(** A row of the store's database table: the attributes a
    [DatabaseCreate] sets, and the id the store gives the row. *)
Record Database :=
  { ID : Z;
    DatabaseCreatorID : Z;
    DatabaseProjectID : Z;
    DatabaseInstanceID : Z;
    DatabaseEnvironmentID : Z;
    Name : string;
    DatabaseCharacterSet : string;
    DatabaseCollation : string;
    DatabaseLabels : string;
    DatabaseSchemaVersion : string }.

(** [api.DatabaseFind]; an unset pointer field is [None]. *)
Record DatabaseFind :=
  { FindInstanceID : option Z;
    FindName : option string }.

Record DatabaseCreate :=
  { CreateCreatorID : Z;
    CreateProjectID : Z;
    CreateInstanceID : Z;
    CreateEnvironmentID : Z;
    CreateName : string;
    CreateCharacterSet : string;
    CreateCollation : string;
    CreateLabels : option string;
    CreateSchemaVersion : string }.

(** [api.DatabasePatch] as the executor builds it. *)
Record DatabasePatch :=
  { PatchID : Z;
    PatchUpdaterID : Z;
    PatchProjectID : option Z }.

Record TaskPatch :=
  { TaskPatchID : Z;
    TaskPatchUpdaterID : Z;
    TaskPatchDatabaseID : option Z }.

Record TaskRunResultPayload :=
  { Detail : string;
    MigrationID : Z;
    Version : string }.

(** [api.Progress]; the executor only returns its zero value. *)
Inductive Progress : Type :=
| ZeroProgress.

End api.

(* ===================================================================== *)
(** ** [server/task_executor_database_create.go] *)
(* ===================================================================== *)

Module Server.
Import GoStrings.
#[local] Open Scope go_scope.

(** [DatabaseCreateTaskExecutor]; [completed] is an [int32]. *)
Record DatabaseCreateTaskExecutor := { completed : Z }.

(** [NewDatabaseCreateTaskExecutor] *)
Definition NewDatabaseCreateTaskExecutor : DatabaseCreateTaskExecutor :=
  {| completed := 0 |}.

(** [IsCompleted] *)
Definition IsCompleted (exec : DatabaseCreateTaskExecutor) : bool :=
  completed exec =? 1.

(** [GetProgress] *)
Definition GetProgress (exec : DatabaseCreateTaskExecutor) : api.Progress :=
  api.ZeroProgress.

(** [strconv.Itoa] *)
Definition Itoa (n : Z) : string := NilZero.string_of_int (Z.to_int n).

(** *** The collaborators of the executor *)

(** [db.Driver]: the administrative connection.  [ExecuteMigration] returns
    two values and an error. *)
Record Driver :=
  { ExecuteMigration : db.MigrationInfo -> string -> result (Z * string) }.

(** Modelled from the spec: how the store keeps one row for an instance
    and a name when a create meets a row that is there already.  Section 5
    names two ways: a unique constraint, which refuses the create, or an
    upsert that resolves the conflict, which section 7 (e) describes as a
    patch instead of a second row. *)
Inductive Conflict : Type :=
| UniqueConstraint
| Upsert.

(** The calls on the store that read or write its tables. *)
Inductive StoreCall : Type :=
| CallGetDatabase
| CallCreateDatabase
| CallPatchDatabase
| CallPatchTask.

(** [*Server], as far as [RunOnce] uses it: the profile, the driver
    factory, the store lookups that only read, [setDatabaseLabels], the
    transport failure, if any, of each call on the store's tables, and the
    way the store settles a create that meets a row. *)
Record Server :=
  { profileVersion : string;
    getAdminDatabaseDriver : api.Instance -> string -> result Driver;
    (** a pointer to a principal and an error: the executor tests the
        error and, when it is nil, reads the name through the pointer *)
    GetPrincipalByID : Z -> option api.Principal * option error;
    (** a pointer to an issue and an error: the executor tests both *)
    GetIssueByPipelineID : Z -> option api.Issue * option error;
    GetProjectByID : Z -> result (option api.Project);
    setDatabaseLabels : string -> api.Database -> api.Project -> Z -> bool -> option error;
    storeFailure : StoreCall -> option error;
    createConflict : Conflict }.

(** What the executor takes from packages that are not embedded: two
    constants of [api], [json.Unmarshal] into an empty payload, and the
    [%q] verb of [fmt]. *)
Record Imports :=
  { SystemBotID : Z;
    DefaultProjectID : Z;
    Unmarshal : string -> result api.TaskDatabaseCreatePayload;
    Quote : string -> string }.

(** The calls that leave the process without touching the store's tables,
    in order. *)
Inductive Effect : Type :=
| GetAdminDriver (instance : api.Instance) (databaseName : string)
| CloseDriver
| LogDebug (msg : string)
| LogError (msg : string)
| Migration (mi : db.MigrationInfo) (statement : string)
| SetLabels (labels : string) (database : api.Database) (project : api.Project).

(** A database that a pass of the schema sync finds on an instance. *)
Record Discovery :=
  { FoundInstanceID : Z;
    FoundEnvironmentID : Z;
    FoundName : string;
    FoundCharacterSet : string;
    FoundCollation : string }.

(** The world the executor runs in: the executor's own flag, the store's
    database table and the database reference of each task, the calls
    made so far, and what the schema sync, which runs on its own, does
    to the store before each of the executor's next calls on it. *)
Record World :=
  { executor : DatabaseCreateTaskExecutor;
    databases : list api.Database;
    nextDatabaseID : Z;
    taskDatabaseID : gmap Z Z;
    effects : list Effect;
    syncSchedule : list (list Discovery) }.

Definition withExecutor (e : DatabaseCreateTaskExecutor) (w : World) : World :=
  {| executor := e; databases := databases w; nextDatabaseID := nextDatabaseID w;
     taskDatabaseID := taskDatabaseID w; effects := effects w;
     syncSchedule := syncSchedule w |}.

Definition withDatabases (l : list api.Database) (next : Z) (w : World) : World :=
  {| executor := executor w; databases := l; nextDatabaseID := next;
     taskDatabaseID := taskDatabaseID w; effects := effects w;
     syncSchedule := syncSchedule w |}.

Definition withTaskDatabaseID (m : gmap Z Z) (w : World) : World :=
  {| executor := executor w; databases := databases w; nextDatabaseID := nextDatabaseID w;
     taskDatabaseID := m; effects := effects w; syncSchedule := syncSchedule w |}.

Definition withEffects (l : list Effect) (w : World) : World :=
  {| executor := executor w; databases := databases w; nextDatabaseID := nextDatabaseID w;
     taskDatabaseID := taskDatabaseID w; effects := l; syncSchedule := syncSchedule w |}.

Definition withSyncSchedule (l : list (list Discovery)) (w : World) : World :=
  {| executor := executor w; databases := databases w; nextDatabaseID := nextDatabaseID w;
     taskDatabaseID := taskDatabaseID w; effects := effects w; syncSchedule := l |}.

Definition effect (e : Effect) : M World unit :=
  modify (fun w => withEffects (effects w ++ [e]) w).

(** [atomic.StoreInt32(&exec.completed, v)] *)
Definition atomicStoreCompleted (v : Z) : M World unit :=
  modify (withExecutor {| completed := v |}).

(** *** The store's database table *)

(** The row is the one of database [databaseName] on instance [instanceID]. *)
Definition isRowOf (instanceID : Z) (databaseName : string) (d : api.Database) : bool :=
  (api.DatabaseInstanceID d =? instanceID) && String.eqb (api.Name d) databaseName.

Definition rowsOf (instanceID : Z) (databaseName : string) (w : World) : list api.Database :=
  filter (fun d => isRowOf instanceID databaseName d = true) (databases w).

(** Modelled from the spec: the schema sync engine is not among the
    sources.  A pass that discovers a database the store has no row for
    inserts one under the default project; it leaves an existing row as it
    is (section 4.2, step 4). *)
Definition discover (pkg : Imports) (d : Discovery) (w : World) : World :=
  if existsb (isRowOf (FoundInstanceID d) (FoundName d)) (databases w) then w
  else
    withDatabases
      (databases w ++
         [{| api.ID := nextDatabaseID w;
             api.DatabaseCreatorID := SystemBotID pkg;
             api.DatabaseProjectID := DefaultProjectID pkg;
             api.DatabaseInstanceID := FoundInstanceID d;
             api.DatabaseEnvironmentID := FoundEnvironmentID d;
             api.Name := FoundName d;
             api.DatabaseCharacterSet := FoundCharacterSet d;
             api.DatabaseCollation := FoundCollation d;
             api.DatabaseLabels := "";
             api.DatabaseSchemaVersion := "" |}])
      (nextDatabaseID w + 1) w.

Definition discoverAll (pkg : Imports) (passes : list Discovery) (w : World) : World :=
  fold_left (fun w d => discover pkg d w) passes w.

(** The sync activity that falls before the executor's next call on the
    store. *)
Definition concurrentSync (pkg : Imports) : M World unit :=
  modify (fun w =>
            match syncSchedule w with
            | [] => w
            | passes :: later => discoverAll pkg passes (withSyncSchedule later w)
            end).

Definition matchesFind (find : api.DatabaseFind) (d : api.Database) : bool :=
  match api.FindInstanceID find with
  | Some i => api.DatabaseInstanceID d =? i
  | None => true
  end
  && match api.FindName find with
     | Some n => String.eqb (api.Name d) n
     | None => true
     end.

(** Modelled from the spec: [store.GetDatabase] is not among the sources.
    A find returns the row that matches, nil when there is none, or an
    error (section 6, store contract). *)
Definition GetDatabase (pkg : Imports) (server : Server) (find : api.DatabaseFind)
  : M World (result (option api.Database)) :=
  concurrentSync pkg ;;;
  match storeFailure server CallGetDatabase with
  | Some err => ret (inl err)
  | None =>
      w <- get ;;
      ret (inr (List.find (matchesFind find) (databases w)))
  end.

(** The row [d] after [patch]: a field of the patch that is set replaces
    the attribute. *)
Definition patched (patch : api.DatabasePatch) (d : api.Database) : api.Database :=
  {| api.ID := api.ID d;
     api.DatabaseCreatorID := api.DatabaseCreatorID d;
     api.DatabaseProjectID := default (api.DatabaseProjectID d) (api.PatchProjectID patch);
     api.DatabaseInstanceID := api.DatabaseInstanceID d;
     api.DatabaseEnvironmentID := api.DatabaseEnvironmentID d;
     api.Name := api.Name d;
     api.DatabaseCharacterSet := api.DatabaseCharacterSet d;
     api.DatabaseCollation := api.DatabaseCollation d;
     api.DatabaseLabels := api.DatabaseLabels d;
     api.DatabaseSchemaVersion := api.DatabaseSchemaVersion d |}.

(** The table once [patch] has been applied to the row with its id. *)
Definition patchRows (patch : api.DatabasePatch) (l : list api.Database)
  : list api.Database :=
  map (fun d => if api.ID d =? api.PatchID patch then patched patch d else d) l.

(** What an upsert does to the row [old] that a create meets: it moves the
    row to the project of the create. *)
Definition conflictPatch (create : api.DatabaseCreate) (old : api.Database)
  : api.DatabasePatch :=
  {| api.PatchID := api.ID old;
     api.PatchUpdaterID := api.CreateCreatorID create;
     api.PatchProjectID := Some (api.CreateProjectID create) |}.

(** Modelled from the spec: [store.CreateDatabase] is not among the sources.
    A create inserts a row with a fresh id.  The table holds one row for an
    instance and a name: a create that meets a row is refused by a store
    with a unique constraint, and turned into a patch of the row's project
    by a store that upserts (section 5; section 7 (e)). *)
Definition CreateDatabase (pkg : Imports) (server : Server) (create : api.DatabaseCreate)
  : M World (result api.Database) :=
  concurrentSync pkg ;;;
  match storeFailure server CallCreateDatabase with
  | Some err => ret (inl err)
  | None =>
      w <- get ;;
      match List.find (isRowOf (api.CreateInstanceID create) (api.CreateName create))
                      (databases w) with
      | Some old =>
          match createConflict server with
          | UniqueConstraint =>
              ret (inl (External "duplicate key value violates unique constraint"))
          | Upsert =>
              modify (withDatabases (patchRows (conflictPatch create old) (databases w))
                        (nextDatabaseID w)) ;;;
              ret (inr (patched (conflictPatch create old) old))
          end
      | None =>
          let database :=
            {| api.ID := nextDatabaseID w;
               api.DatabaseCreatorID := api.CreateCreatorID create;
               api.DatabaseProjectID := api.CreateProjectID create;
               api.DatabaseInstanceID := api.CreateInstanceID create;
               api.DatabaseEnvironmentID := api.CreateEnvironmentID create;
               api.Name := api.CreateName create;
               api.DatabaseCharacterSet := api.CreateCharacterSet create;
               api.DatabaseCollation := api.CreateCollation create;
               api.DatabaseLabels := default "" (api.CreateLabels create);
               api.DatabaseSchemaVersion := api.CreateSchemaVersion create |} in
          modify (withDatabases (databases w ++ [database]) (nextDatabaseID w + 1)) ;;;
          ret (inr database)
      end
  end.

(** Modelled from the spec: [store.PatchDatabase] is not among the sources.
    A patch changes, in the row with the patch's id, the attributes the
    patch sets, and returns the row; it is an error when no row has that
    id (section 4.2, step 4; section 6, store contract).  The data model
    of section 3 has no updater attribute: [UpdaterID] names who patches. *)
Definition PatchDatabase (pkg : Imports) (server : Server) (patch : api.DatabasePatch)
  : M World (result api.Database) :=
  concurrentSync pkg ;;;
  match storeFailure server CallPatchDatabase with
  | Some err => ret (inl err)
  | None =>
      w <- get ;;
      match List.find (fun d => api.ID d =? api.PatchID patch) (databases w) with
      | None =>
          ret (inl (CodedErrorf NotFound "database ID not found: %d"
                      [ArgInt (api.PatchID patch)]))
      | Some d =>
          modify (withDatabases (patchRows patch (databases w)) (nextDatabaseID w)) ;;;
          ret (inr (patched patch d))
      end
  end.

(** Modelled from the spec: [store.PatchTask] is not among the sources.
    A patch that sets the database reference records it for the task
    (section 4.2, step 5). *)
Definition PatchTask (pkg : Imports) (server : Server) (patch : api.TaskPatch)
  : M World (result unit) :=
  concurrentSync pkg ;;;
  match storeFailure server CallPatchTask with
  | Some err => ret (inl err)
  | None =>
      match api.TaskPatchDatabaseID patch with
      | Some id =>
          modify (fun w => withTaskDatabaseID
                             (<[api.TaskPatchID patch := id]> (taskDatabaseID w)) w) ;;;
          ret (inr tt)
      | None => ret (inr tt)
      end
  end.

(** *** [RunOnce] *)

(** [RunOnce], from "Create a baseline migration history" to the
    [ExecuteMigration] call: the migration info and its two annotations.
    The name of the creator is read through the pointer that the lookup
    returned whenever the error is nil; the read panics when the pointer
    is nil as well. *)
Definition composeMigrationInfo (server : Server) (task : api.Task)
           (payload : api.TaskDatabaseCreatePayload) (instance : api.Instance)
  : M World (Exit db.MigrationInfo) :=
  let mi (creator issueID : string) :=
    {| db.ReleaseVersion := profileVersion server;
       db.MigrationVersion := api.SchemaVersion payload;
       db.Namespace := api.DatabaseName payload;
       db.Database := api.DatabaseName payload;
       db.Environment := api.EnvironmentName (api.InstanceEnvironment instance);
       db.Source := db.UI;
       db.Type_ := db.Baseline;
       db.Description := "Create database";
       db.Creator := creator;
       db.IssueID := issueID;
       db.CreateDatabase := true;
       db.Force := true |} in
  let (creator, err) := GetPrincipalByID server (api.CreatorID task) in
  creator <-
    match err with
    | Some _ =>
        effect (LogError "Failed to fetch creator for composing the migration info") ;;;
        ret (Returns "")
    | None =>
        match creator with
        | Some creator => ret (Returns (api.PrincipalName creator))
        | None => ret (Panics nilDereference)
        end
    end ;;
  match creator with
  | Panics msg => ret (Panics msg)
  | Returns creator =>
      let (issue, err) := GetIssueByPipelineID server (api.PipelineID task) in
      match err with
      | Some _ =>
          effect (LogError "Failed to fetch containing issue for composing the migration info")
      | None => ret tt
      end ;;;
      match issue with
      | None =>
          effect (LogError
                    ("failed to fetch containing issue for composing the migration info, issue not found with pipeline ID "
                     +:+ Itoa (api.PipelineID task))) ;;;
          ret (Returns (mi creator ""))
      | Some issue => ret (Returns (mi creator (Itoa (api.IssueID issue))))
      end
  end.

(** [RunOnce], from the [GetDatabase] call to the end of the [if]/[else]
    that follows it: the row of the new database, created or patched. *)
Definition resolveDatabase (pkg : Imports) (server : Server) (task : api.Task)
           (payload : api.TaskDatabaseCreatePayload) (instance : api.Instance)
  : M World (result api.Database) :=
  database <- GetDatabase pkg server
                {| api.FindInstanceID := Some (api.InstanceID task);
                   api.FindName := Some (api.DatabaseName payload) |} ;;
  match database with
  | inl err => ret (inl err)
  | inr None =>
      let databaseCreate :=
        {| api.CreateCreatorID := SystemBotID pkg;
           api.CreateProjectID := api.ProjectID payload;
           api.CreateInstanceID := api.InstanceID task;
           api.CreateEnvironmentID := api.InstanceEnvironmentID instance;
           api.CreateName := api.DatabaseName payload;
           api.CreateCharacterSet := api.CharacterSet payload;
           api.CreateCollation := api.Collation payload;
           api.CreateLabels := Some (api.Labels payload);
           api.CreateSchemaVersion := api.SchemaVersion payload |} in
      CreateDatabase pkg server databaseCreate
  | inr (Some database) =>
      PatchDatabase pkg server
        {| api.PatchID := api.ID database;
           api.PatchUpdaterID := SystemBotID pkg;
           api.PatchProjectID := Some (api.ProjectID payload) |}
  end.

Abbreviation Outcome := (bool * option api.TaskRunResultPayload * option error)%type.

(** [RunOnce], from the [ExecuteMigration] call to its last [return]: the
    migration, the row of the database, the task's database reference and
    the labels. *)
Definition executeAndRecord (pkg : Imports) (server : Server) (task : api.Task)
           (payload : api.TaskDatabaseCreatePayload) (instance : api.Instance)
           (driver : Driver) (statement : string) (mi : db.MigrationInfo)
  : M World Outcome :=
  effect (Migration mi statement) ;;;
  match ExecuteMigration driver mi statement with
  | inl err => ret (true, None, Some err)
  | inr (migrationID, _) =>
      database <- resolveDatabase pkg server task payload instance ;;
      match database with
      | inl err => ret (true, None, Some err)
      | inr database =>
          patch <- PatchTask pkg server
                     {| api.TaskPatchID := api.TaskID task;
                        api.TaskPatchUpdaterID := SystemBotID pkg;
                        api.TaskPatchDatabaseID := Some (api.ID database) |} ;;
          match patch with
          | inl err => ret (true, None, Some err)
          | inr _ =>
              let done : M World Outcome :=
                ret (true,
                     Some {| api.Detail :=
                               "Created database " +:+ Quote pkg (api.DatabaseName payload);
                             api.MigrationID := migrationID;
                             api.Version := db.MigrationVersion mi |},
                     None) in
              if negb (String.eqb (api.Labels payload) "") then
                match GetProjectByID server (api.ProjectID payload) with
                | inl _ =>
                    ret (true, None,
                         Some (Errorf "failed to find project with ID %d"
                                 [ArgInt (api.ProjectID payload)]))
                | inr None =>
                    ret (true, None,
                         Some (Errorf "project not found with ID %d"
                                 [ArgInt (api.ProjectID payload)]))
                | inr (Some project) =>
                    effect (SetLabels (api.Labels payload) database project) ;;;
                    match setDatabaseLabels server (api.Labels payload) database
                            project (api.DatabaseCreatorID database) false with
                    | Some _ =>
                        ret (true, None,
                             Some (Errorf
                                     "failed to record database labels after creating database %v"
                                     [ArgInt (api.ID database)]))
                    | None => done
                    end
                end
              else done
          end
      end
  end.

(** [RunOnce]; the three values are [terminated], [result] and [err]. *)
Definition RunOnce (pkg : Imports) (server : Server) (task : api.Task)
  : M World (Exit Outcome) :=
  defer (atomicStoreCompleted 1)
    (match Unmarshal pkg (api.Payload task) with
     | inl err =>
         ret (Returns
                (true, None, Some (Errorf "invalid create database payload: %w" [ArgErr err])))
     | inr payload =>
         let statement := TrimSpace (api.Statement payload) in
         if String.eqb statement "" then
           ret (Returns (true, None, Some (Errorf "empty create database statement" [])))
         else
           let instance := api.TaskInstance task in
           effect (GetAdminDriver instance "") ;;;
           match getAdminDatabaseDriver server instance "" with
           | inl err => ret (Returns (true, None, Some err))
           | inr driver =>
               defer (effect CloseDriver)
                 (effect (LogDebug "Start creating database...") ;;;
                  mi <- composeMigrationInfo server task payload instance ;;
                  match mi with
                  | Panics msg => ret (Panics msg)
                  | Returns mi =>
                      out <- executeAndRecord pkg server task payload instance driver
                               statement mi ;;
                      ret (Returns out)
                  end)
           end
     end).

End Server.

(* ===================================================================== *)
(** ** Vocabulary of the statements about the sync *)
(* ===================================================================== *)

Module PgSpec.
Import Pg.

(** The column statement that is one expression [e] between double
    parentheses. *)
Definition expression (e : string) : string := String "(" (String "(" (e +:+ "))")).

(** The names written in the declaration of [excludedDatabaseList]. *)
Definition declaredDenylist : gset string :=
  {["bytebase"; "rdsadmin"; "cloudsql"; "cloudsqladmin"]}.

(** The denylist of an instance sync: the declared names and the keys of
    the package's [systemDatabases]. *)
Definition denylist (systemDatabases : gmap string bool) : gset string :=
  declaredDenylist ∪ dom systemDatabases.

(** The entry of the database list made from an enumerated database. *)
Definition databaseMeta (database : pgDatabaseSchema) : db.DatabaseMeta :=
  {| db.MetaName := name database;
     db.MetaCharacterSet := encoding database;
     db.MetaCollation := collate database |}.

(** [excludedDatabaseList] holds the declared names and, once an instance
    sync has run, the system databases: the states the package can be in. *)
Definition denylistState (systemDatabases : gmap string bool) (st : State) : Prop :=
  declaredDenylist ⊆ dom (excluded st) ∧ dom (excluded st) ⊆ denylist systemDatabases.

(** The view query of the transaction delivers a row whose definition is
    NULL. *)
Definition hasNullView (txn : Tx) : Prop :=
  exists rows schemaName viewName,
    query_pg_views txn = inr rows /\ In (schemaName, viewName, None) (scanned rows).

(** One of the sub-queries of the sync pass fails: indexes, constraints,
    tables, the columns of a listed table, views, extensions, or the
    commit. *)
Definition subQueryFails (txn : Tx) : Prop :=
  isErr (getIndices txn) = true
  \/ isErr (getTableConstraints txn) = true
  \/ isErr (getPgTables txn) = true
  \/ (exists rows r, query_pg_tables txn = inr rows /\ In r (scanned rows)
                     /\ isErr (getTableColumns txn (row_schemaname r) (row_tablename r)) = true)
  \/ isErr (getViews txn) = true
  \/ isErr (getExtensions txn) = true
  \/ Commit txn <> None.

End PgSpec.

(* ===================================================================== *)
(** ** Vocabulary of the statements about the executor *)
(* ===================================================================== *)

Module ServerSpec.
Import GoStrings Server.

(** The world after the calls [es] have been recorded, in order. *)
Definition logged (es : list Effect) (w : World) : World :=
  fold_left (fun w e => withEffects (effects w ++ [e]) w) es w.

(** The answer of the principal lookup as [RunOnce] reads it: an error,
    whatever comes with it, or else the principal; [None] for the answer
    with neither, a nil pointer and a nil error. *)
Definition creatorOf (answer : option api.Principal * option error)
  : option (result api.Principal) :=
  match answer with
  | (_, Some err) => Some (inl err)
  | (Some principal, None) => Some (inr principal)
  | (None, None) => None
  end.

(** The migration info of [RunOnce] for given answers of the two lookups:
    the creator is left empty when the principal lookup fails, the issue
    id when the issue lookup returns no issue. *)
Definition migrationInfo (server : Server) (payload : api.TaskDatabaseCreatePayload)
           (instance : api.Instance)
           (creator : result api.Principal) (issue : option api.Issue) : db.MigrationInfo :=
  {| db.ReleaseVersion := profileVersion server;
     db.MigrationVersion := api.SchemaVersion payload;
     db.Namespace := api.DatabaseName payload;
     db.Database := api.DatabaseName payload;
     db.Environment := api.EnvironmentName (api.InstanceEnvironment instance);
     db.Source := db.UI;
     db.Type_ := db.Baseline;
     db.Description := "Create database";
     db.Creator := match creator with
                   | inl _ => ""
                   | inr principal => api.PrincipalName principal
                   end;
     db.IssueID := match issue with
                   | None => ""
                   | Some issue => Itoa (api.IssueID issue)
                   end;
     db.CreateDatabase := true;
     db.Force := true |}.

(** The error lines of [RunOnce] for given answers of the two lookups, in
    a task of pipeline [pipelineID]. *)
Definition lineageLog (pipelineID : Z) (creator : result api.Principal)
           (issue : option api.Issue * option error) : list Effect :=
  match creator with
  | inl _ => [LogError "Failed to fetch creator for composing the migration info"]
  | inr _ => []
  end
  ++ match snd issue with
     | Some _ => [LogError "Failed to fetch containing issue for composing the migration info"]
     | None => []
     end
  ++ match fst issue with
     | None =>
         [LogError
            ("failed to fetch containing issue for composing the migration info, issue not found with pipeline ID "
             +:+ Itoa pipelineID)]
     | Some _ => []
     end.

(** The instance and the name that identify a row. *)
Definition keyOf (d : api.Database) : Z * string :=
  (api.DatabaseInstanceID d, api.Name d).

(** The constraints of the database table: one row for an instance and a
    name, one row for an id, every id below the next one to give out. *)
Definition tableConstraints (w : World) : Prop :=
  NoDup (map keyOf (databases w))
  /\ NoDup (map api.ID (databases w))
  /\ Forall (fun d => api.ID d < nextDatabaseID w) (databases w).

(** The sync pass found database [databaseName] on instance [instanceID]. *)
Definition discovers (instanceID : Z) (databaseName : string) (d : Discovery) : Prop :=
  FoundInstanceID d = instanceID /\ FoundName d = databaseName.

(** The sync passes that run before the executor's [i]-th coming call on
    the store ([0] for the next one). *)
Definition scheduled (i : nat) (w : World) : list Discovery :=
  nth i (syncSchedule w) [].

(** The row [d] in project [projectID], all else equal. *)
Definition inProject (projectID : Z) (d : api.Database) : api.Database :=
  {| api.ID := api.ID d;
     api.DatabaseCreatorID := api.DatabaseCreatorID d;
     api.DatabaseProjectID := projectID;
     api.DatabaseInstanceID := api.DatabaseInstanceID d;
     api.DatabaseEnvironmentID := api.DatabaseEnvironmentID d;
     api.Name := api.Name d;
     api.DatabaseCharacterSet := api.DatabaseCharacterSet d;
     api.DatabaseCollation := api.DatabaseCollation d;
     api.DatabaseLabels := api.DatabaseLabels d;
     api.DatabaseSchemaVersion := api.DatabaseSchemaVersion d |}.

(** The row a sync pass inserts under id [id] for a database it found. *)
Definition discoveredRow (pkg : Imports) (d : Discovery) (id : Z) : api.Database :=
  {| api.ID := id;
     api.DatabaseCreatorID := SystemBotID pkg;
     api.DatabaseProjectID := DefaultProjectID pkg;
     api.DatabaseInstanceID := FoundInstanceID d;
     api.DatabaseEnvironmentID := FoundEnvironmentID d;
     api.Name := FoundName d;
     api.DatabaseCharacterSet := FoundCharacterSet d;
     api.DatabaseCollation := FoundCollation d;
     api.DatabaseLabels := "";
     api.DatabaseSchemaVersion := "" |}.

(** Every run of [m] returns terminated. *)
Definition terminates (m : M World Outcome) : Prop :=
  forall w, fst (fst (fst (m w))) = true.

(** Every run of [m] that returns, returns terminated. *)
Definition returnsTerminated (m : M World (Exit Outcome)) : Prop :=
  forall w out, fst (m w) = Returns out -> fst (fst out) = true.

(** A run of [m] only adds to the recorded calls. *)
Definition extends {A} (m : M World A) : Prop :=
  forall w, exists more, effects (snd (m w)) = effects w ++ more.

End ServerSpec.

(* ===================================================================== *)
(** ** Sample inputs *)
(* ===================================================================== *)

Module Demo.
Import GoStrings.

(** *** For the sync *)

Definition databases : list Pg.pgDatabaseSchema :=
  [ {| Pg.name := "shop"; Pg.encoding := "UTF8"; Pg.collate := "en_US.UTF-8" |};
    {| Pg.name := "bytebase"; Pg.encoding := "UTF8"; Pg.collate := "C" |};
    {| Pg.name := "Bytebase"; Pg.encoding := "LATIN1"; Pg.collate := "C" |};
    {| Pg.name := "template1"; Pg.encoding := "UTF8"; Pg.collate := "C" |} ].

Definition systemDatabases : gmap string bool :=
  <["template0" := true]> (<["template1" := true]> ∅).

Definition noRows {A} : result (Pg.Rows A) :=
  inr {| Pg.scanned := []; Pg.failure := None |}.

(** A transaction on a database that holds nothing but the views [views]. *)
Definition viewsOnly (views : list (string * string * Pg.NullString)) : Pg.Tx :=
  {| Pg.query_pg_indexes := noRows;
     Pg.query_obj_description :=
       fun _ _ => inr {| Pg.scanned := [None]; Pg.failure := None |};
     Pg.query_is_primary := fun _ _ _ => inr 0;
     Pg.query_pg_constraint := noRows;
     Pg.query_pg_tables := noRows;
     Pg.query_count := fun _ _ => inr {| Pg.scanned := [0]; Pg.failure := None |};
     Pg.query_columns := fun _ _ => noRows;
     Pg.query_pg_views := inr {| Pg.scanned := views; Pg.failure := None |};
     Pg.query_pg_extension := noRows;
     Pg.Commit := None |}.

Definition connection (views : list (string * string * Pg.NullString)) : Pg.DB :=
  {| Pg.BeginTx := inr (viewsOnly views) |}.

(** A server with the databases above, each holding the views [views]. *)
Definition driver (views : list (string * string * Pg.NullString)) : Pg.Driver :=
  {| Pg.getVersion := inr "14.2";
     Pg.query_pg_user :=
       inr {| Pg.scanned := [("bb", "superuser")]; Pg.failure := None |};
     Pg.getDatabases := inr databases;
     Pg.GetDBConnection := fun _ => inr (connection views);
     Pg.nowUnix := fun _ => 1667347200 |}.

Definition nullView : list (string * string * Pg.NullString) :=
  [("public", "orders_v", None)].

Definition emptyView : list (string * string * Pg.NullString) :=
  [("public", "orders_v", Some "")].

(** *** For the executor *)

Definition quote (s : string) : string :=
  String (byte 34) (s +:+ String (byte 34) "").

(** A stand-in for the decoder: the payload text is the statement, and
    the text [{] is malformed. *)
Definition pkg : Server.Imports :=
  {| Server.SystemBotID := 1;
     Server.DefaultProjectID := 1;
     Server.Unmarshal :=
       fun s =>
         if String.eqb s "{" then inl (External "unexpected end of JSON input")
         else inr {| api.DatabaseName := "shop";
                     api.ProjectID := 42;
                     api.SchemaVersion := "v1";
                     api.CharacterSet := "UTF8";
                     api.Collation := "en_US.UTF-8";
                     api.Labels := "";
                     api.Statement := s |};
     Server.Quote := quote |}.

(** A driver whose migration succeeds with id 101 and answers a second
    value of its own. *)
Definition adminDriver : Server.Driver :=
  {| Server.ExecuteMigration := fun _ _ => inr (101, "v1.effective") |}.

(** A server that knows neither the creator nor the issue of the task,
    and whose store answers every call. *)
Definition server : Server.Server :=
  {| Server.profileVersion := "1.2.0";
     Server.getAdminDatabaseDriver := fun _ _ => inr adminDriver;
     Server.GetPrincipalByID := fun _ => (None, Some (External "principal not found"));
     Server.GetIssueByPipelineID := fun _ => (None, None);
     Server.GetProjectByID := fun id => inr (Some {| api.ProjectKey := id |});
     Server.setDatabaseLabels := fun _ _ _ _ _ => None;
     Server.storeFailure := fun _ => None;
     Server.createConflict := Server.UniqueConstraint |}.

Definition instance : api.Instance :=
  {| api.InstanceName := "prod-pg";
     api.InstanceEnvironmentID := 3;
     api.InstanceEnvironment := {| api.EnvironmentName := "Prod" |} |}.

Definition task (payload : string) : api.Task :=
  {| api.TaskID := 11;
     api.PipelineID := 5;
     api.InstanceID := 7;
     api.TaskInstance := instance;
     api.CreatorID := 9;
     api.Payload := payload |}.

Definition createShop : string := "CREATE DATABASE shop;".

(** The sync finds the database the task creates. *)
Definition shopFound : Server.Discovery :=
  {| Server.FoundInstanceID := 7;
     Server.FoundEnvironmentID := 3;
     Server.FoundName := "shop";
     Server.FoundCharacterSet := "UTF8";
     Server.FoundCollation := "en_US.UTF-8" |}.

(** An empty store, with the sync passes [schedule] to come. *)
Definition world (schedule : list (list Server.Discovery)) : Server.World :=
  {| Server.executor := Server.NewDatabaseCreateTaskExecutor;
     Server.databases := [];
     Server.nextDatabaseID := 1;
     Server.taskDatabaseID := ∅;
     Server.effects := [];
     Server.syncSchedule := schedule |}.

End Demo.

(* ===================================================================== *)
(** ** Vocabulary of further statements about the parser *)
(* ===================================================================== *)

Module PgParseSpec.
Import GoStrings.

(** A byte that stands for itself: an ASCII byte that is not white space.
    It is neither trimmed nor part of a longer white-space rune. *)
Definition solid (c : ascii) : bool :=
  (Nat.ltb (nat_of_ascii c) 128 && negb (isAsciiSpace c))%bool.

Definition firstByte (s : string) : option ascii :=
  hd_error (list_ascii_of_string s).

Definition lastByte (s : string) : option ascii :=
  hd_error (rev (list_ascii_of_string s)).

(** A term of a column list that the loop takes up to the next comma: it
    starts and ends with a solid byte, holds no comma and no newline, and
    does not open with a double parenthesis.  Column names, quoted names,
    names with a sort order and calls of one argument are such terms. *)
Definition columnTerm (t : string) : Prop :=
  (exists a, firstByte t = Some a /\ solid a = true)
  /\ (exists b, lastByte t = Some b /\ solid b = true)
  /\ indexOf t "," = None
  /\ firstLine t = t
  /\ HasPrefix t "((" = false.

(** The terms of a column list the way PostgreSQL prints them, separated by
    a comma and a space. *)
Fixpoint joinTerms (ts : list string) : string :=
  match ts with
  | [] => ""
  | t :: rest =>
      match rest with
      | [] => t
      | _ :: _ => t +:+ ", " +:+ joinTerms rest
      end
  end.

(** All the bytes of [s] are word characters. *)
Definition isWordString (s : string) : Prop :=
  Forall (fun c => isWord c = true) (list_ascii_of_string s).

End PgParseSpec.

Module PgCatalogSpec.
Import Pg.

(** The key under which [SyncDBSchema] files an index, [getTableConstraints]
    a constraint, and under which both look a table up: the schema and the
    table name with a dot between them. *)
Definition indexKey (idx : indexSchema) : string :=
  indexSchemaName idx +:+ "." +:+ indexTableName idx.

Definition constraintKey (c : tableConstraint) : string :=
  constraintSchemaName c +:+ "." +:+ constraintTableName c.

Definition tableKey (tbl : tableSchema) : string :=
  tableSchemaName tbl +:+ "." +:+ tableName tbl.

Definition rowKey (r : tableRow) : string :=
  row_schemaname r +:+ "." +:+ row_tablename r.

Definition viewRowKey (r : string * string * NullString) : string :=
  fst (fst r) +:+ "." +:+ snd (fst r).

(** The entries of the snapshot for the indexes [indices], in order. *)
Definition indexEntries (indices : list indexSchema) : list db.Index :=
  flat_map (fun idx => toIndexes idx 0 (columnExpressions idx)) indices.

(** A row of [INFORMATION_SCHEMA.COLUMNS] whose [is_nullable] is one of the
    two texts that [convertBoolFromYesNo] knows. *)
Definition yesOrNo (r : columnRow) : Prop :=
  row_isNullable r = "YES" \/ row_isNullable r = "NO".

(** The calls of a database sync on a transaction that has begun: the
    commit when the reads succeeded, and the rollback. *)
Definition transactionTrace (databaseName : string) (readsFailed : bool) : list Event :=
  [EvGetDatabases; EvGetDBConnection databaseName; EvBeginTx]
  ++ (if readsFailed then [] else [EvCommit])
  ++ [EvRollback].

End PgCatalogSpec.

Module DemoCatalog.

(** A database with one table, its two indexes, its constraints and two
    views, on a server whose clock ticks between two readings. *)

Definition orders_pkey : string :=
  "CREATE UNIQUE INDEX orders_pkey ON public.orders USING btree (id)".

Definition orders_by_day : string :=
  "CREATE INDEX orders_by_day ON public.orders USING btree (customer_id, created_at DESC)".

Definition column (name type nullable : string) (position : Z) : Pg.columnRow :=
  {| Pg.row_columnName := name;
     Pg.row_dataType := type;
     Pg.row_ordinalPosition := position;
     Pg.row_characterMaximumLength := None;
     Pg.row_columnDefault := None;
     Pg.row_isNullable := nullable;
     Pg.row_collationName := None;
     Pg.row_udtSchema := Some "pg_catalog";
     Pg.row_udtName := Some type;
     Pg.row_comment := None |}.

Definition constraintRows : list (string * string * string * string) :=
  [ ("public", "orders", "orders_pkey", "PRIMARY KEY (id)");
    ("sales", "sales.invoices", "invoices_pkey", "PRIMARY KEY (id)");
    ("public", "orders", "orders_customer_fkey", "FOREIGN KEY (customer_id) REFERENCES customers(id)") ].

Definition tableRows : Pg.Rows Pg.tableRow :=
  {| Pg.scanned := [ {| Pg.row_schemaname := "public";
                        Pg.row_tablename := "orders";
                        Pg.row_tableowner := "bb";
                        Pg.row_tableSizeByte := 8192;
                        Pg.row_indexSizeByte := 16384 |} ];
     Pg.failure := None |}.

Definition viewRows : Pg.Rows (string * string * Pg.NullString) :=
  {| Pg.scanned := [("public", "orders_v", Some "SELECT id FROM orders;");
                    ("public", "late_orders_v", Some "SELECT id FROM orders WHERE late;")];
     Pg.failure := None |}.

Definition columnRows : Pg.Rows Pg.columnRow :=
  {| Pg.scanned := [ column "id" "integer" "NO" 1;
                     column "customer_id" "integer" "YES" 2;
                     column "created_at" "timestamp" "NO" 3 ];
     Pg.failure := None |}.

Definition tx : Pg.Tx :=
  {| Pg.query_pg_indexes :=
       inr {| Pg.scanned := [ ("public", "orders", "orders_pkey", orders_pkey);
                              ("public", "orders", "orders_by_day", orders_by_day) ];
              Pg.failure := None |};
     Pg.query_obj_description :=
       fun _ objName =>
         inr {| Pg.scanned := [if String.eqb objName "orders" then Some "customer orders"
                               else None];
                Pg.failure := None |};
     Pg.query_is_primary :=
       fun _ indexName _ => inr (if String.eqb indexName "orders_pkey" then 1 else 0);
     Pg.query_pg_constraint := inr {| Pg.scanned := constraintRows; Pg.failure := None |};
     Pg.query_pg_tables := inr tableRows;
     Pg.query_count := fun _ _ => inr {| Pg.scanned := [2]; Pg.failure := None |};
     Pg.query_columns := fun _ _ => inr columnRows;
     Pg.query_pg_views := inr viewRows;
     Pg.query_pg_extension := Demo.noRows;
     Pg.Commit := None |}.

Definition pgDriver : Pg.Driver :=
  {| Pg.getVersion := inr "14.2";
     Pg.query_pg_user :=
       inr {| Pg.scanned := [("bb", "superuser")]; Pg.failure := None |};
     Pg.getDatabases := inr Demo.databases;
     Pg.GetDBConnection := fun _ => inr {| Pg.BeginTx := inr tx |};
     Pg.nowUnix := fun i => 1667347200 + Z.of_nat i |}.

(** A server that does not answer the version query. *)
Definition unreachable : Pg.Driver :=
  {| Pg.getVersion := inl (External "connection refused");
     Pg.query_pg_user := inl (External "connection refused");
     Pg.getDatabases := inl (External "connection refused");
     Pg.GetDBConnection := fun _ => inl (External "connection refused");
     Pg.nowUnix := fun _ => 1667347200 |}.

End DemoCatalog.

Module ExecutorSpec.
Import GoStrings Server ServerSpec.

(** A run of [m] records no call. *)
Definition quiet {A} (m : M World A) : Prop :=
  forall w, effects (snd (m w)) = effects w.

(** [w'] has the store of [w]: the rows, the next id, the database of each
    task, and the sync passes still to come. *)
Definition sameStore (w w' : World) : Prop :=
  databases w' = databases w
  /\ nextDatabaseID w' = nextDatabaseID w
  /\ taskDatabaseID w' = taskDatabaseID w
  /\ syncSchedule w' = syncSchedule w.

(** The store answers every call. *)
Definition storeAnswers (server : Server) : Prop :=
  forall call, storeFailure server call = None.

(** No sync pass that is still to come finds database [databaseName] of
    instance [instanceID]. *)
Definition unraced (instanceID : Z) (databaseName : string) (w : World) : Prop :=
  Forall (Forall (fun d => ~ discovers instanceID databaseName d)) (syncSchedule w).

(** The migration info that [RunOnce] composes for a task when the
    principal lookup reads as [creator]. *)
Definition migrationInfoOf (server : Server) (task : api.Task)
           (payload : api.TaskDatabaseCreatePayload) (creator : result api.Principal)
  : db.MigrationInfo :=
  migrationInfo server payload (api.TaskInstance task) creator
    (fst (GetIssueByPipelineID server (api.PipelineID task))).

(** The calls of [RunOnce] from the driver to the principal lookup. *)
Definition untilLookup (task : api.Task) : list Effect :=
  [GetAdminDriver (api.TaskInstance task) ""; LogDebug "Start creating database..."].

(** The calls of [RunOnce] from the driver to the migration, when the
    principal lookup reads as [creator]. *)
Definition untilMigration (server : Server) (task : api.Task)
           (payload : api.TaskDatabaseCreatePayload) (creator : result api.Principal)
  : list Effect :=
  untilLookup task
  ++ lineageLog (api.PipelineID task) creator
       (GetIssueByPipelineID server (api.PipelineID task))
  ++ [Migration (migrationInfoOf server task payload creator)
        (TrimSpace (api.Statement payload))].

(** The patch of [RunOnce] that points the task to the row [database]. *)
Definition taskPatch (pkg : Imports) (task : api.Task) (database : api.Database)
  : api.TaskPatch :=
  {| api.TaskPatchID := api.TaskID task;
     api.TaskPatchUpdaterID := SystemBotID pkg;
     api.TaskPatchDatabaseID := Some (api.ID database) |}.

End ExecutorSpec.

Module DemoLabels.

(** The decoder of [Demo.pkg] for a payload that carries labels. *)
Definition labelled : Server.Imports :=
  {| Server.SystemBotID := 1;
     Server.DefaultProjectID := 1;
     Server.Unmarshal :=
       fun s =>
         inr {| api.DatabaseName := "shop";
                api.ProjectID := 42;
                api.SchemaVersion := "v1";
                api.CharacterSet := "UTF8";
                api.Collation := "en_US.UTF-8";
                api.Labels := "[]";
                api.Statement := s |};
     Server.Quote := Demo.quote |}.

(** A server that has no project 42. *)
Definition projectless : Server.Server :=
  {| Server.profileVersion := "1.2.0";
     Server.getAdminDatabaseDriver := fun _ _ => inr Demo.adminDriver;
     Server.GetPrincipalByID := fun _ => (None, Some (External "principal not found"));
     Server.GetIssueByPipelineID := fun _ => (None, None);
     Server.GetProjectByID := fun _ => inr None;
     Server.setDatabaseLabels := fun _ _ _ _ _ => None;
     Server.storeFailure := fun _ => None;
     Server.createConflict := Server.UniqueConstraint |}.

(** A server without an administrative connection. *)
Definition offline : Server.Server :=
  {| Server.profileVersion := "1.2.0";
     Server.getAdminDatabaseDriver := fun _ _ => inl (External "connection refused");
     Server.GetPrincipalByID := fun _ => (None, Some (External "principal not found"));
     Server.GetIssueByPipelineID := fun _ => (None, None);
     Server.GetProjectByID := fun _ => inr None;
     Server.setDatabaseLabels := fun _ _ _ _ _ => None;
     Server.storeFailure := fun _ => None;
     Server.createConflict := Server.UniqueConstraint |}.

(** A server whose driver refuses the migration. *)
Definition refusing : Server.Server :=
  {| Server.profileVersion := "1.2.0";
     Server.getAdminDatabaseDriver :=
       fun _ _ => inr {| Server.ExecuteMigration :=
                           fun _ _ => inl (External "permission denied to create database") |};
     Server.GetPrincipalByID := fun _ => (None, Some (External "principal not found"));
     Server.GetIssueByPipelineID := fun _ => (None, None);
     Server.GetProjectByID := fun _ => inr None;
     Server.setDatabaseLabels := fun _ _ _ _ _ => None;
     Server.storeFailure := fun _ => None;
     Server.createConflict := Server.UniqueConstraint |}.

(** The sync finds another database of the instance. *)
Definition ordersFound : Server.Discovery :=
  {| Server.FoundInstanceID := 7;
     Server.FoundEnvironmentID := 3;
     Server.FoundName := "orders";
     Server.FoundCharacterSet := "UTF8";
     Server.FoundCollation := "en_US.UTF-8" |}.

(** The server of [Demo] when its store has no principal for the creator
    of the task and says so the way it does for an issue: with a nil
    pointer and no error. *)
Definition nobody : Server.Server :=
  {| Server.profileVersion := "1.2.0";
     Server.getAdminDatabaseDriver := fun _ _ => inr Demo.adminDriver;
     Server.GetPrincipalByID := fun _ => (None, None);
     Server.GetIssueByPipelineID := fun _ => (None, None);
     Server.GetProjectByID := fun id => inr (Some {| api.ProjectKey := id |});
     Server.setDatabaseLabels := fun _ _ _ _ _ => None;
     Server.storeFailure := fun _ => None;
     Server.createConflict := Server.UniqueConstraint |}.

(** The server of [Demo] with a store that upserts. *)
Definition upserting : Server.Server :=
  {| Server.profileVersion := "1.2.0";
     Server.getAdminDatabaseDriver := fun _ _ => inr Demo.adminDriver;
     Server.GetPrincipalByID := fun _ => (None, Some (External "principal not found"));
     Server.GetIssueByPipelineID := fun _ => (None, None);
     Server.GetProjectByID := fun id => inr (Some {| api.ProjectKey := id |});
     Server.setDatabaseLabels := fun _ _ _ _ _ => None;
     Server.storeFailure := fun _ => None;
     Server.createConflict := Server.Upsert |}.

End DemoLabels.

(* ===================================================================== *)
(** ** Facts about the parser of index definitions *)
(* ===================================================================== *)

Module PgParseFacts.
Import GoStrings PgParse PgSpec.

Lemma length_string_of_list_ascii (l : list ascii) :
  String.length (string_of_list_ascii l) = length l.
Proof. induction l as [|c l IH]; simpl; congruence. Qed.

Lemma length_list_ascii_of_string (s : string) :
  length (list_ascii_of_string s) = String.length s.
Proof. induction s as [|c s IH]; simpl; congruence. Qed.

(** Trimming never makes a string longer. *)
Lemma trimLeft_length_le (n : nat) :
  forall l, (length l <= n)%nat -> (length (trimLeft l) <= length l)%nat.
Proof.
  induction n as [|n IH]; intros l Hn.
  - destruct l; simpl in *; lia.
  - destruct l as [|c1 l1]; [simpl; lia|].
    simpl in Hn. cbn [trimLeft].
    destruct (isAsciiSpace c1).
    { specialize (IH l1 ltac:(lia)). simpl. lia. }
    destruct l1 as [|c2 l2]; [simpl; lia|].
    destruct (isSpace2 c1 c2).
    { simpl in Hn. specialize (IH l2 ltac:(lia)). simpl. lia. }
    destruct l2 as [|c3 l3]; [simpl; lia|].
    destruct (isSpace3 c1 c2 c3); [|simpl; lia].
    simpl in Hn. specialize (IH l3 ltac:(lia)). simpl. lia.
Qed.

Lemma trimLeftRev_length_le (n : nat) :
  forall l, (length l <= n)%nat -> (length (trimLeftRev l) <= length l)%nat.
Proof.
  induction n as [|n IH]; intros l Hn.
  - destruct l; simpl in *; lia.
  - destruct l as [|c1 l1]; [simpl; lia|].
    simpl in Hn. cbn [trimLeftRev].
    destruct (isAsciiSpace c1).
    { specialize (IH l1 ltac:(lia)). simpl. lia. }
    destruct l1 as [|c2 l2]; [simpl; lia|].
    destruct (isSpace2 c2 c1).
    { simpl in Hn. specialize (IH l2 ltac:(lia)). simpl. lia. }
    destruct l2 as [|c3 l3]; [simpl; lia|].
    destruct (isSpace3 c3 c2 c1); [|simpl; lia].
    simpl in Hn. specialize (IH l3 ltac:(lia)). simpl. lia.
Qed.

Lemma TrimSpace_len_le (s : string) : (len (TrimSpace s) <= len s)%nat.
Proof.
  unfold TrimSpace, len.
  rewrite length_string_of_list_ascii, length_rev.
  pose proof (trimLeft_length_le _ (list_ascii_of_string s) (Nat.le_refl _)) as H1.
  pose proof (trimLeftRev_length_le _ (rev (trimLeft (list_ascii_of_string s)))
                (Nat.le_refl _)) as H2.
  rewrite length_rev in H2. rewrite length_list_ascii_of_string in H1. lia.
Qed.

Lemma drop_len (n : nat) : forall s, len (drop n s) = (len s - n)%nat.
Proof.
  unfold len. induction n as [|n IH]; intros [|c s]; simpl; try lia.
  apply IH.
Qed.

Lemma afterToken_len_lt (columnStmt token : string) :
  len token <> O -> len columnStmt <> O ->
  (len (afterToken columnStmt token) < len columnStmt)%nat.
Proof.
  intros Ht Hc. unfold afterToken.
  pose proof (drop_len (len token) columnStmt) as Hd.
  pose proof (TrimSpace_len_le (drop (len token) columnStmt)) as H1.
  destruct (TrimSpace (drop (len token) columnStmt)) as [|c rest] eqn:E.
  - pose proof (TrimSpace_len_le "") as H2. unfold len in *. simpl in *. lia.
  - destruct (Ascii.eqb c ","%char).
    + pose proof (TrimSpace_len_le rest) as H2. unfold len in *. simpl in *. lia.
    + pose proof (TrimSpace_len_le (String c rest)) as H2. unfold len in *. simpl in *. lia.
Qed.

(** The loop ends before its fuel does. *)
Lemma columnLoop_total (fuel : nat) :
  forall stmt columnStmt cols,
    (len columnStmt < fuel)%nat ->
    exists r, columnLoop fuel stmt columnStmt cols = Some r.
Proof.
  induction fuel as [|fuel IH]; intros stmt columnStmt cols Hlt; [lia|].
  cbn [columnLoop].
  destruct (Nat.eqb (len columnStmt) 0) eqn:E0; [eauto|].
  destruct (Nat.eqb (len (nextToken columnStmt)) 0) eqn:E1; [eauto|].
  apply Nat.eqb_neq in E0, E1.
  apply IH.
  pose proof (afterToken_len_lt columnStmt (nextToken columnStmt) E1 E0). lia.
Qed.

(** [getIndexColumnExpressions] is the loop run to its end. *)
Lemma getIndexColumnExpressions_loop (stmt columnStmt : string) :
  findParenGroup stmt = Some columnStmt ->
  columnLoop (S (len columnStmt)) stmt columnStmt [] = Some (getIndexColumnExpressions stmt).
Proof.
  intros H. unfold getIndexColumnExpressions. rewrite H.
  destruct (columnLoop_total (S (len columnStmt)) stmt columnStmt []) as [r Hr]; [lia|].
  now rewrite Hr.
Qed.


(** A statement made of ASCII white space trims to the empty string. *)
Lemma trimLeft_blank (l : list ascii) :
  Forall (fun c => isAsciiSpace c = true) l -> trimLeft l = [].
Proof.
  induction 1 as [|c l Hc Hl IH]; [reflexivity|].
  cbn [trimLeft]. now rewrite Hc.
Qed.

Lemma TrimSpace_blank (s : string) :
  Forall (fun c => isAsciiSpace c = true) (list_ascii_of_string s) -> TrimSpace s = "".
Proof.
  intros H. unfold TrimSpace. now rewrite (trimLeft_blank _ H).
Qed.

(** *** An expression between double parentheses *)

Lemma append_cons (c : ascii) (s t : string) : String c s +:+ t = String c (s +:+ t).
Proof. reflexivity. Qed.

Lemma append_nil (t : string) : "" +:+ t = t.
Proof. reflexivity. Qed.

Lemma take_app_len (s t : string) : take (len s) (s +:+ t) = s.
Proof.
  unfold len. induction s as [|c s IH].
  - rewrite append_nil. now destruct t.
  - rewrite append_cons. cbn [take String.length]. now f_equal.
Qed.

Lemma drop_app_len (s t : string) : drop (len s) (s +:+ t) = t.
Proof.
  unfold len. induction s as [|c s IH].
  - reflexivity.
  - rewrite append_cons. cbn [drop String.length]. exact IH.
Qed.

Lemma take_len (s : string) : take (len s) s = s.
Proof.
  unfold len. induction s as [|c s IH]; cbn [take String.length]; [reflexivity|now f_equal].
Qed.

Lemma drop_len_all (s : string) : drop (len s) s = "".
Proof.
  unfold len. induction s as [|c s IH]; cbn [drop String.length]; [reflexivity|exact IH].
Qed.

Lemma len_app (s t : string) : len (s +:+ t) = (len s + len t)%nat.
Proof.
  unfold len. induction s as [|c s IH].
  - reflexivity.
  - rewrite append_cons. cbn [String.length Nat.add]. now f_equal.
Qed.

Lemma append_empty_r (s : string) : s +:+ "" = s.
Proof.
  induction s as [|c s IH]; [reflexivity|]. rewrite append_cons. now f_equal.
Qed.

Lemma append_assoc (s t u : string) : (s +:+ t) +:+ u = s +:+ (t +:+ u).
Proof.
  induction s as [|c s IH]; [reflexivity|]. rewrite !append_cons. now f_equal.
Qed.

Lemma firstLine_app (s t : string) :
  firstLine s = s -> firstLine (s +:+ t) = s +:+ firstLine t.
Proof.
  induction s as [|c s IH]; [reflexivity|].
  rewrite !append_cons. cbn [firstLine].
  destruct (Ascii.eqb c newline); [discriminate|].
  intros [= H]. now rewrite (IH H).
Qed.

Lemma lastIndexOf_app_one (s : string) : lastIndexOf (s +:+ ")") ")" = Some (len s).
Proof.
  unfold len. induction s as [|c s IH]; [reflexivity|].
  rewrite append_cons. cbn [lastIndexOf String.length]. now rewrite IH.
Qed.

Lemma lastIndexOf_app_two (s : string) : lastIndexOf (s +:+ "))") "))" = Some (len s).
Proof.
  unfold len. induction s as [|c s IH]; [reflexivity|].
  rewrite append_cons. cbn [lastIndexOf String.length]. now rewrite IH.
Qed.

Lemma list_ascii_of_string_app (s t : string) :
  list_ascii_of_string (s +:+ t) = list_ascii_of_string s ++ list_ascii_of_string t.
Proof.
  induction s as [|c s IH]; [reflexivity|].
  rewrite append_cons. cbn [list_ascii_of_string app]. now f_equal.
Qed.

Lemma isSpace2_close (c : ascii) : isSpace2 c ")" = false.
Proof.
  unfold isSpace2. change (nat_of_ascii ")") with 41%nat.
  destruct (Nat.eqb (nat_of_ascii c) 194); reflexivity.
Qed.

Lemma isSpace3_close (c3 c2 : ascii) : isSpace3 c3 c2 ")" = false.
Proof.
  unfold isSpace3. change (nat_of_ascii ")") with 41%nat.
  set (a := nat_of_ascii c3). set (b := nat_of_ascii c2).
  destruct (Nat.eqb a 225), (Nat.eqb a 226), (Nat.eqb a 227),
    (Nat.eqb b 154), (Nat.eqb b 128), (Nat.eqb b 129); reflexivity.
Qed.

(** A string between parentheses has no white space to trim. *)
Lemma TrimSpace_parenthesized (s : string) :
  TrimSpace (String "(" (s +:+ ")")) = String "(" (s +:+ ")").
Proof.
  unfold TrimSpace.
  assert (Hl : trimLeft (list_ascii_of_string (String "(" (s +:+ ")")))
               = list_ascii_of_string (String "(" (s +:+ ")"))).
  { cbn [list_ascii_of_string trimLeft].
    destruct (list_ascii_of_string (s +:+ ")")) as [|c2 [|c3 l]]; reflexivity. }
  rewrite Hl.
  assert (Hr : exists l, rev (list_ascii_of_string (String "(" (s +:+ ")"))) = ")"%char :: l).
  { cbn [list_ascii_of_string]. rewrite list_ascii_of_string_app.
    cbn [list_ascii_of_string rev]. rewrite rev_app_distr. cbn [rev app]. eauto. }
  destruct Hr as [l Hr].
  assert (Ht : trimLeftRev (")"%char :: l) = ")"%char :: l).
  { cbn [trimLeftRev]. change (isAsciiSpace ")") with false. cbv iota.
    destruct l as [|c2 [|c3 l']]; rewrite ?isSpace2_close, ?isSpace3_close; reflexivity. }
  rewrite Hr, Ht, <- Hr, rev_involutive. apply string_of_list_ascii_of_string.
Qed.

Lemma len_expression (e : string) : len (expression e) = (2 + len e + 2)%nat.
Proof. unfold expression, len. cbn [String.length]. fold (len (e +:+ "))")).
  rewrite len_app. cbn. unfold len. lia. Qed.

Lemma HasPrefix_expression (e : string) : HasPrefix (expression e) "((" = true.
Proof. unfold expression. cbn [HasPrefix Ascii.eqb Bool.eqb]. now destruct (e +:+ "))"). Qed.

Lemma findDoubleParen_expression (e : string) :
  firstLine e = e -> findDoubleParen (expression e) = expression e.
Proof.
  intros He.
  assert (Hstep : findDoubleParen (expression e)
                  = match lastIndexOf (firstLine (e +:+ "))")) "))" with
                    | Some q => take (2 + q + 2) (expression e)
                    | None => findDoubleParen (String "(" (e +:+ "))"))
                    end).
  { unfold expression at 1. cbn [findDoubleParen]. fold (expression e).
    now rewrite HasPrefix_expression. }
  rewrite Hstep, (firstLine_app e "))" He).
  change (firstLine "))") with "))". rewrite lastIndexOf_app_two.
  rewrite <- len_expression. apply take_len.
Qed.

(** Its token is the whole statement, whatever commas [e] holds. *)
Lemma nextToken_expression (e : string) :
  firstLine e = e -> nextToken (expression e) = expression e.
Proof.
  intros He. unfold nextToken. rewrite HasPrefix_expression.
  now apply findDoubleParen_expression.
Qed.

Lemma findParenGroup_columns (head cs : string) :
  indexOf head "(" = None -> firstLine cs = cs ->
  findParenGroup (head +:+ String "(" (cs +:+ ")")) = Some cs.
Proof.
  intros Hh Hc. induction head as [|c head IH].
  - rewrite append_nil. cbn [findParenGroup Ascii.eqb Bool.eqb].
    rewrite (firstLine_app cs ")" Hc). change (firstLine ")") with ")".
    rewrite lastIndexOf_app_one. now rewrite take_app_len.
  - rewrite append_cons. cbn [indexOf] in Hh.
    destruct (HasPrefix (String c head) "(") eqn:Ep; [discriminate|].
    cbn [findParenGroup].
    destruct (Ascii.eqb c "("%char) eqn:Ec.
    + apply Ascii.eqb_eq in Ec. subst c.
      cbn [HasPrefix Ascii.eqb Bool.eqb] in Ep. destruct head; discriminate.
    + apply IH. destruct (indexOf head "("); [discriminate|reflexivity].
Qed.

Lemma firstLine_expression (e : string) :
  firstLine e = e -> firstLine (expression e) = expression e.
Proof.
  intros He. unfold expression. cbn [firstLine].
  change (Ascii.eqb "(" newline) with false. cbv iota.
  now rewrite (firstLine_app e "))" He).
Qed.

(** The example of the specification in general: an index on one expression
    written between double parentheses has one term, the expression,
    whatever commas the expression holds. *)
Lemma getIndexColumnExpressions_expression (head e : string) :
  indexOf head "(" = None ->
  firstLine e = e ->
  getIndexColumnExpressions (head +:+ String "(" (expression e +:+ ")"))
  = inr [expression e].
Proof.
  intros Hh He.
  unfold getIndexColumnExpressions.
  rewrite (findParenGroup_columns head (expression e) Hh (firstLine_expression e He)).
  cbn [columnLoop].
  assert (Hn : Nat.eqb (len (expression e)) 0 = false)
    by (rewrite len_expression; reflexivity).
  rewrite Hn, (nextToken_expression e He), Hn.
  assert (Ha : afterToken (expression e) (expression e) = "").
  { unfold afterToken.
    rewrite drop_len_all. reflexivity. }
  rewrite Ha.
  assert (Ht : TrimSpace (expression e) = expression e).
  { unfold expression.
    replace (String "(" (e +:+ "))")) with (String "(" (e +:+ ")") +:+ ")").
    - apply TrimSpace_parenthesized.
    - rewrite append_cons. f_equal. now rewrite append_assoc. }
  rewrite Ht. reflexivity.
Qed.

(** On a sample: one expression with a comma inside,
    written between double parentheses, is one term. *)
Example getIndexColumnExpressions_one_expression :
  getIndexColumnExpressions "CREATE INDEX idx ON public.t USING btree (((a, b)))"
  = inr ["((a, b))"].
Proof. vm_compute. reflexivity. Qed.

Example getIndexColumnExpressions_columns :
  getIndexColumnExpressions "CREATE UNIQUE INDEX idx ON public.t USING btree (a, lower(b), ((c + 1)))"
  = inr ["a"; "lower(b)"; "((c + 1))"].
Proof. vm_compute. reflexivity. Qed.

(** C5: a term that begins with a double parenthesis is to be kept as one
    term and the column list split into its terms.  On an index over two
    such expressions the parser returns one term that runs from the start
    of the first expression to the end of the second, comma included,
    where two terms are due. *)
Theorem getIndexColumnExpressions_two_expressions :
  getIndexColumnExpressions
    "CREATE INDEX idx ON public.t USING btree (((a + b)), ((c + d)))"
  = inr ["((a + b)), ((c + d))"].
Proof. vm_compute. reflexivity. Qed.

End PgParseFacts.

(* ===================================================================== *)
(** ** Facts about the sync *)
(* ===================================================================== *)

Module PgFacts.
Import GoStrings PgParse Pg PgSpec.

Lemma declaredDenylist_dom : dom excludedDatabaseList = declaredDenylist.
Proof.
  unfold excludedDatabaseList, declaredDenylist.
  rewrite !dom_insert_L, dom_empty_L. set_solver.
Qed.

Lemma excludeSystemDatabases_dom (sys excl : gmap string bool) :
  dom (excludeSystemDatabases sys excl) = dom excl ∪ dom sys.
Proof.
  unfold excludeSystemDatabases.
  apply (map_fold_weak_ind
           (fun (r : gmap string bool) (m : gmap string bool) => dom r = dom excl ∪ dom m)).
  - rewrite dom_empty_L. set_solver.
  - intros k x m r _ IH. rewrite !dom_insert_L, IH. set_solver.
Qed.

Lemma listDatabases_filter (excl : gmap string bool) (databases : list pgDatabaseSchema) :
  forall acc,
    listDatabases excl databases acc
    = acc ++ map databaseMeta (filter (fun d => name d ∉ dom excl) databases).
Proof.
  induction databases as [|d l IH]; intros acc; cbn [listDatabases].
  - rewrite filter_nil. simpl. now rewrite app_nil_r.
  - rewrite filter_cons. destruct (excl !! name d) as [b|] eqn:E.
    + rewrite decide_False; [apply IH|].
      intros Hn. apply Hn. apply elem_of_dom. eauto.
    + rewrite decide_True; [|now apply not_elem_of_dom].
      rewrite IH. cbn [map]. now rewrite <- app_assoc.
Qed.

Lemma initialState_denylistState sys : denylistState sys initialState.
Proof.
  unfold denylistState, initialState, denylist. cbn [excluded].
  rewrite declaredDenylist_dom. set_solver.
Qed.

(** An instance sync leaves the package in a denylist state. *)
Lemma SyncInstance_denylistState sys driver st :
  denylistState sys st -> denylistState sys (snd (SyncInstance sys driver st)).
Proof.
  intros [H1 H2]. unfold SyncInstance, getUserList, bind, ret, modify, get, emit.
  unfold denylistState.
  destruct (getVersion driver); cbn; [split; assumption|].
  destruct (query_pg_user driver) as [e|rows]; cbn; [split; assumption|].
  destruct (failure rows); cbn; [split; assumption|].
  assert (Hd : dom (excludeSystemDatabases sys (excluded st)) = denylist sys).
  { rewrite excludeSystemDatabases_dom. unfold denylist in *. set_solver. }
  destruct (getDatabases driver); cbn; rewrite Hd; unfold denylist; set_solver.
Qed.

(** C6: an instance sync whose queries succeed returns, in the order of
    the enumeration, exactly the databases whose name is not on the
    denylist (the declared names and the system databases), compared as
    strings, each with its name, character set and collation. *)
Theorem SyncInstance_database_list
        (sys : gmap string bool) (driver : Driver) (st : State)
        (version : string) (users : list (string * string))
        (databases : list pgDatabaseSchema) :
  denylistState sys st ->
  getVersion driver = inr version ->
  query_pg_user driver = inr {| scanned := users; failure := None |} ->
  getDatabases driver = inr databases ->
  exists meta,
    fst (SyncInstance sys driver st) = inr meta
    /\ db.DatabaseList meta
       = map databaseMeta (filter (fun d => name d ∉ denylist sys) databases).
Proof.
  intros [H1 H2] Hv Hu Hd.
  unfold SyncInstance, getUserList, bind, ret, modify, get, emit.
  rewrite Hv, Hu, Hd. cbn.
  eexists. split; [reflexivity|]. cbn.
  rewrite listDatabases_filter. cbn [app].
  rewrite excludeSystemDatabases_dom.
  assert (Hdom : dom (excluded st) ∪ dom sys = denylist sys).
  { unfold denylist in *. set_solver. }
  now rewrite Hdom.
Qed.

Lemma SyncInstance_database_list_witness :
  exists meta,
    fst (SyncInstance Demo.systemDatabases (Demo.driver Demo.nullView) initialState)
    = inr meta
    /\ db.DatabaseList meta
       = map databaseMeta
             (filter (fun d => name d ∉ denylist Demo.systemDatabases) Demo.databases).
Proof.
  apply (SyncInstance_database_list Demo.systemDatabases (Demo.driver Demo.nullView)
           initialState "14.2" [("bb", "superuser")] Demo.databases).
  - apply initialState_denylistState.
  - reflexivity.
  - reflexivity.
  - reflexivity.
Defined.


(** *** The database sync *)

Lemma forEach_fails {A B} (f : A -> result B) (l : list A) (a : A) :
  In a l -> isErr (f a) = true -> isErr (forEach f l) = true.
Proof.
  induction l as [|x l IH]; intros Hin Hf; [contradiction|].
  cbn [forEach]. destruct (f x) as [e|b] eqn:E; [reflexivity|].
  destruct Hin as [->|Hin]; [rewrite E in Hf; discriminate|].
  specialize (IH Hin Hf). destruct (forEach f l); [reflexivity|discriminate].
Qed.

Lemma scanViews_null rows schemaName viewName :
  In (schemaName, viewName, None) rows ->
  forall views, isErr (scanViews rows views) = true.
Proof.
  induction rows as [|[[s n] def] rows IH]; intros Hin views; [contradiction|].
  cbn [scanViews]. destruct def as [d|]; [|reflexivity].
  destruct Hin as [Heq|Hin]; [discriminate|]. now apply IH.
Qed.

(** A NULL view definition fails [getViews]. *)
Lemma getViews_null (txn : Tx) : hasNullView txn -> isErr (getViews txn) = true.
Proof.
  intros (rows & s & n & Hq & Hin). unfold getViews, rbind. rewrite Hq.
  pose proof (scanViews_null _ _ _ Hin []) as H.
  destruct (scanViews (scanned rows) []); [reflexivity|discriminate].
Qed.

Lemma getTable_names (txn : Tx) (tbl tbl' : tableSchema) :
  getTable txn tbl = inr tbl' ->
  tableSchemaName tbl' = tableSchemaName tbl /\ tableName tbl' = tableName tbl.
Proof.
  unfold getTable, rbind. intros H.
  destruct (query_count txn _ _) as [e|rows]; [discriminate|].
  destruct (failure rows); [discriminate|].
  destruct (getComment txn _ _ _); [discriminate|].
  injection H as <-. split; reflexivity.
Qed.

Lemma getPgTables_constraints_fail (txn : Tx) :
  isErr (getTableConstraints txn) = true -> isErr (getPgTables txn) = true.
Proof.
  unfold getPgTables. destruct (getTableConstraints txn); [reflexivity|discriminate].
Qed.

Lemma getPgTables_columns_fail (txn : Tx) rows r :
  query_pg_tables txn = inr rows -> In r (scanned rows) ->
  isErr (getTableColumns txn (row_schemaname r) (row_tablename r)) = true ->
  isErr (getPgTables txn) = true.
Proof.
  intros Hq Hin Hc. unfold getPgTables, rbind.
  destruct (getTableConstraints txn) as [e|constraints]; [reflexivity|].
  rewrite Hq. destruct (failure rows); [reflexivity|].
  match goal with |- isErr (forEach ?f (map ?g _)) = true =>
    apply (forEach_fails f _ (g r)); [exact (in_map g _ _ Hin)|] end.
  cbv beta.
  destruct (getTable txn _) as [e|tbl'] eqn:Et; [reflexivity|].
  apply getTable_names in Et. cbn in Et. destruct Et as [-> ->].
  destruct (getTableColumns txn _ _); [reflexivity|discriminate].
Qed.

(** The reads inside the transaction fail as soon as one of them does. *)
Lemma readSchema_fails now (txn : Tx) databaseName database :
  hasNullView txn \/ subQueryFails txn ->
  Commit txn <> None \/ isErr (readSchema now txn databaseName database) = true.
Proof.
  intros H.
  assert (Hcases : isErr (getIndices txn) = true \/ isErr (getPgTables txn) = true
                   \/ isErr (getViews txn) = true \/ isErr (getExtensions txn) = true
                   \/ Commit txn <> None).
  { destruct H as [H|H]; [auto using getViews_null|].
    destruct H as [H|[H|[H|[H|[H|[H|H]]]]]]; auto using getPgTables_constraints_fail.
    destruct H as (rows & r & Hq & Hin & Hc). eauto using getPgTables_columns_fail. }
  unfold readSchema.
  destruct (getIndices txn); [now right|].
  destruct (getPgTables txn); [now right|].
  destruct (getViews txn); [now right|].
  destruct (getExtensions txn); [now right|].
  destruct Hcases as [H1|[H1|[H1|[H1|H1]]]]; try discriminate. now left.
Qed.

(** A snapshot is read from the four answers of the transaction. *)
Lemma readSchema_inr now (txn : Tx) databaseName database schema :
  readSchema now txn databaseName database = inr schema ->
  exists indices tables views extensions,
    schema
    = {| db.SchemaName := databaseName;
         db.CharacterSet := encoding database;
         db.Collation := collate database;
         db.TableList :=
           map (toTable
                  (fold_left
                     (fun m idx =>
                        appendAt (indexSchemaName idx +:+ "." +:+ indexTableName idx) idx m)
                     indices ∅))
               tables;
         db.ViewList := toViews now 0 views;
         db.ExtensionList := extensions |}.
Proof.
  unfold readSchema. intros H.
  destruct (getIndices txn) as [e|indices]; [discriminate|].
  destruct (getPgTables txn) as [e|tables]; [discriminate|].
  destruct (getViews txn) as [e|views]; [discriminate|].
  destruct (getExtensions txn) as [e|extensions]; [discriminate|].
  injection H as <-. now exists indices, tables, views, extensions.
Qed.

(** What a returned snapshot tells about the run. *)
Lemma SyncDBSchema_inr driver databaseName st schema :
  fst (SyncDBSchema driver databaseName st) = inr schema ->
  exists databases database sqldb txn,
    getDatabases driver = inr databases
    /\ findDatabase databases databaseName = Some database
    /\ GetDBConnection driver databaseName = inr sqldb
    /\ BeginTx sqldb = inr txn
    /\ readSchema (nowUnix driver) txn databaseName database = inr schema
    /\ Commit txn = None.
Proof.
  unfold SyncDBSchema, defer, bind, ret, emit, modify. cbn.
  destruct (getDatabases driver) as [e|databases]; cbn; [discriminate|].
  destruct (findDatabase databases databaseName) as [database|] eqn:Ef; cbn; [|discriminate].
  destruct (GetDBConnection driver databaseName) as [e|sqldb]; cbn; [discriminate|].
  destruct (BeginTx sqldb) as [e|txn] eqn:Eb; cbn; [discriminate|].
  destruct (readSchema _ txn _ _) as [e|s] eqn:Er; cbn; [discriminate|].
  destruct (Commit txn) eqn:Ec; cbn; [discriminate|].
  intros [= <-]. exists databases, database, sqldb, txn. repeat split; assumption.
Qed.

(** C4 (as amended): when a view of the database has a NULL definition, or
    a sub-query of the pass fails, [SyncDBSchema] returns an error and no
    snapshot: a snapshot is only returned once every sub-query and the
    commit succeeded. *)
Theorem SyncDBSchema_null_view_or_failure
        (driver : Driver) (databaseName : string) (st : State) (sqldb : DB) (txn : Tx) :
  GetDBConnection driver databaseName = inr sqldb ->
  BeginTx sqldb = inr txn ->
  hasNullView txn \/ subQueryFails txn ->
  exists err, fst (SyncDBSchema driver databaseName st) = inl err.
Proof.
  intros Hc Hb Hf.
  destruct (fst (SyncDBSchema driver databaseName st)) as [e|schema] eqn:E; [eauto|].
  exfalso. apply SyncDBSchema_inr in E.
  destruct E as (databases & database & sqldb' & txn' & _ & _ & Hc' & Hb' & Hr & Hcommit).
  rewrite Hc in Hc'. injection Hc' as <-. rewrite Hb in Hb'. injection Hb' as <-.
  destruct (readSchema_fails (nowUnix driver) txn databaseName database Hf) as [H|H].
  - contradiction.
  - rewrite Hr in H. discriminate.
Qed.

Lemma findDatabase_Some databases databaseName database :
  findDatabase databases databaseName = Some database ->
  In database databases /\ name database = databaseName.
Proof.
  induction databases as [|d l IH]; cbn [findDatabase]; [discriminate|].
  destruct (String.eqb (name d) databaseName) eqn:E.
  - intros [= <-]. apply String.eqb_eq in E. split; [now left|assumption].
  - intros H. destruct (IH H). split; [now right|assumption].
Qed.

Lemma findDatabase_None databases databaseName :
  ~ In databaseName (map name databases) -> findDatabase databases databaseName = None.
Proof.
  induction databases as [|d l IH]; cbn [findDatabase map]; [reflexivity|].
  intros Hn. destruct (String.eqb (name d) databaseName) eqn:E.
  - apply String.eqb_eq in E. exfalso. apply Hn. now left.
  - apply IH. intros H. apply Hn. now right.
Qed.

(** A database sync does not touch the denylist. *)
Lemma SyncDBSchema_excluded driver databaseName st :
  excluded (snd (SyncDBSchema driver databaseName st)) = excluded st.
Proof.
  unfold SyncDBSchema, defer, bind, ret, emit, modify. cbn.
  destruct (getDatabases driver) as [e|databases]; cbn; [reflexivity|].
  destruct (findDatabase databases databaseName) as [database|]; cbn; [|reflexivity].
  destruct (GetDBConnection driver databaseName) as [e|sqldb]; cbn; [reflexivity|].
  destruct (BeginTx sqldb) as [e|txn]; cbn; [reflexivity|].
  destruct (readSchema _ txn _ _) as [e|s]; cbn; [reflexivity|].
  destruct (Commit txn); reflexivity.
Qed.

(** The lookup stops at the first entry with the name. *)
Lemma findDatabase_first databases databaseName :
  In databaseName (map name databases) ->
  exists before database after,
    databases = before ++ database :: after
    /\ ~ In databaseName (map name before)
    /\ name database = databaseName
    /\ findDatabase databases databaseName = Some database.
Proof.
  induction databases as [|d l IH]; cbn [map findDatabase]; [contradiction|].
  intros Hin. destruct (String.eqb (name d) databaseName) eqn:E.
  - apply String.eqb_eq in E. exists [], d, l. repeat split; [|assumption]. intros [].
  - apply String.eqb_neq in E. destruct Hin as [Hin|Hin]; [contradiction|].
    destruct (IH Hin) as (before & database & after & -> & Hnot & Hname & Hfind).
    exists (d :: before), database, after. repeat split; try assumption.
    cbn [map]. intros [H|H]; [contradiction|now apply Hnot].
Qed.

(** C10: when the database is not among the enumerated ones,
    [SyncDBSchema] returns the not-found error having only enumerated the
    databases, with no connection opened.  When it is among them, the
    lookup takes the first entry with that name, the sync goes on to open
    the connection to the database, and the snapshot it returns once the
    reads and the commit succeed has the character set and the collation
    of that entry; no snapshot is returned otherwise. *)
Theorem SyncDBSchema_database_lookup
        (driver : Driver) (databaseName : string) (st : State)
        (databases : list pgDatabaseSchema) :
  getDatabases driver = inr databases ->
  (~ In databaseName (map name databases) ->
   SyncDBSchema driver databaseName st
   = (inl (CodedErrorf NotFound "database %q not found" [ArgStr databaseName]),
      {| excluded := excluded st; events := events st ++ [EvGetDatabases] |}))
  /\ (In databaseName (map name databases) ->
      exists before database after,
        databases = before ++ database :: after
        /\ ~ In databaseName (map name before)
        /\ name database = databaseName
        /\ findDatabase databases databaseName = Some database
        /\ (exists more,
               events (snd (SyncDBSchema driver databaseName st))
               = events st ++ [EvGetDatabases; EvGetDBConnection databaseName] ++ more)
        /\ (forall sqldb txn schema,
               GetDBConnection driver databaseName = inr sqldb ->
               BeginTx sqldb = inr txn ->
               readSchema (nowUnix driver) txn databaseName database = inr schema ->
               Commit txn = None ->
               fst (SyncDBSchema driver databaseName st) = inr schema
               /\ db.CharacterSet schema = encoding database
               /\ db.Collation schema = collate database))
  /\ (forall schema,
         fst (SyncDBSchema driver databaseName st) = inr schema ->
         exists database,
           findDatabase databases databaseName = Some database
           /\ In database databases
           /\ name database = databaseName
           /\ db.CharacterSet schema = encoding database
           /\ db.Collation schema = collate database).
Proof.
  intros Hd. split; [|split].
  - intros Hn. unfold SyncDBSchema, bind, ret, emit, modify. cbn.
    rewrite Hd. cbn. now rewrite (findDatabase_None _ _ Hn).
  - intros Hin.
    destruct (findDatabase_first _ _ Hin)
      as (before & database & after & Heq & Hnot & Hname & Hfind).
    exists before, database, after.
    split; [exact Heq|]. split; [exact Hnot|]. split; [exact Hname|].
    split; [exact Hfind|]. split.
    + unfold SyncDBSchema, defer, bind, ret, emit, modify. cbn.
      rewrite Hd. cbn. rewrite Hfind. cbn.
      destruct (GetDBConnection driver databaseName) as [e|sqldb]; cbn.
      { exists []. now rewrite <- app_assoc. }
      destruct (BeginTx sqldb) as [e|txn]; cbn.
      { exists [EvBeginTx]. now rewrite <- !app_assoc. }
      destruct (readSchema _ txn _ _) as [e|schema]; cbn.
      { exists [EvBeginTx; EvRollback]. now rewrite <- !app_assoc. }
      destruct (Commit txn); cbn;
        exists [EvBeginTx; EvCommit; EvRollback]; now rewrite <- !app_assoc.
    + intros sqldb txn schema Hc Hb Hr Hcommit.
      split.
      * unfold SyncDBSchema, defer, bind, ret, emit, modify. cbn.
        rewrite Hd. cbn. rewrite Hfind. cbn. rewrite Hc. cbn. rewrite Hb. cbn.
        rewrite Hr. cbn. now rewrite Hcommit.
      * apply readSchema_inr in Hr.
        destruct Hr as (indices & tables & views & extensions & ->). split; reflexivity.
  - intros schema H. apply SyncDBSchema_inr in H.
    destruct H as (databases' & database & sqldb & txn & Hd' & Hf & _ & _ & Hr & _).
    rewrite Hd in Hd'. injection Hd' as <-.
    exists database. destruct (findDatabase_Some _ _ _ Hf) as [Hin Hname].
    apply readSchema_inr in Hr. destruct Hr as (indices & tables & views & extensions & ->).
    repeat split; try assumption; reflexivity.
Qed.


(** The names are compared as they are written: of these databases the
    sync lists [shop] and [Bytebase], not [bytebase] or [template1]. *)
Example SyncInstance_case_sensitive :
  fst (SyncInstance Demo.systemDatabases (Demo.driver Demo.nullView) initialState)
  = inr {| db.Version := "14.2";
           db.UserList := [{| db.UserName := "bb"; db.Grant := "superuser" |}];
           db.DatabaseList :=
             [{| db.MetaName := "shop";
                 db.MetaCharacterSet := "UTF8";
                 db.MetaCollation := "en_US.UTF-8" |};
              {| db.MetaName := "Bytebase";
                 db.MetaCharacterSet := "LATIN1";
                 db.MetaCollation := "C" |}] |}.
Proof. vm_compute. reflexivity. Qed.

Lemma SyncDBSchema_null_view_or_failure_witness :
  exists err, fst (SyncDBSchema (Demo.driver Demo.nullView) "shop" initialState) = inl err.
Proof.
  apply (SyncDBSchema_null_view_or_failure (Demo.driver Demo.nullView) "shop" initialState
           (Demo.connection Demo.nullView) (Demo.viewsOnly Demo.nullView)).
  - reflexivity.
  - reflexivity.
  - left. exists {| scanned := Demo.nullView; failure := None |}, "public", "orders_v".
    split; [reflexivity|]. simpl. now left.
Defined.

(** A view whose definition is the empty string, not NULL: the sync
    succeeds and the snapshot holds the view with its empty definition. *)
Lemma SyncDBSchema_empty_view_definition :
  query_pg_views (Demo.viewsOnly Demo.emptyView)
  = inr {| scanned := [("public", "orders_v", Some "")]; failure := None |}
  /\ fst (SyncDBSchema (Demo.driver Demo.emptyView) "shop" initialState)
     = inr {| db.SchemaName := "shop";
              db.CharacterSet := "UTF8";
              db.Collation := "en_US.UTF-8";
              db.TableList := [];
              db.ViewList :=
                [{| db.ViewName := "public.orders_v";
                    db.ViewCreatedTs := 1667347200;
                    db.ViewDefinition := "";
                    db.ViewComment := "" |}];
              db.ExtensionList := [] |}.
Proof. split; vm_compute; reflexivity. Qed.

Lemma SyncDBSchema_database_lookup_witness :
  SyncDBSchema (Demo.driver Demo.nullView) "warehouse" initialState
  = (inl (CodedErrorf NotFound "database %q not found" [ArgStr "warehouse"]),
     {| excluded := excluded initialState;
        events := events initialState ++ [EvGetDatabases] |})
  /\ exists schema,
       fst (SyncDBSchema (Demo.driver Demo.emptyView) "shop" initialState) = inr schema
       /\ db.CharacterSet schema = "UTF8"
       /\ db.Collation schema = "en_US.UTF-8".
Proof.
  split.
  - apply (proj1 (SyncDBSchema_database_lookup (Demo.driver Demo.nullView) "warehouse"
                    initialState Demo.databases eq_refl)).
    simpl. intros [H|[H|[H|[H|[]]]]]; discriminate H.
  - destruct (proj1 (proj2 (SyncDBSchema_database_lookup (Demo.driver Demo.emptyView) "shop"
                              initialState Demo.databases eq_refl))
                (or_introl eq_refl))
      as (before & database & after & _ & _ & _ & Hfind & _ & Hrun).
    injection Hfind as <-.
    eexists.
    apply (Hrun (Demo.connection Demo.emptyView) (Demo.viewsOnly Demo.emptyView));
      reflexivity.
Defined.

End PgFacts.

(* ===================================================================== *)
(** ** Facts about the executor *)
(* ===================================================================== *)

Module ServerFacts.
Import GoStrings Server ServerSpec ExecutorSpec.
#[local] Open Scope go_scope.

(** *** Generic facts about the monad *)

Lemma defer_run {S A} (d : M S unit) (body : M S A) (s : S) :
  defer d body s = (fst (body s), snd (d (snd (body s)))).
Proof.
  unfold defer, bind, ret. destruct (body s) as [r s1]. cbn.
  now destruct (d s1) as [[] s2].
Qed.

Lemma bind_run {S A B} (m : M S A) (k : A -> M S B) (s : S) :
  bind m k s = k (fst (m s)) (snd (m s)).
Proof. unfold bind. now destruct (m s). Qed.

(** *** The completion flag *)

(** C3: [IsCompleted] is false on an executor fresh from its constructor,
    and true after every call of [RunOnce], whatever path the call took
    and whatever it returned. *)
Theorem IsCompleted_RunOnce (pkg : Imports) (server : Server) (task : api.Task) (w : World) :
  IsCompleted NewDatabaseCreateTaskExecutor = false
  /\ IsCompleted (executor (snd (RunOnce pkg server task w))) = true.
Proof.
  split; [reflexivity|].
  unfold RunOnce. rewrite defer_run. reflexivity.
Qed.

(** C2: on a payload whose statement is empty once trimmed, [RunOnce]
    returns terminated with an error and no result, and leaves the world
    as it was but for the completion flag: no driver call, no migration,
    no row created or patched, no task patched. *)
Theorem RunOnce_empty_statement
        (pkg : Imports) (server : Server) (task : api.Task) (w : World)
        (payload : api.TaskDatabaseCreatePayload) :
  Unmarshal pkg (api.Payload task) = inr payload ->
  TrimSpace (api.Statement payload) = "" ->
  RunOnce pkg server task w
  = (Returns (true, None, Some (Errorf "empty create database statement" [])),
     withExecutor {| completed := 1 |} w).
Proof.
  intros Hp Hs. unfold RunOnce. rewrite defer_run, Hp, Hs. reflexivity.
Qed.

(** *** Every return terminates the task *)

Lemma terminates_ret r e : terminates (ret (true, r, e)).
Proof. intros w. reflexivity. Qed.

Lemma terminates_bind {A} (m : M World A) (k : A -> M World Outcome) :
  (forall a, terminates (k a)) -> terminates (bind m k).
Proof. intros H w. rewrite bind_run. apply H. Qed.

Lemma terminates_defer (d : M World unit) (body : M World Outcome) :
  terminates body -> terminates (defer d body).
Proof. intros H w. rewrite defer_run. apply H. Qed.

Lemma executeAndRecord_terminates pkg server task payload instance driver statement mi :
  terminates (executeAndRecord pkg server task payload instance driver statement mi).
Proof.
  unfold executeAndRecord. apply terminates_bind; intros _.
  destruct (ExecuteMigration driver mi statement) as [e|[migrationID echoed]];
    [apply terminates_ret|].
  apply terminates_bind; intros [e|database]; [apply terminates_ret|].
  apply terminates_bind; intros [e|?]; [apply terminates_ret|].
  destruct (negb _); [|apply terminates_ret].
  destruct (GetProjectByID server _) as [e|[project|]]; try apply terminates_ret.
  apply terminates_bind; intros _.
  destruct (setDatabaseLabels _ _ _ _ _ _); apply terminates_ret.
Qed.

(** *** The recorded calls only grow *)

Lemma extends_ret {A} (a : A) : extends (ret a).
Proof. intros w. exists []. cbn. now rewrite app_nil_r. Qed.

Lemma extends_bind {A B} (m : M World A) (k : A -> M World B) :
  extends m -> (forall a, extends (k a)) -> extends (bind m k).
Proof.
  intros Hm Hk w. rewrite bind_run.
  destruct (Hm w) as [m1 H1]. destruct (Hk (fst (m w)) (snd (m w))) as [m2 H2].
  exists (m1 ++ m2). rewrite H2, H1. now rewrite app_assoc.
Qed.

Lemma extends_defer {A} (d : M World unit) (body : M World A) :
  extends d -> extends body -> extends (defer d body).
Proof.
  intros Hd Hb. unfold defer. apply extends_bind; [assumption|].
  intros r. apply extends_bind; [assumption|]. intros _. apply extends_ret.
Qed.

Lemma extends_effect e : extends (effect e).
Proof. intros w. exists [e]. reflexivity. Qed.

Lemma effects_discover pkg d w : effects (discover pkg d w) = effects w.
Proof. unfold discover. now destruct (existsb _ _). Qed.

Lemma effects_discoverAll pkg passes : forall w, effects (discoverAll pkg passes w) = effects w.
Proof.
  unfold discoverAll. induction passes as [|d l IH]; intros w; cbn; [reflexivity|].
  now rewrite IH, effects_discover.
Qed.

Lemma extends_concurrentSync pkg : extends (concurrentSync pkg).
Proof.
  intros w. exists []. rewrite app_nil_r. unfold concurrentSync, modify. cbn.
  destruct (syncSchedule w); [reflexivity|]. now rewrite effects_discoverAll.
Qed.

Lemma extends_quiet {A} (f : World -> World) (a : A) :
  (forall w, effects (f w) = effects w) -> extends (fun w => (a, f w)).
Proof. intros H w. exists []. cbn. now rewrite app_nil_r, H. Qed.

Lemma extends_get : extends (@get World).
Proof. intros w. exists []. cbn. now rewrite app_nil_r. Qed.

Lemma extends_GetDatabase pkg server find : extends (GetDatabase pkg server find).
Proof.
  unfold GetDatabase. apply extends_bind; [apply extends_concurrentSync|]. intros _.
  destruct (storeFailure server _); [apply extends_ret|].
  apply extends_bind; [apply extends_get|]. intros w. apply extends_ret.
Qed.

Lemma extends_CreateDatabase pkg server create : extends (CreateDatabase pkg server create).
Proof.
  unfold CreateDatabase. apply extends_bind; [apply extends_concurrentSync|]. intros _.
  destruct (storeFailure server _); [apply extends_ret|].
  apply extends_bind; [apply extends_get|]. intros w.
  destruct (List.find _ _); [destruct (createConflict server); [apply extends_ret|]|];
    (apply extends_bind; [|intros _; apply extends_ret]);
    now apply (extends_quiet _ tt).
Qed.

Lemma extends_PatchDatabase pkg server patch : extends (PatchDatabase pkg server patch).
Proof.
  unfold PatchDatabase. apply extends_bind; [apply extends_concurrentSync|]. intros _.
  destruct (storeFailure server _); [apply extends_ret|].
  apply extends_bind; [apply extends_get|]. intros w.
  destruct (List.find _ _); [|apply extends_ret].
  apply extends_bind; [|intros _; apply extends_ret].
  now apply (extends_quiet _ tt).
Qed.

Lemma extends_PatchTask pkg server patch : extends (PatchTask pkg server patch).
Proof.
  unfold PatchTask. apply extends_bind; [apply extends_concurrentSync|]. intros _.
  destruct (storeFailure server _); [apply extends_ret|].
  destruct (api.TaskPatchDatabaseID patch); [|apply extends_ret].
  apply extends_bind; [|intros _; apply extends_ret].
  now apply (extends_quiet _ tt).
Qed.

Lemma extends_resolveDatabase pkg server task payload instance :
  extends (resolveDatabase pkg server task payload instance).
Proof.
  unfold resolveDatabase. apply extends_bind; [apply extends_GetDatabase|].
  intros [e|[database|]];
    [apply extends_ret|apply extends_PatchDatabase|apply extends_CreateDatabase].
Qed.

Lemma effect_then {A} (e : Effect) (k : unit -> M World A) (w : World) :
  extends (k tt) ->
  exists more, effects (snd (bind (effect e) k w)) = effects w ++ e :: more.
Proof.
  intros Hk. rewrite bind_run. cbn [effect modify fst snd].
  destruct (Hk (withEffects (effects w ++ [e]) w)) as [more Hm].
  exists more. rewrite Hm. cbn. now rewrite <- app_assoc.
Qed.

(** [executeAndRecord] records the migration, then only adds calls. *)
Lemma executeAndRecord_effects pkg server task payload instance driver statement mi w :
  exists more,
    effects (snd (executeAndRecord pkg server task payload instance driver statement mi w))
    = effects w ++ Migration mi statement :: more.
Proof.
  unfold executeAndRecord. apply effect_then. cbv beta.
  destruct (ExecuteMigration driver mi statement) as [e|[migrationID echoed]];
    [apply extends_ret|].
  apply extends_bind; [apply extends_resolveDatabase|].
  intros [e|database]; [apply extends_ret|].
  apply extends_bind; [apply extends_PatchTask|].
  intros [e|?]; [apply extends_ret|].
  destruct (negb _); [|apply extends_ret].
  destruct (GetProjectByID server _) as [e|[project|]]; try apply extends_ret.
  apply extends_bind; [apply extends_effect|]. intros _.
  destruct (setDatabaseLabels _ _ _ _ _ _); apply extends_ret.
Qed.

(** *** The run, path by path *)

Lemma composeMigrationInfo_run server task payload instance w :
  composeMigrationInfo server task payload instance w
  = match creatorOf (GetPrincipalByID server (api.CreatorID task)) with
    | None => (Panics nilDereference, w)
    | Some creator =>
        (Returns (migrationInfo server payload instance creator
                    (fst (GetIssueByPipelineID server (api.PipelineID task)))),
         logged (lineageLog (api.PipelineID task) creator
                   (GetIssueByPipelineID server (api.PipelineID task))) w)
    end.
Proof.
  unfold composeMigrationInfo, lineageLog, creatorOf.
  destruct (GetPrincipalByID server _) as [[principal|] [e|]];
    destruct (GetIssueByPipelineID server _) as [[issue|] [e'|]]; reflexivity.
Qed.

Lemma logged_app es1 es2 w : logged (es1 ++ es2) w = logged es2 (logged es1 w).
Proof. unfold logged. apply fold_left_app. Qed.

(** The run once the driver is there and the principal lookup has
    answered with a principal or an error. *)
Lemma RunOnce_with_driver
      (pkg : Imports) (server : Server) (task : api.Task) (w : World)
      (payload : api.TaskDatabaseCreatePayload) (driver : Driver)
      (creator : result api.Principal) :
  Unmarshal pkg (api.Payload task) = inr payload ->
  TrimSpace (api.Statement payload) <> "" ->
  getAdminDatabaseDriver server (api.TaskInstance task) "" = inr driver ->
  creatorOf (GetPrincipalByID server (api.CreatorID task)) = Some creator ->
  let run :=
    executeAndRecord pkg server task payload (api.TaskInstance task) driver
      (TrimSpace (api.Statement payload)) (migrationInfoOf server task payload creator)
      (logged (untilLookup task
               ++ lineageLog (api.PipelineID task) creator
                    (GetIssueByPipelineID server (api.PipelineID task))) w) in
  RunOnce pkg server task w
  = (Returns (fst run),
     withExecutor {| completed := 1 |}
       (withEffects (effects (snd run) ++ [CloseDriver]) (snd run))).
Proof.
  intros Hp Hs Hd Hc run. unfold RunOnce. rewrite !defer_run, Hp. cbv zeta.
  apply String.eqb_neq in Hs. rewrite Hs.
  rewrite bind_run. cbn [effect modify fst snd]. rewrite Hd.
  rewrite !defer_run, !bind_run. cbn [effect modify fst snd].
  rewrite composeMigrationInfo_run, Hc. cbn [fst snd].
  rewrite bind_run. cbn [ret fst snd atomicStoreCompleted effect modify].
  unfold run, migrationInfoOf, untilLookup. rewrite logged_app. reflexivity.
Qed.

(** The run when the principal lookup answers with neither a principal nor
    an error: the read of the creator's name panics, the driver is closed
    and the flag is set on the way out, and nothing else is done. *)
Lemma RunOnce_nil_principal
      (pkg : Imports) (server : Server) (task : api.Task) (w : World)
      (payload : api.TaskDatabaseCreatePayload) (driver : Driver) :
  Unmarshal pkg (api.Payload task) = inr payload ->
  TrimSpace (api.Statement payload) <> "" ->
  getAdminDatabaseDriver server (api.TaskInstance task) "" = inr driver ->
  creatorOf (GetPrincipalByID server (api.CreatorID task)) = None ->
  RunOnce pkg server task w
  = (Panics nilDereference,
     withExecutor {| completed := 1 |} (logged (untilLookup task ++ [CloseDriver]) w)).
Proof.
  intros Hp Hs Hd Hc. unfold RunOnce. rewrite !defer_run, Hp. cbv zeta.
  apply String.eqb_neq in Hs. rewrite Hs.
  rewrite bind_run. cbn [effect modify fst snd]. rewrite Hd.
  rewrite !defer_run, !bind_run. cbn [effect modify fst snd].
  rewrite composeMigrationInfo_run, Hc. reflexivity.
Qed.

Lemma creatorOf_None answer : creatorOf answer = None <-> answer = (None, None).
Proof.
  destruct answer as [[principal|] [e|]]; cbn; split; congruence.
Qed.

(** A run that returns, returns terminated. *)
Lemma RunOnce_returns_terminated pkg server task :
  returnsTerminated (RunOnce pkg server task).
Proof.
  intros w out. unfold RunOnce. rewrite defer_run. cbn [fst].
  destruct (Unmarshal pkg _) as [e|payload]; [now intros [= <-]|]. cbv zeta.
  destruct (String.eqb _ ""); [now intros [= <-]|].
  rewrite bind_run. cbn [effect modify fst snd].
  destruct (getAdminDatabaseDriver _ _ _) as [e|driver]; [now intros [= <-]|].
  rewrite defer_run. cbn [fst]. rewrite !bind_run. cbn [effect modify fst snd].
  rewrite composeMigrationInfo_run.
  destruct (creatorOf _) as [creator|]; cbn [fst snd]; [|discriminate].
  rewrite bind_run. cbn [ret fst]. intros [= <-].
  apply executeAndRecord_terminates.
Qed.

(** A run panics on one path only: the payload decodes, its statement is
    not empty, the driver is there, and the principal lookup answers with
    neither a principal nor an error. *)
Lemma RunOnce_panics pkg server task w msg :
  fst (RunOnce pkg server task w) = Panics msg
  <-> msg = nilDereference
      /\ GetPrincipalByID server (api.CreatorID task) = (None, None)
      /\ exists payload driver,
           Unmarshal pkg (api.Payload task) = inr payload
           /\ TrimSpace (api.Statement payload) <> ""
           /\ getAdminDatabaseDriver server (api.TaskInstance task) "" = inr driver.
Proof.
  split.
  - unfold RunOnce. rewrite defer_run. cbn [fst].
    destruct (Unmarshal pkg _) as [e|payload] eqn:Hp; [discriminate|]. cbv zeta.
    destruct (String.eqb _ "") eqn:Hs; [discriminate|].
    rewrite bind_run. cbn [effect modify fst snd].
    destruct (getAdminDatabaseDriver _ _ _) as [e|driver] eqn:Hd; [discriminate|].
    rewrite defer_run. cbn [fst]. rewrite !bind_run. cbn [effect modify fst snd].
    rewrite composeMigrationInfo_run.
    destruct (creatorOf _) as [creator|] eqn:Hc; cbn [fst snd].
    + rewrite bind_run. discriminate.
    + intros [= <-]. split; [reflexivity|]. split; [now apply creatorOf_None|].
      exists payload, driver. apply String.eqb_neq in Hs. repeat split; assumption.
  - intros (-> & Hc & payload & driver & Hp & Hs & Hd).
    apply creatorOf_None in Hc.
    now rewrite (RunOnce_nil_principal _ _ _ _ _ _ Hp Hs Hd Hc).
Qed.

(** *** The result of a successful run *)

Lemma executeAndRecord_success pkg server task payload instance driver statement mi w
      terminated res :
  fst (executeAndRecord pkg server task payload instance driver statement mi w)
  = (terminated, res, None) ->
  exists migrationID echoed,
    ExecuteMigration driver mi statement = inr (migrationID, echoed)
    /\ res = Some {| api.Detail :=
                       "Created database " +:+ Quote pkg (api.DatabaseName payload);
                     api.MigrationID := migrationID;
                     api.Version := db.MigrationVersion mi |}.
Proof.
  unfold executeAndRecord. rewrite bind_run.
  destruct (ExecuteMigration driver mi statement) as [e|[migrationID echoed]];
    [discriminate|].
  rewrite bind_run.
  destruct (fst (resolveDatabase _ _ _ _ _ _)) as [e|database]; [discriminate|].
  rewrite bind_run.
  destruct (fst (PatchTask _ _ _ _)) as [e|?]; [discriminate|].
  intros H. exists migrationID, echoed. split; [reflexivity|].
  destruct (negb _).
  - destruct (GetProjectByID server _) as [e|[project|]]; try discriminate.
    rewrite bind_run in H.
    destruct (setDatabaseLabels _ _ _ _ _ _); [discriminate|].
    now injection H as _ <-.
  - now injection H as _ <-.
Qed.

(** C8 (as amended): a run that returns no error returns a result with the
    migration id that [ExecuteMigration] returned and the schema version
    of the payload, which is the version of the migration info; the second
    value [ExecuteMigration] returns is not used. *)
Theorem RunOnce_result
        (pkg : Imports) (server : Server) (task : api.Task) (w : World)
        (terminated : bool) (res : option api.TaskRunResultPayload) :
  fst (RunOnce pkg server task w) = Returns (terminated, res, None) ->
  exists payload driver mi migrationID echoed,
    Unmarshal pkg (api.Payload task) = inr payload
    /\ getAdminDatabaseDriver server (api.TaskInstance task) "" = inr driver
    /\ ExecuteMigration driver mi (TrimSpace (api.Statement payload))
       = inr (migrationID, echoed)
    /\ db.MigrationVersion mi = api.SchemaVersion payload
    /\ res = Some {| api.Detail :=
                       "Created database " +:+ Quote pkg (api.DatabaseName payload);
                     api.MigrationID := migrationID;
                     api.Version := api.SchemaVersion payload |}.
Proof.
  unfold RunOnce. rewrite defer_run. cbn [fst].
  destruct (Unmarshal pkg _) as [e|payload] eqn:Hp; [discriminate|]. cbv zeta.
  destruct (String.eqb _ ""); [discriminate|].
  rewrite bind_run. cbn [effect modify fst snd].
  destruct (getAdminDatabaseDriver _ _ _) as [e|driver] eqn:Hd; [discriminate|].
  rewrite defer_run. cbn [fst]. rewrite !bind_run. cbn [effect modify fst snd].
  rewrite composeMigrationInfo_run.
  destruct (creatorOf _) as [creator|]; cbn [fst snd]; [|discriminate].
  rewrite bind_run. cbn [ret fst]. intros [= H]. apply executeAndRecord_success in H.
  destruct H as (migrationID & echoed & He & ->).
  eexists payload, driver, _, migrationID, echoed.
  repeat split; try eassumption; reflexivity.
Qed.


(** *** The database table under concurrent sync passes *)

Lemma isRowOf_keyOf instanceID databaseName d :
  isRowOf instanceID databaseName d = true <-> keyOf d = (instanceID, databaseName).
Proof.
  unfold isRowOf, keyOf. rewrite andb_true_iff, Z.eqb_eq, String.eqb_eq.
  split; [intros [-> ->]; reflexivity|intros [= -> ->]; split; reflexivity].
Qed.

Lemma find_head_filter {A} (p : A -> bool) (l : list A) :
  List.find p l = head (filter (fun x => p x = true) l).
Proof.
  induction l as [|x l IH]; cbn [List.find]; [reflexivity|].
  rewrite filter_cons. destruct (p x) eqn:E.
  - rewrite decide_True by reflexivity. reflexivity.
  - rewrite decide_False by discriminate. exact IH.
Qed.

Lemma existsb_filter {A} (p : A -> bool) (l : list A) :
  existsb p l = false <-> filter (fun x => p x = true) l = [].
Proof.
  induction l as [|x l IH]; cbn [existsb]; [now rewrite filter_nil|].
  rewrite filter_cons. destruct (p x) eqn:E.
  - rewrite decide_True by reflexivity. cbn. split; discriminate.
  - rewrite decide_False by discriminate. cbn. exact IH.
Qed.

(** One row at most for an instance and a name. *)
Lemma rows_unique instanceID databaseName (l : list api.Database) :
  NoDup (map keyOf l) ->
  filter (fun d => isRowOf instanceID databaseName d = true) l = []
  \/ exists x, filter (fun d => isRowOf instanceID databaseName d = true) l = [x].
Proof.
  induction l as [|d l IH]; intros Hnd; [left; apply filter_nil|].
  cbn [map] in Hnd. apply NoDup_cons in Hnd. destruct Hnd as [Hnotin Hnd].
  rewrite filter_cons. destruct (isRowOf instanceID databaseName d) eqn:E.
  - rewrite decide_True by reflexivity. right. exists d. f_equal.
    destruct (filter (fun d => isRowOf instanceID databaseName d = true) l) as [|y l'] eqn:Ef;
      [reflexivity|].
    exfalso. apply Hnotin.
    assert (Hy : y ∈ filter (fun d => isRowOf instanceID databaseName d = true) l)
      by (rewrite Ef; left).
    apply list_elem_of_filter in Hy. destruct Hy as [Hy Hin].
    apply isRowOf_keyOf in E, Hy. rewrite E, <- Hy.
    apply list_elem_of_fmap. exists y. split; [reflexivity|assumption].
  - rewrite decide_False by discriminate. auto.
Qed.

Lemma databases_discover pkg d w :
  databases (discover pkg d w)
  = databases w
    ++ (if existsb (isRowOf (FoundInstanceID d) (FoundName d)) (databases w) then []
        else [discoveredRow pkg d (nextDatabaseID w)]).
Proof.
  unfold discover. destruct (existsb _ _); [now rewrite app_nil_r|reflexivity].
Qed.

Lemma nextDatabaseID_discover pkg d w :
  nextDatabaseID w <= nextDatabaseID (discover pkg d w).
Proof. unfold discover. destruct (existsb _ _); cbn; lia. Qed.

Lemma syncSchedule_discoverAll pkg passes :
  forall w, syncSchedule (discoverAll pkg passes w) = syncSchedule w.
Proof.
  unfold discoverAll. induction passes as [|d l IH]; intros w; cbn; [reflexivity|].
  rewrite IH. unfold discover. now destruct (existsb _ _).
Qed.

Lemma discoverAll_withSyncSchedule pkg passes s :
  forall w, discoverAll pkg passes (withSyncSchedule s w)
            = withSyncSchedule s (discoverAll pkg passes w).
Proof.
  unfold discoverAll. induction passes as [|d l IH]; intros w; cbn; [reflexivity|].
  rewrite <- IH. f_equal. unfold discover. cbn.
  now destruct (existsb _ (databases w)).
Qed.

Lemma discover_constraints pkg d w :
  tableConstraints w -> tableConstraints (discover pkg d w).
Proof.
  intros (Hk & Hi & Hlt). unfold discover.
  destruct (existsb _ _) eqn:E; [repeat split; assumption|].
  unfold tableConstraints. cbn [databases nextDatabaseID withDatabases].
  rewrite !map_app. cbn [map]. repeat split.
  - apply NoDup_app. split; [assumption|]. split; [|apply NoDup_singleton].
    intros k Hin Hk'. apply list_elem_of_singleton in Hk'. subst k.
    apply list_elem_of_fmap in Hin. destruct Hin as (x & Hx & Hin).
    apply existsb_filter in E.
    assert (Hf : x ∈ filter (fun r => isRowOf (FoundInstanceID d) (FoundName d) r = true)
                       (databases w)).
    { apply list_elem_of_filter. split; [|assumption].
      apply isRowOf_keyOf. now rewrite <- Hx. }
    rewrite E in Hf. inversion Hf.
  - apply NoDup_app. split; [assumption|]. split; [|apply NoDup_singleton].
    intros i Hin Hi'. apply list_elem_of_singleton in Hi'. subst i.
    apply list_elem_of_fmap in Hin. destruct Hin as (x & Hx & Hin).
    rewrite Forall_forall in Hlt. specialize (Hlt x Hin). cbn in Hx. lia.
  - apply Forall_app. split.
    + eapply Forall_impl; [exact Hlt|]. cbn. intros; lia.
    + apply Forall_singleton. cbn. lia.
Qed.

Lemma discoverAll_constraints pkg passes :
  forall w, tableConstraints w -> tableConstraints (discoverAll pkg passes w).
Proof.
  unfold discoverAll. induction passes as [|d l IH]; intros w H; cbn; [assumption|].
  apply IH. now apply discover_constraints.
Qed.

(** A sync pass leaves the rows of a database that has one. *)
Lemma rowsOf_discover_keep pkg d instanceID databaseName w :
  rowsOf instanceID databaseName w <> [] ->
  rowsOf instanceID databaseName (discover pkg d w) = rowsOf instanceID databaseName w.
Proof.
  intros Hne. unfold rowsOf. rewrite databases_discover, filter_app.
  destruct (existsb _ _) eqn:E; [now rewrite filter_nil, app_nil_r|].
  rewrite filter_cons, filter_nil.
  destruct (isRowOf instanceID databaseName (discoveredRow pkg d (nextDatabaseID w))) eqn:Er.
  - exfalso. apply Hne. apply existsb_filter in E. unfold rowsOf.
    apply isRowOf_keyOf in Er. cbn in Er. injection Er as <- <-. exact E.
  - rewrite decide_False by discriminate. now rewrite app_nil_r.
Qed.

(** A sync pass that finds another database leaves the rows of this one. *)
Lemma rowsOf_discover_other pkg d instanceID databaseName w :
  ~ discovers instanceID databaseName d ->
  rowsOf instanceID databaseName (discover pkg d w) = rowsOf instanceID databaseName w.
Proof.
  intros Hne. unfold rowsOf. rewrite databases_discover, filter_app.
  destruct (existsb _ _) eqn:E; [now rewrite filter_nil, app_nil_r|].
  rewrite filter_cons, filter_nil.
  destruct (isRowOf instanceID databaseName (discoveredRow pkg d (nextDatabaseID w))) eqn:Er.
  - exfalso. apply Hne. apply isRowOf_keyOf in Er. cbn in Er.
    injection Er as <- <-. split; reflexivity.
  - rewrite decide_False by discriminate. now rewrite app_nil_r.
Qed.

Lemma rowsOf_discoverAll_keep pkg passes instanceID databaseName :
  forall w, rowsOf instanceID databaseName w <> [] ->
            rowsOf instanceID databaseName (discoverAll pkg passes w)
            = rowsOf instanceID databaseName w.
Proof.
  unfold discoverAll. induction passes as [|d l IH]; intros w Hne; cbn; [reflexivity|].
  rewrite IH; rewrite rowsOf_discover_keep; auto.
Qed.

Lemma rowsOf_discoverAll_other pkg passes instanceID databaseName :
  Forall (fun d => ~ discovers instanceID databaseName d) passes ->
  forall w, rowsOf instanceID databaseName (discoverAll pkg passes w)
            = rowsOf instanceID databaseName w.
Proof.
  unfold discoverAll. induction 1 as [|d l Hd Hl IH]; intros w; cbn; [reflexivity|].
  rewrite IH. now apply rowsOf_discover_other.
Qed.

(** What [concurrentSync] does. *)
Lemma concurrentSync_run pkg w :
  concurrentSync pkg w
  = (tt, discoverAll pkg (scheduled 0 w) (withSyncSchedule (tail (syncSchedule w)) w)).
Proof.
  unfold concurrentSync, modify, scheduled. destruct w as [e dbs n t fx sched].
  destruct sched as [|passes later]; reflexivity.
Qed.

(** *** The calls on the database table, when the store does not fail *)

Lemma GetDatabase_run pkg server find w :
  storeFailure server CallGetDatabase = None ->
  GetDatabase pkg server find w
  = (inr (List.find (matchesFind find) (databases (snd (concurrentSync pkg w)))),
     snd (concurrentSync pkg w)).
Proof.
  intros Hf. unfold GetDatabase. rewrite bind_run, Hf, bind_run. reflexivity.
Qed.

Lemma CreateDatabase_run pkg server create w :
  storeFailure server CallCreateDatabase = None ->
  let w1 := snd (concurrentSync pkg w) in
  let row :=
    {| api.ID := nextDatabaseID w1;
       api.DatabaseCreatorID := api.CreateCreatorID create;
       api.DatabaseProjectID := api.CreateProjectID create;
       api.DatabaseInstanceID := api.CreateInstanceID create;
       api.DatabaseEnvironmentID := api.CreateEnvironmentID create;
       api.Name := api.CreateName create;
       api.DatabaseCharacterSet := api.CreateCharacterSet create;
       api.DatabaseCollation := api.CreateCollation create;
       api.DatabaseLabels := default "" (api.CreateLabels create);
       api.DatabaseSchemaVersion := api.CreateSchemaVersion create |} in
  CreateDatabase pkg server create w
  = match List.find (isRowOf (api.CreateInstanceID create) (api.CreateName create))
                    (databases w1) with
    | Some old =>
        match createConflict server with
        | UniqueConstraint =>
            (inl (External "duplicate key value violates unique constraint"), w1)
        | Upsert =>
            (inr (patched (conflictPatch create old) old),
             withDatabases (patchRows (conflictPatch create old) (databases w1))
               (nextDatabaseID w1) w1)
        end
    | None => (inr row, withDatabases (databases w1 ++ [row]) (nextDatabaseID w1 + 1) w1)
    end.
Proof.
  intros Hf w1 row. unfold CreateDatabase. rewrite bind_run, Hf, bind_run.
  cbn [get fst snd]. fold w1.
  destruct (List.find _ _); [destruct (createConflict server)|]; reflexivity.
Qed.

Lemma PatchDatabase_run pkg server patch w :
  storeFailure server CallPatchDatabase = None ->
  let w1 := snd (concurrentSync pkg w) in
  PatchDatabase pkg server patch w
  = match List.find (fun d => api.ID d =? api.PatchID patch) (databases w1) with
    | None =>
        (inl (CodedErrorf NotFound "database ID not found: %d" [ArgInt (api.PatchID patch)]),
         w1)
    | Some d =>
        (inr (patched patch d),
         withDatabases (patchRows patch (databases w1)) (nextDatabaseID w1) w1)
    end.
Proof.
  intros Hf w1. unfold PatchDatabase. rewrite bind_run, Hf, bind_run.
  cbn [get fst snd]. fold w1. destruct (List.find _ _); reflexivity.
Qed.

(** The row with a given id, in a table whose ids are distinct. *)
Lemma find_by_id (l : list api.Database) (d : api.Database) :
  NoDup (map api.ID l) -> In d l ->
  List.find (fun x => api.ID x =? api.ID d) l = Some d.
Proof.
  induction l as [|x l IH]; intros Hnd Hin; [contradiction|].
  cbn [map] in Hnd. apply NoDup_cons in Hnd. destruct Hnd as [Hnotin Hnd].
  cbn [List.find]. destruct Hin as [->|Hin]; [now rewrite Z.eqb_refl|].
  destruct (api.ID x =? api.ID d) eqn:E; [|auto].
  exfalso. apply Z.eqb_eq in E. apply Hnotin. rewrite E.
  apply list_elem_of_fmap. exists d. split; [reflexivity|].
  now apply list_elem_of_In.
Qed.

(** Patching the project of the row with the id of [old] replaces [old],
    and no other row, among the rows of a database. *)
Lemma rows_patched instanceID databaseName (patch : api.DatabasePatch)
      (l : list api.Database) (old : api.Database) :
  NoDup (map api.ID l) ->
  api.PatchID patch = api.ID old ->
  filter (fun d => isRowOf instanceID databaseName d = true) l = [old] ->
  filter (fun d => isRowOf instanceID databaseName d = true) (patchRows patch l)
  = [patched patch old].
Proof.
  intros Hnd Hid Hf. unfold patchRows.
  set (f := fun d => if api.ID d =? api.PatchID patch then patched patch d else d).
  assert (Hkey : forall d, isRowOf instanceID databaseName (f d)
                           = isRowOf instanceID databaseName d).
  { intros d. unfold f. now destruct (api.ID d =? api.PatchID patch). }
  assert (Hmap : forall l', filter (fun d => isRowOf instanceID databaseName d = true)
                                   (map f l')
                            = map f (filter (fun d => isRowOf instanceID databaseName d = true)
                                            l')).
  { induction l' as [|x l' IH]; [reflexivity|].
    cbn [map]. rewrite !filter_cons, Hkey.
    destruct (isRowOf instanceID databaseName x).
    - rewrite !decide_True by reflexivity. cbn [map]. now rewrite IH.
    - rewrite !decide_False by discriminate. exact IH. }
  rewrite Hmap, Hf. cbn [map]. unfold f. now rewrite Hid, Z.eqb_refl.
Qed.

Lemma rowsOf_head_singleton instanceID databaseName w x :
  tableConstraints w ->
  head (rowsOf instanceID databaseName w) = Some x ->
  rowsOf instanceID databaseName w = [x].
Proof.
  intros (Hk & _ & _) Hh.
  destruct (rows_unique instanceID databaseName (databases w) Hk) as [He|[y Hy]];
    unfold rowsOf in *.
  - rewrite He in Hh. discriminate.
  - rewrite Hy in Hh |- *. cbn in Hh. congruence.
Qed.

Lemma concurrentSync_constraints pkg w :
  tableConstraints w -> tableConstraints (snd (concurrentSync pkg w)).
Proof.
  intros H. rewrite concurrentSync_run. cbn [snd].
  apply discoverAll_constraints. exact H.
Qed.

Lemma rowsOf_concurrentSync pkg instanceID databaseName w :
  rowsOf instanceID databaseName (snd (concurrentSync pkg w))
  = rowsOf instanceID databaseName (discoverAll pkg (scheduled 0 w) w).
Proof.
  rewrite concurrentSync_run. cbn [snd]. now rewrite discoverAll_withSyncSchedule.
Qed.

Lemma scheduled_concurrentSync pkg w :
  scheduled 0 (snd (concurrentSync pkg w)) = scheduled 1 w.
Proof.
  rewrite concurrentSync_run. cbn [snd]. unfold scheduled.
  rewrite syncSchedule_discoverAll. cbn. now destruct (syncSchedule w).
Qed.

(** *** The theorems on sample runs *)

Lemma RunOnce_empty_statement_witness :
  RunOnce Demo.pkg Demo.server (Demo.task "   ") (Demo.world [[Demo.shopFound]])
  = (Returns (true, None, Some (Errorf "empty create database statement" [])),
     withExecutor {| completed := 1 |} (Demo.world [[Demo.shopFound]])).
Proof.
  apply (RunOnce_empty_statement Demo.pkg Demo.server (Demo.task "   ")
           (Demo.world [[Demo.shopFound]])
           {| api.DatabaseName := "shop";
              api.ProjectID := 42;
              api.SchemaVersion := "v1";
              api.CharacterSet := "UTF8";
              api.Collation := "en_US.UTF-8";
              api.Labels := "";
              api.Statement := "   " |}).
  - reflexivity.
  - reflexivity.
Defined.

Lemma RunOnce_result_witness :
  exists payload driver mi migrationID echoed,
    Unmarshal Demo.pkg (api.Payload (Demo.task Demo.createShop)) = inr payload
    /\ getAdminDatabaseDriver Demo.server (api.TaskInstance (Demo.task Demo.createShop)) ""
       = inr driver
    /\ ExecuteMigration driver mi (TrimSpace (api.Statement payload))
       = inr (migrationID, echoed)
    /\ db.MigrationVersion mi = api.SchemaVersion payload
    /\ Some {| api.Detail := "Created database " +:+ Demo.quote "shop";
               api.MigrationID := 101;
               api.Version := "v1" |}
       = Some {| api.Detail :=
                   "Created database " +:+ Quote Demo.pkg (api.DatabaseName payload);
                 api.MigrationID := migrationID;
                 api.Version := api.SchemaVersion payload |}.
Proof.
  apply (RunOnce_result Demo.pkg Demo.server (Demo.task Demo.createShop) (Demo.world []) true).
  vm_compute. reflexivity.
Defined.

(** The driver answers [v1.effective]; the result carries [v1], the schema
    version of the payload. *)
Lemma RunOnce_version_not_echoed :
  ExecuteMigration Demo.adminDriver
    (migrationInfo Demo.server
       {| api.DatabaseName := "shop";
          api.ProjectID := 42;
          api.SchemaVersion := "v1";
          api.CharacterSet := "UTF8";
          api.Collation := "en_US.UTF-8";
          api.Labels := "";
          api.Statement := Demo.createShop |}
       Demo.instance (inl (External "principal not found")) None)
    Demo.createShop
  = inr (101, "v1.effective")
  /\ fst (RunOnce Demo.pkg Demo.server (Demo.task Demo.createShop) (Demo.world []))
     = Returns (true,
                Some {| api.Detail := "Created database " +:+ Demo.quote "shop";
                        api.MigrationID := 101;
                        api.Version := "v1" |},
                None)
  /\ "v1" <> "v1.effective".
Proof.
  split; [vm_compute; reflexivity|]. split; [vm_compute; reflexivity|discriminate].
Qed.

Lemma tableConstraints_empty schedule : tableConstraints (Demo.world schedule).
Proof.
  unfold tableConstraints. simpl. repeat split; constructor.
Defined.

(** C1: on a store that keeps one row for an instance and a name by a
    unique constraint, the sync inserts the row of the new database between
    the executor's lookup, which found none, and its create.  The create is
    refused, [RunOnce] returns that error, the one row of the database is
    left in the default project (1), not in the project of the payload
    (42), and the task points to no database.  On a store that upserts,
    the same run ends with the row in the project of the payload. *)
Theorem RunOnce_sync_between_lookup_and_create :
  let run := RunOnce Demo.pkg Demo.server (Demo.task Demo.createShop)
               (Demo.world [[]; [Demo.shopFound]]) in
  let upsert := RunOnce Demo.pkg DemoLabels.upserting (Demo.task Demo.createShop)
                  (Demo.world [[]; [Demo.shopFound]]) in
  createConflict Demo.server = UniqueConstraint
  /\ fst run
     = Returns (true, None,
                Some (External "duplicate key value violates unique constraint"))
  /\ rowsOf 7 "shop" (snd run) = [discoveredRow Demo.pkg Demo.shopFound 1]
  /\ ~ (exists row, rowsOf 7 "shop" (snd run) = [row] /\ api.DatabaseProjectID row = 42)
  /\ taskDatabaseID (snd run) !! 11 = None
  /\ createConflict DemoLabels.upserting = Upsert
  /\ rowsOf 7 "shop" (snd upsert)
     = [inProject 42 (discoveredRow Demo.pkg Demo.shopFound 1)]
  /\ taskDatabaseID (snd upsert) !! 11 = Some 1.
Proof.
  assert (H : rowsOf 7 "shop"
                (snd (RunOnce Demo.pkg Demo.server (Demo.task Demo.createShop)
                        (Demo.world [[]; [Demo.shopFound]])))
              = [discoveredRow Demo.pkg Demo.shopFound 1]) by (vm_compute; reflexivity).
  cbv zeta. split; [reflexivity|]. split; [vm_compute; reflexivity|]. split; [exact H|].
  split.
  { intros (row & Hrow & Hproject). rewrite H in Hrow. injection Hrow as <-.
    discriminate Hproject. }
  split; [vm_compute; reflexivity|]. split; [reflexivity|].
  split; vm_compute; reflexivity.
Qed.

(** C7: the store has no principal for the creator of the task and says
    so with a nil principal and no error, the way it does for an issue.
    [RunOnce] reads the creator's name through the nil pointer and panics:
    it has asked for the driver and written the debug line, it runs no
    migration, and it closes the driver on the way out.  When the same
    lookup comes back with an error instead, the run logs it, leaves the
    creator empty and executes the migration. *)
Theorem RunOnce_creator_not_found :
  let run := RunOnce Demo.pkg DemoLabels.nobody (Demo.task Demo.createShop)
               (Demo.world []) in
  let tolerated := RunOnce Demo.pkg Demo.server (Demo.task Demo.createShop)
                     (Demo.world []) in
  GetPrincipalByID DemoLabels.nobody (api.CreatorID (Demo.task Demo.createShop))
  = (None, None)
  /\ run
     = (Panics nilDereference,
        withExecutor {| completed := 1 |}
          (withEffects [GetAdminDriver Demo.instance "";
                        LogDebug "Start creating database...";
                        CloseDriver]
             (Demo.world [])))
  /\ (forall mi statement, ~ In (Migration mi statement) (effects (snd run)))
  /\ GetPrincipalByID Demo.server (api.CreatorID (Demo.task Demo.createShop))
     = (None, Some (External "principal not found"))
  /\ exists mi,
       effects (snd tolerated)
       = [GetAdminDriver Demo.instance "";
          LogDebug "Start creating database...";
          LogError "Failed to fetch creator for composing the migration info";
          LogError
            "failed to fetch containing issue for composing the migration info, issue not found with pipeline ID 5";
          Migration mi Demo.createShop;
          CloseDriver]
       /\ db.Creator mi = ""
       /\ db.IssueID mi = "".
Proof.
  cbv zeta. split; [reflexivity|].
  assert (Hrun : RunOnce Demo.pkg DemoLabels.nobody (Demo.task Demo.createShop)
                   (Demo.world [])
                 = (Panics nilDereference,
                    withExecutor {| completed := 1 |}
                      (withEffects [GetAdminDriver Demo.instance "";
                                    LogDebug "Start creating database...";
                                    CloseDriver]
                         (Demo.world [])))) by (vm_compute; reflexivity).
  split; [exact Hrun|]. split.
  { rewrite Hrun. cbn [snd effects withExecutor withEffects].
    intros mi statement [H|[H|[H|[]]]]; discriminate H. }
  split; [reflexivity|].
  eexists. split; [vm_compute; reflexivity|]. split; reflexivity.
Qed.

(** C9: on the task whose creator the store answers with a nil principal
    and no error, [RunOnce] does not return: it panics, so the caller gets
    no terminated value at all, neither true nor false; the completion
    flag is set all the same. *)
Theorem RunOnce_no_terminated_value :
  let run := RunOnce Demo.pkg DemoLabels.nobody (Demo.task Demo.createShop)
               (Demo.world [[Demo.shopFound]]) in
  fst run = Panics nilDereference
  /\ (forall terminated res err, fst run <> Returns (terminated, res, err))
  /\ IsCompleted (executor (snd run)) = true
  /\ sameStore (Demo.world [[Demo.shopFound]]) (snd run).
Proof.
  assert (Hrun : fst (RunOnce Demo.pkg DemoLabels.nobody (Demo.task Demo.createShop)
                        (Demo.world [[Demo.shopFound]]))
                 = Panics nilDereference) by (vm_compute; reflexivity).
  cbv zeta. split; [exact Hrun|]. split; [intros t r e; rewrite Hrun; discriminate|].
  split; [reflexivity|]. repeat split.
Qed.

End ServerFacts.

(* ===================================================================== *)
(** ** Further facts about the parser of index definitions *)
(* ===================================================================== *)

Module PgParseMore.
Import GoStrings PgParse PgSpec PgParseSpec PgParseFacts.

(** *** Strings *)

Lemma HasPrefix_empty (s : string) : HasPrefix s "" = true.
Proof. now destruct s. Qed.

Lemma firstByte_app (s t : string) :
  s <> "" -> firstByte (s +:+ t) = firstByte s.
Proof. destruct s as [|c s]; [congruence|reflexivity]. Qed.

Lemma lastByte_app (s t : string) :
  t <> "" -> lastByte (s +:+ t) = lastByte t.
Proof.
  intros Ht. unfold lastByte. rewrite list_ascii_of_string_app, rev_app_distr.
  destruct t as [|c t]; [congruence|].
  cbn [list_ascii_of_string rev].
  destruct (rev (list_ascii_of_string t)); reflexivity.
Qed.

Lemma firstByte_nonempty (s : string) (a : ascii) : firstByte s = Some a -> s <> "".
Proof. destruct s; [discriminate|discriminate]. Qed.

(** *** White space *)

Lemma solid_ascii (c : ascii) :
  solid c = true -> (nat_of_ascii c < 128)%nat /\ isAsciiSpace c = false.
Proof.
  unfold solid. rewrite andb_true_iff, negb_true_iff, Nat.ltb_lt. tauto.
Qed.

Lemma isSpace2_solid_l (a c : ascii) : solid a = true -> isSpace2 a c = false.
Proof.
  intros H. apply solid_ascii in H. destruct H as [H _]. unfold isSpace2.
  destruct (Nat.eqb_spec (nat_of_ascii a) 194); [lia|reflexivity].
Qed.

Lemma isSpace3_solid_l (a c d : ascii) : solid a = true -> isSpace3 a c d = false.
Proof.
  intros H. apply solid_ascii in H. destruct H as [H _]. unfold isSpace3.
  destruct (Nat.eqb_spec (nat_of_ascii a) 225); [lia|].
  destruct (Nat.eqb_spec (nat_of_ascii a) 226); [lia|].
  destruct (Nat.eqb_spec (nat_of_ascii a) 227); [lia|reflexivity].
Qed.

Lemma isSpace2_solid_r (c b : ascii) : solid b = true -> isSpace2 c b = false.
Proof.
  intros H. apply solid_ascii in H. destruct H as [H _]. unfold isSpace2.
  destruct (Nat.eqb_spec (nat_of_ascii b) 133); [lia|].
  destruct (Nat.eqb_spec (nat_of_ascii b) 160); [lia|].
  now rewrite andb_false_r.
Qed.

Lemma isSpace3_solid_r (d c b : ascii) : solid b = true -> isSpace3 d c b = false.
Proof.
  intros H. apply solid_ascii in H. destruct H as [H _]. unfold isSpace3.
  set (x := nat_of_ascii b) in *.
  destruct (Nat.eqb_spec x 128); [lia|].
  destruct (Nat.leb_spec 128 x); [lia|].
  destruct (Nat.eqb_spec x 168); [lia|].
  destruct (Nat.eqb_spec x 169); [lia|].
  destruct (Nat.eqb_spec x 175); [lia|].
  destruct (Nat.eqb_spec x 159); [lia|].
  cbn [andb orb]. now rewrite !andb_false_r.
Qed.

Lemma trimLeft_solid (a : ascii) (l : list ascii) :
  solid a = true -> trimLeft (a :: l) = a :: l.
Proof.
  intros H. cbn [trimLeft]. rewrite (proj2 (solid_ascii a H)).
  destruct l as [|c [|d l]]; rewrite ?(isSpace2_solid_l a _ H), ?(isSpace3_solid_l a _ _ H);
    reflexivity.
Qed.

Lemma trimLeftRev_solid (b : ascii) (l : list ascii) :
  solid b = true -> trimLeftRev (b :: l) = b :: l.
Proof.
  intros H. cbn [trimLeftRev]. rewrite (proj2 (solid_ascii b H)).
  destruct l as [|c [|d l]]; rewrite ?(isSpace2_solid_r _ b H), ?(isSpace3_solid_r _ _ b H);
    reflexivity.
Qed.

(** A string that starts and ends with a solid byte has nothing to trim. *)
Lemma TrimSpace_solid (s : string) (a b : ascii) :
  firstByte s = Some a -> solid a = true ->
  lastByte s = Some b -> solid b = true ->
  TrimSpace s = s.
Proof.
  unfold firstByte, lastByte, TrimSpace. intros Ha Hsa Hb Hsb.
  destruct (list_ascii_of_string s) as [|a' l] eqn:El; [discriminate|].
  injection Ha as ->. rewrite (trimLeft_solid a l Hsa).
  destruct (rev (a :: l)) as [|b' l'] eqn:Er; [discriminate|].
  injection Hb as ->. rewrite (trimLeftRev_solid b l' Hsb), <- Er, rev_involutive, <- El.
  apply string_of_list_ascii_of_string.
Qed.

Lemma TrimSpace_leading_space (s : string) : TrimSpace (String " " s) = TrimSpace s.
Proof. reflexivity. Qed.

(** *** The terms of a column list *)

Lemma joinTerms_cons (t u : string) (rest : list string) :
  joinTerms (t :: u :: rest) = t +:+ ", " +:+ joinTerms (u :: rest).
Proof. reflexivity. Qed.

Lemma columnTerm_nonempty (t : string) : columnTerm t -> t <> "".
Proof. intros ((a & Ha & _) & _). now apply firstByte_nonempty in Ha. Qed.

Lemma joinTerms_nonempty (t : string) (rest : list string) :
  columnTerm t -> joinTerms (t :: rest) <> "".
Proof.
  intros Ht. pose proof (columnTerm_nonempty t Ht) as Hn.
  destruct rest as [|u rest]; [exact Hn|].
  rewrite joinTerms_cons. destruct t; [congruence|discriminate].
Qed.

Lemma joinTerms_firstByte (t : string) (rest : list string) :
  columnTerm t -> firstByte (joinTerms (t :: rest)) = firstByte t.
Proof.
  intros Ht. destruct rest as [|u rest]; [reflexivity|].
  rewrite joinTerms_cons. apply firstByte_app. now apply columnTerm_nonempty.
Qed.

Lemma joinTerms_lastByte (ts : list string) :
  Forall columnTerm ts -> ts <> [] ->
  exists b, lastByte (joinTerms ts) = Some b /\ solid b = true.
Proof.
  induction 1 as [|t rest Ht Hrest IH]; intros Hne; [congruence|].
  destruct rest as [|u rest].
  - destruct Ht as (_ & Hb & _). exact Hb.
  - rewrite joinTerms_cons.
    destruct IH as (b & Hb & Hs); [discriminate|].
    exists b. split; [|exact Hs].
    rewrite lastByte_app.
    + rewrite lastByte_app; [exact Hb|].
      apply joinTerms_nonempty. now inversion Hrest.
    + discriminate.
Qed.

Lemma joinTerms_firstLine (ts : list string) :
  Forall columnTerm ts -> firstLine (joinTerms ts) = joinTerms ts.
Proof.
  induction 1 as [|t rest Ht Hrest IH]; [reflexivity|].
  destruct rest as [|u rest]; [apply Ht|].
  rewrite joinTerms_cons.
  destruct Ht as (_ & _ & _ & Hl & _).
  rewrite (firstLine_app t _ Hl). f_equal.
  change (", " +:+ joinTerms (u :: rest)) with (String "," (String " " (joinTerms (u :: rest)))).
  cbn [firstLine]. change (Ascii.eqb "," newline) with false.
  change (Ascii.eqb " " newline) with false. cbv iota. now rewrite IH.
Qed.

Lemma HasPrefix_term_comma (t r : string) :
  t <> "" -> HasPrefix t "((" = false -> HasPrefix (t +:+ String "," r) "((" = false.
Proof.
  intros Hn Hp. destruct t as [|a [|b t]]; [congruence| |].
  - rewrite append_cons, append_nil. cbn [HasPrefix].
    destruct (Ascii.eqb "(" a); reflexivity.
  - rewrite !append_cons. cbn [HasPrefix] in *.
    destruct (Ascii.eqb "(" a); [|reflexivity].
    destruct (Ascii.eqb "(" b); [|reflexivity].
    rewrite HasPrefix_empty in Hp. discriminate.
Qed.

Lemma indexOf_term_comma (t r : string) :
  indexOf t "," = None -> indexOf (t +:+ String "," r) "," = Some (len t).
Proof.
  unfold len. induction t as [|c t IH]; intros Hi.
  - rewrite append_nil. cbn [indexOf HasPrefix]. change (Ascii.eqb "," ",") with true.
    cbv iota. now rewrite HasPrefix_empty.
  - rewrite append_cons. cbn [indexOf] in *.
    destruct (HasPrefix (String c t) ",") eqn:Ep; [discriminate|].
    assert (Ep' : HasPrefix (String c (t +:+ String "," r)) "," = false).
    { cbn [HasPrefix] in *. destruct (Ascii.eqb "," c); [|reflexivity].
      rewrite HasPrefix_empty in Ep. discriminate. }
    rewrite Ep'. destruct (indexOf t ",") eqn:Et; [discriminate|].
    rewrite (IH eq_refl). reflexivity.
Qed.

(** The token of a column statement that is one term. *)
Lemma nextToken_last (t : string) : columnTerm t -> nextToken t = t.
Proof.
  intros (_ & _ & Hc & _ & Hp). unfold nextToken, Index. now rewrite Hp, Hc.
Qed.

(** The token of a column statement that goes on after a term. *)
Lemma nextToken_term (t r : string) :
  columnTerm t -> nextToken (t +:+ String "," r) = t.
Proof.
  intros Ht. pose proof (columnTerm_nonempty t Ht) as Hn.
  destruct Ht as (_ & _ & Hc & _ & Hp). unfold nextToken, Index.
  rewrite (HasPrefix_term_comma t r Hn Hp), (indexOf_term_comma t r Hc).
  destruct (Z.ltb_spec (Z.of_nat (len t)) 0); [lia|].
  rewrite Nat2Z.id. apply take_app_len.
Qed.

Lemma nextToken_term_sep (t r : string) :
  columnTerm t -> nextToken (t +:+ ", " +:+ r) = t.
Proof. intros Ht. exact (nextToken_term t (String " " r) Ht). Qed.

(** What is left of a column statement after its first term. *)
Lemma afterToken_term (t : string) (ts : list string) :
  Forall columnTerm ts -> ts <> [] ->
  afterToken (t +:+ ", " +:+ joinTerms ts) t = joinTerms ts.
Proof.
  intros Hts Hne. unfold afterToken. rewrite drop_app_len.
  destruct ts as [|u rest]; [congruence|].
  pose proof (Forall_inv Hts) as Hu.
  destruct (joinTerms_lastByte _ Hts Hne) as (b & Hb & Hsb).
  destruct Hu as ((a & Ha & Hsa) & Hrest).
  assert (Hj : joinTerms (u :: rest) <> "")
    by (apply joinTerms_nonempty; exact (Forall_inv Hts)).
  assert (H1 : TrimSpace (", " +:+ joinTerms (u :: rest)) = ", " +:+ joinTerms (u :: rest)).
  { apply (TrimSpace_solid _ "," b); [reflexivity|reflexivity| |exact Hsb].
    rewrite lastByte_app; [exact Hb|exact Hj]. }
  rewrite H1.
  change (", " +:+ joinTerms (u :: rest)) with (String "," (String " " (joinTerms (u :: rest)))).
  cbv beta iota. change (Ascii.eqb "," ",") with true. cbv iota.
  rewrite TrimSpace_leading_space.
  apply (TrimSpace_solid _ a b); try assumption.
  rewrite joinTerms_firstByte; [exact Ha|exact (Forall_inv Hts)].
Qed.

Lemma TrimSpace_term (t : string) : columnTerm t -> TrimSpace t = t.
Proof.
  intros ((a & Ha & Hsa) & (b & Hb & Hsb) & _). now apply (TrimSpace_solid t a b).
Qed.

(** The loop on a list of terms returns the terms. *)
Lemma columnLoop_terms (stmt : string) (ts : list string) :
  Forall columnTerm ts ->
  forall fuel cols,
    (len (joinTerms ts) < fuel)%nat ->
    columnLoop fuel stmt (joinTerms ts) cols = Some (inr (cols ++ ts)).
Proof.
  induction 1 as [|t rest Ht Hrest IH]; intros fuel cols Hf.
  - destruct fuel; [lia|]. cbn. now rewrite app_nil_r.
  - destruct fuel as [|fuel]; [lia|]. cbn [columnLoop].
    pose proof (joinTerms_nonempty t rest Ht) as Hn.
    assert (H0 : Nat.eqb (len (joinTerms (t :: rest))) 0 = false).
    { apply Nat.eqb_neq. unfold len. destruct (joinTerms (t :: rest)); [congruence|].
      cbn. lia. }
    rewrite H0.
    assert (Ht0 : Nat.eqb (len t) 0 = false).
    { apply Nat.eqb_neq. unfold len. pose proof (columnTerm_nonempty t Ht).
      destruct t; [congruence|]. cbn. lia. }
    destruct rest as [|u rest].
    + cbn [joinTerms] in *. rewrite (nextToken_last t Ht), Ht0.
      assert (Ha : afterToken t t = "").
      { unfold afterToken. now rewrite drop_len_all. }
      rewrite Ha, (TrimSpace_term t Ht).
      destruct fuel; [|reflexivity].
      exfalso. apply Nat.eqb_neq in Ht0. lia.
    + rewrite joinTerms_cons in *.
      rewrite (nextToken_term_sep t _ Ht), Ht0.
      rewrite (afterToken_term t (u :: rest) Hrest) by discriminate.
      rewrite (TrimSpace_term t Ht).
      rewrite (IH fuel (cols ++ [t])).
      * now rewrite <- app_assoc.
      * rewrite !len_app in Hf. change (len ", ") with 2%nat in Hf. lia.
Qed.

(** X1: a statement that has no opening parenthesis before its column
    list and ends with the closing parenthesis of the list, and whose list
    is made of terms that start and end with an ASCII byte other than
    white space, hold no comma and no newline and do not open with two
    parentheses, printed with a comma and a space between them, is parsed
    into exactly these terms, in order. *)
Theorem getIndexColumnExpressions_terms (head : string) (ts : list string) :
  indexOf head "(" = None ->
  Forall columnTerm ts ->
  getIndexColumnExpressions (head +:+ String "(" (joinTerms ts +:+ ")")) = inr ts.
Proof.
  intros Hh Hts. unfold getIndexColumnExpressions.
  rewrite (findParenGroup_columns head (joinTerms ts) Hh (joinTerms_firstLine ts Hts)).
  rewrite (columnLoop_terms _ ts Hts); [reflexivity|lia].
Qed.


Lemma getIndexColumnExpressions_terms_witness :
  getIndexColumnExpressions
    ("CREATE INDEX orders_by_day ON public.orders USING btree "
     +:+ String "(" (joinTerms ["customer_id"; "lower(city)"; "created_at DESC"] +:+ ")"))
  = inr ["customer_id"; "lower(city)"; "created_at DESC"].
Proof.
  apply getIndexColumnExpressions_terms; [reflexivity|].
  repeat constructor; eexists; split; reflexivity.
Defined.

(** *** The loop ends *)

Lemma columnLoop_more_fuel (fuel : nat) :
  forall stmt columnStmt cols r,
    columnLoop fuel stmt columnStmt cols = Some r ->
    forall extra, columnLoop (fuel + extra) stmt columnStmt cols = Some r.
Proof.
  induction fuel as [|fuel IH]; intros stmt columnStmt cols r H extra; [discriminate|].
  cbn [Nat.add columnLoop] in *.
  destruct (Nat.eqb (len columnStmt) 0); [exact H|].
  destruct (Nat.eqb (len (nextToken columnStmt)) 0); [exact H|].
  now apply IH.
Qed.

(** X2: the loop of [getIndexColumnExpressions] ends on every statement:
    it has returned after at most as many turns as the column statement has
    bytes, plus one, and more turns do not change what it returns. *)
Theorem getIndexColumnExpressions_loop_ends (stmt columnStmt : string) (fuel : nat) :
  findParenGroup stmt = Some columnStmt ->
  (len columnStmt < fuel)%nat ->
  columnLoop fuel stmt columnStmt [] = Some (getIndexColumnExpressions stmt).
Proof.
  intros Hg Hf.
  replace fuel with (S (len columnStmt) + (fuel - S (len columnStmt)))%nat by lia.
  apply columnLoop_more_fuel. now apply getIndexColumnExpressions_loop.
Qed.

Lemma getIndexColumnExpressions_loop_ends_witness :
  columnLoop 100 DemoCatalog.orders_by_day "customer_id, created_at DESC" []
  = Some (getIndexColumnExpressions DemoCatalog.orders_by_day).
Proof.
  apply getIndexColumnExpressions_loop_ends; [reflexivity|].
  vm_compute. lia.
Defined.

(** *** Statements that are not index definitions *)

Lemma findParenGroup_no_paren (s : string) :
  indexOf s "(" = None -> findParenGroup s = None.
Proof.
  induction s as [|c s IH]; intros Hi; [reflexivity|].
  cbn [indexOf] in Hi. destruct (HasPrefix (String c s) "(") eqn:Ep; [discriminate|].
  cbn [findParenGroup]. destruct (Ascii.eqb c "("%char) eqn:Ec.
  - apply Ascii.eqb_eq in Ec. subst c. cbn [HasPrefix] in Ep.
    change (Ascii.eqb "(" "(") with true in Ep. cbv iota in Ep.
    rewrite HasPrefix_empty in Ep. discriminate.
  - apply IH. destruct (indexOf s "("); [discriminate|reflexivity].
Qed.

(** X3: a statement without an opening parenthesis is refused; so is a
    column list that starts with a comma; an empty pair of parentheses
    gives no term and no error. *)
Theorem getIndexColumnExpressions_edges (head rest : string) :
  indexOf head "(" = None ->
  firstLine rest = rest ->
  getIndexColumnExpressions head = inl (invalidIndexStatement head)
  /\ getIndexColumnExpressions (head +:+ String "(" ("" +:+ ")")) = inr []
  /\ getIndexColumnExpressions (head +:+ String "(" (String "," rest +:+ ")"))
     = inl (invalidIndexStatement (head +:+ String "(" (String "," rest +:+ ")"))).
Proof.
  intros Hh Hr. split; [|split].
  - unfold getIndexColumnExpressions. now rewrite (findParenGroup_no_paren head Hh).
  - unfold getIndexColumnExpressions.
    now rewrite (findParenGroup_columns head "" Hh eq_refl).
  - unfold getIndexColumnExpressions.
    assert (Hl : firstLine (String "," rest) = String "," rest).
    { cbn [firstLine]. change (Ascii.eqb "," newline) with false. cbv iota. now rewrite Hr. }
    rewrite (findParenGroup_columns head (String "," rest) Hh Hl).
    cbn [columnLoop len String.length Nat.eqb].
    unfold nextToken, Index. cbn [HasPrefix indexOf].
    change (Ascii.eqb "(" ",") with false. change (Ascii.eqb "," ",") with true.
    cbv iota. rewrite HasPrefix_empty. reflexivity.
Qed.

Lemma getIndexColumnExpressions_edges_witness :
  getIndexColumnExpressions "CREATE INDEX i ON t USING btree "
  = inl (invalidIndexStatement "CREATE INDEX i ON t USING btree ")
  /\ getIndexColumnExpressions
       ("CREATE INDEX i ON t USING btree " +:+ String "(" ("" +:+ ")"))
     = inr []
  /\ getIndexColumnExpressions
       ("CREATE INDEX i ON t USING btree " +:+ String "(" (String "," "a" +:+ ")"))
     = inl (invalidIndexStatement
              ("CREATE INDEX i ON t USING btree " +:+ String "(" (String "," "a" +:+ ")"))).
Proof. apply getIndexColumnExpressions_edges; reflexivity. Defined.

(** *** The access method *)

Lemma HasPrefix_app (p x : string) : HasPrefix (p +:+ x) p = true.
Proof.
  induction p as [|c p IH]; [apply HasPrefix_empty|].
  rewrite append_cons. cbn [HasPrefix]. now rewrite Ascii.eqb_refl.
Qed.

Lemma HasPrefix_split (p s : string) :
  HasPrefix s p = true -> s = p +:+ drop (len p) s.
Proof.
  revert s. induction p as [|c p IH]; intros s H; [reflexivity|].
  destruct s as [|d s]; [discriminate|]. cbn [HasPrefix] in H.
  destruct (Ascii.eqb c d) eqn:E; [|discriminate].
  apply Ascii.eqb_eq in E. subst d. rewrite append_cons.
  change (drop (len (String c p)) (String c s)) with (drop (len p) s).
  f_equal. now apply IH.
Qed.

Lemma wordPrefix_split (s : string) :
  s = wordPrefix s +:+ drop (len (wordPrefix s)) s /\ isWordString (wordPrefix s).
Proof.
  induction s as [|c s [IH1 IH2]]; [split; [reflexivity|constructor]|].
  cbn [wordPrefix]. destruct (isWord c) eqn:E.
  - split.
    + rewrite append_cons.
      change (drop (len (String c (wordPrefix s))) (String c s))
        with (drop (len (wordPrefix s)) s).
      f_equal. exact IH1.
    + constructor; assumption.
  - split; [reflexivity|constructor].
Qed.

Lemma wordPrefix_word (m tail : string) :
  isWordString m -> wordPrefix (m +:+ String " " tail) = m.
Proof.
  unfold isWordString. induction m as [|c m IH]; intros H; [reflexivity|].
  rewrite append_cons. cbn [list_ascii_of_string] in H. inversion H as [|? ? Hc Hm]; subst.
  cbn [wordPrefix]. rewrite Hc. f_equal. now apply IH.
Qed.

Lemma findUsing_sound (s m : string) :
  findUsing s = Some m ->
  exists head tail,
    s = head +:+ "USING " +:+ m +:+ " " +:+ tail /\ m <> "" /\ isWordString m.
Proof.
  induction s as [|c s IH]; [discriminate|].
  cbn [findUsing].
  destruct (HasPrefix (String c s) "USING ") eqn:Ep.
  - set (rest := drop 6 (String c s)).
    destruct (negb (Nat.eqb (len (wordPrefix rest)) 0)
              && HasPrefix (drop (6 + len (wordPrefix rest)) (String c s)) " ")%bool eqn:Ew.
    + intros [= <-]. apply andb_true_iff in Ew. destruct Ew as [Hn Hsp].
      apply HasPrefix_split in Ep. change (len "USING ") with 6%nat in Ep. fold rest in Ep.
      destruct (wordPrefix_split rest) as [Hw Hword].
      assert (Hd : drop (6 + len (wordPrefix rest)) (String c s)
                   = drop (len (wordPrefix rest)) rest).
      { unfold rest. clear. generalize (len (wordPrefix (drop 6 (String c s)))). intros n.
        generalize (String c s). intros x.
        do 6 (destruct x as [|? x]; [now destruct n|]). reflexivity. }
      rewrite Hd in Hsp. apply HasPrefix_split in Hsp.
      exists "", (drop (len " ") (drop (len (wordPrefix rest)) rest)).
      split; [|split].
      * rewrite append_nil, Ep. f_equal. rewrite Hw at 1. f_equal. exact Hsp.
      * intros He. rewrite He in Hn. discriminate.
      * exact Hword.
    + intros H. destruct (IH H) as (head & tail & -> & Hm).
      exists (String c head), tail. split; [now rewrite append_cons|exact Hm].
  - intros H. destruct (IH H) as (head & tail & -> & Hm).
    exists (String c head), tail. split; [now rewrite append_cons|exact Hm].
Qed.

(** X4: a method type that [getIndexMethodType] returns is a run of word
    characters that the statement holds between the word USING with a
    space, and a space. *)
Theorem getIndexMethodType_sound (stmt : string) :
  getIndexMethodType stmt <> "" ->
  exists head tail,
    stmt = head +:+ "USING " +:+ getIndexMethodType stmt +:+ " " +:+ tail
    /\ isWordString (getIndexMethodType stmt).
Proof.
  unfold getIndexMethodType. destruct (findUsing stmt) as [m|] eqn:E; [|congruence].
  intros _. destruct (findUsing_sound stmt m E) as (head & tail & Hs & _ & Hw).
  now exists head, tail.
Qed.

Lemma getIndexMethodType_sound_witness :
  exists head tail,
    DemoCatalog.orders_by_day
    = head +:+ "USING " +:+ getIndexMethodType DemoCatalog.orders_by_day +:+ " " +:+ tail
    /\ isWordString (getIndexMethodType DemoCatalog.orders_by_day).
Proof. apply getIndexMethodType_sound. vm_compute. discriminate. Defined.

Lemma drop_drop_six (n : nat) (x : string) : drop (6 + n) ("USING " +:+ x) = drop n x.
Proof. reflexivity. Qed.

(** X5: when the first USING followed by a space in a statement is followed
    by a run of word characters and a space, the method type is that
    run. *)
Theorem getIndexMethodType_first_using (head m tail : string) :
  (forall p, (p < len head)%nat ->
             HasPrefix (drop p (head +:+ "USING " +:+ m +:+ " " +:+ tail)) "USING " = false) ->
  m <> "" ->
  isWordString m ->
  getIndexMethodType (head +:+ "USING " +:+ m +:+ " " +:+ tail) = m.
Proof.
  intros Hfirst Hm Hw. unfold getIndexMethodType.
  assert (Hfind : findUsing (head +:+ "USING " +:+ m +:+ " " +:+ tail) = Some m).
  { induction head as [|c head IH].
    - rewrite append_nil.
      change ("USING " +:+ m +:+ " " +:+ tail)
        with (String "U" ("SING " +:+ m +:+ " " +:+ tail)).
      cbn [findUsing].
      change (String "U" ("SING " +:+ m +:+ " " +:+ tail))
        with ("USING " +:+ m +:+ " " +:+ tail).
      rewrite HasPrefix_app.
      change (drop 6 ("USING " +:+ m +:+ " " +:+ tail)) with (m +:+ " " +:+ tail).
      change (m +:+ " " +:+ tail) with (m +:+ String " " tail).
      rewrite (wordPrefix_word m tail Hw).
      rewrite drop_drop_six, drop_app_len.
      assert (Hn : Nat.eqb (len m) 0 = false).
      { apply Nat.eqb_neq. unfold len. destruct m; [congruence|]. cbn. lia. }
      rewrite Hn. cbn [negb andb HasPrefix]. change (Ascii.eqb " " " ") with true.
      cbv iota. now rewrite HasPrefix_empty.
    - rewrite append_cons. cbn [findUsing].
      pose proof (Hfirst O ltac:(unfold len; cbn; lia)) as H0. rewrite append_cons in H0.
      cbn [drop] in H0. rewrite H0. apply IH.
      intros p Hp. specialize (Hfirst (S p) ltac:(unfold len in *; cbn; lia)).
      rewrite append_cons in Hfirst. exact Hfirst. }
  now rewrite Hfind.
Qed.

Lemma getIndexMethodType_first_using_witness :
  getIndexMethodType
    ("CREATE INDEX i ON t " +:+ "USING " +:+ "gin" +:+ " " +:+ "(tags) WHERE note = 'USING x '")
  = "gin".
Proof.
  apply getIndexMethodType_first_using.
  - intros p Hp. change (len "CREATE INDEX i ON t ") with 20%nat in Hp.
    do 20 (destruct p as [|p]; [reflexivity|]). lia.
  - discriminate.
  - repeat constructor.
Defined.

End PgParseMore.

(* ===================================================================== *)
(** ** More facts about the sync: the catalog helpers and the transaction *)
(* ===================================================================== *)

Module PgCatalogFacts.
Import GoStrings PgParse Pg PgSpec PgCatalogSpec PgParseFacts PgFacts.

(** *** Grouping by key *)

Lemma appendAt_lookup {A} (key k : string) (x : A) (m : gmap string (list A)) :
  default [] (appendAt key x m !! k)
  = default [] (m !! k) ++ (if decide (key = k) then [x] else []).
Proof.
  unfold appendAt. destruct (decide (key = k)) as [->|Hne].
  - now rewrite lookup_insert_eq.
  - rewrite lookup_insert_ne by assumption. now rewrite app_nil_r.
Qed.

Lemma fold_appendAt_lookup {A} (key : A -> string) (l : list A) (k : string) :
  forall m,
    default [] (fold_left (fun m x => appendAt (key x) x m) l m !! k)
    = default [] (m !! k) ++ filter (fun x => key x = k) l.
Proof.
  induction l as [|a l IH]; intros m; cbn [fold_left].
  - now rewrite filter_nil, app_nil_r.
  - rewrite IH, appendAt_lookup, filter_cons.
    destruct (decide (key a = k)); [now rewrite <- app_assoc|now rewrite app_nil_r].
Qed.

Lemma fold_left_scanned {A B C} (g : A -> B) (f : C -> B -> C) (l : list A) :
  forall c, fold_left (fun c a => f c (g a)) l c = fold_left f (map g l) c.
Proof. induction l as [|a l IH]; intros c; cbn; [reflexivity|apply IH]. Qed.

(** X6: the map that [getTableConstraints] returns holds, under a key, the
    constraints of the scanned rows with that key, in the order of the
    rows; a key that no row has is not bound to any. *)
Theorem getTableConstraints_grouped (txn : Tx) (rows : Rows (string * string * string * string))
        (ret : gmap string (list tableConstraint)) (key : string) :
  query_pg_constraint txn = inr rows ->
  getTableConstraints txn = inr ret ->
  default [] (ret !! key)
  = filter (fun c => constraintKey c = key) (map scanConstraint (scanned rows)).
Proof.
  intros Hq. unfold getTableConstraints. rewrite Hq. cbn [rbind].
  destruct (failure rows); [discriminate|]. intros [= <-].
  rewrite (fold_left_scanned scanConstraint
             (fun ret c => appendAt (constraintSchemaName c +:+ "." +:+ constraintTableName c) c ret)).
  rewrite (fold_appendAt_lookup constraintKey). now rewrite lookup_empty.
Qed.

Lemma getTableConstraints_grouped_witness :
  exists ret,
    getTableConstraints DemoCatalog.tx = inr ret
    /\ default [] (ret !! "public.orders")
       = filter (fun c => constraintKey c = "public.orders")
                (map scanConstraint DemoCatalog.constraintRows).
Proof.
  eexists. split; [reflexivity|].
  apply (getTableConstraints_grouped DemoCatalog.tx
           {| scanned := DemoCatalog.constraintRows; failure := None |});
    reflexivity.
Defined.

(** *** The schema qualifier of a constraint's table *)

Lemma indexOf_dot (q t : string) :
  indexOf q "." = None -> indexOf (q +:+ String "." t) "." = Some (len q).
Proof.
  unfold len. induction q as [|c q IH]; intros Hi.
  - rewrite append_nil. cbn [indexOf HasPrefix]. change (Ascii.eqb "." ".") with true.
    cbv iota. now destruct t.
  - rewrite append_cons. cbn [indexOf] in *.
    destruct (HasPrefix (String c q) ".") eqn:Ep; [discriminate|].
    assert (Ep' : HasPrefix (String c (q +:+ String "." t)) "." = false).
    { cbn [HasPrefix] in *. destruct (Ascii.eqb "." c); [|reflexivity].
      destruct q; discriminate. }
    rewrite Ep'. destruct (indexOf q ".") eqn:Et; [discriminate|].
    rewrite (IH eq_refl). reflexivity.
Qed.

(** X7: [getTableConstraints] cuts the table name of a constraint after its
    first dot, and keeps a name without a dot. *)
Theorem scanConstraint_table_name (schemaName qualifier table name def : string) :
  indexOf qualifier "." = None ->
  constraintTableName (scanConstraint (schemaName, qualifier +:+ "." +:+ table, name, def))
  = table
  /\ constraintTableName (scanConstraint (schemaName, qualifier, name, def)) = qualifier.
Proof.
  intros Hq. split.
  - cbn [scanConstraint constraintTableName]. unfold Contains, Index.
    change (qualifier +:+ "." +:+ table) with (qualifier +:+ String "." table).
    rewrite (indexOf_dot qualifier table Hq).
    replace (0 <=? Z.of_nat (len qualifier)) with true by (symmetry; apply Z.leb_le; lia).
    replace (Z.to_nat (1 + Z.of_nat (len qualifier))) with (S (len qualifier)) by lia.
    change (qualifier +:+ String "." table) with (qualifier +:+ ("." +:+ table)).
    rewrite <- append_assoc.
    replace (S (len qualifier)) with (len (qualifier +:+ ".")) by (rewrite len_app; cbn; lia).
    apply drop_app_len.
  - cbn [scanConstraint constraintTableName]. unfold Contains, Index. now rewrite Hq.
Qed.

Lemma scanConstraint_table_name_witness :
  constraintTableName
    (scanConstraint ("sales", "sales" +:+ "." +:+ "invoices", "invoices_pkey", "PRIMARY KEY (id)"))
  = "invoices"
  /\ constraintTableName (scanConstraint ("sales", "sales", "invoices_pkey", "PRIMARY KEY (id)"))
     = "sales".
Proof. apply scanConstraint_table_name. reflexivity. Defined.

(** *** The entries of an index *)



(** *** The tables of a snapshot and their indexes *)

Lemma readSchema_parts now (txn : Tx) databaseName database schema :
  readSchema now txn databaseName database = inr schema ->
  exists indices tables views extensions,
    getIndices txn = inr indices
    /\ getPgTables txn = inr tables
    /\ getViews txn = inr views
    /\ getExtensions txn = inr extensions
    /\ db.SchemaName schema = databaseName
    /\ db.TableList schema
       = map (toTable
                (fold_left
                   (fun m idx =>
                      appendAt (indexSchemaName idx +:+ "." +:+ indexTableName idx) idx m)
                   indices ∅))
             tables
    /\ db.ViewList schema = toViews now 0 views
    /\ db.ExtensionList schema = extensions.
Proof.
  unfold readSchema. intros H.
  destruct (getIndices txn) as [e|indices]; [discriminate|].
  destruct (getPgTables txn) as [e|tables]; [discriminate|].
  destruct (getViews txn) as [e|views]; [discriminate|].
  destruct (getExtensions txn) as [e|extensions]; [discriminate|].
  injection H as <-. exists indices, tables, views, extensions. repeat split.
Qed.

(** X9: in a snapshot, the index entries of a table are those of the
    indexes whose schema and table name, joined by a dot, give the name of
    the table, in the order in which [getIndices] returned them; the
    columns are those of the table, in order. *)
Theorem readSchema_table_indexes now (txn : Tx) databaseName database schema :
  readSchema now txn databaseName database = inr schema ->
  exists indices tables,
    getIndices txn = inr indices
    /\ getPgTables txn = inr tables
    /\ Forall2 (fun tbl t =>
                  db.TableName t = tableKey tbl
                  /\ db.IndexList t
                     = indexEntries (filter (fun idx => indexKey idx = tableKey tbl) indices)
                  /\ db.ColumnList t = map toColumn (columns tbl))
               tables (db.TableList schema).
Proof.
  intros H. destruct (readSchema_parts _ _ _ _ _ H)
    as (indices & tables & views & extensions & Hi & Ht & _ & _ & _ & Hl & _).
  exists indices, tables. split; [exact Hi|]. split; [exact Ht|].
  rewrite Hl. clear. induction tables as [|tbl tables IH]; cbn [map]; constructor; [|exact IH].
  repeat split. unfold toTable. cbn [db.IndexList]. unfold indexEntries. f_equal.
  fold (tableKey tbl). rewrite (fold_appendAt_lookup indexKey). now rewrite lookup_empty.
Qed.

Lemma readSchema_table_indexes_witness :
  exists schema indices tables,
    readSchema (nowUnix DemoCatalog.pgDriver) DemoCatalog.tx "shop"
      {| name := "shop"; encoding := "UTF8"; collate := "en_US.UTF-8" |}
    = inr schema
    /\ getIndices DemoCatalog.tx = inr indices
    /\ getPgTables DemoCatalog.tx = inr tables
    /\ Forall2 (fun tbl t =>
                  db.TableName t = tableKey tbl
                  /\ db.IndexList t
                     = indexEntries (filter (fun idx => indexKey idx = tableKey tbl) indices)
                  /\ db.ColumnList t = map toColumn (columns tbl))
               tables (db.TableList schema).
Proof.
  destruct (readSchema (nowUnix DemoCatalog.pgDriver) DemoCatalog.tx "shop"
              {| name := "shop"; encoding := "UTF8"; collate := "en_US.UTF-8" |})
    as [e|schema] eqn:E; [vm_compute in E; discriminate|].
  exists schema.
  destruct (readSchema_table_indexes _ _ _ _ _ E) as (indices & tables & Hi & Ht & Hf).
  exists indices, tables. repeat split; assumption.
Defined.

(** *** Columns *)

Lemma forEach_inr {A B} (f : A -> result B) (l : list A) :
  forall bs, forEach f l = inr bs -> Forall2 (fun a b => f a = inr b) l bs.
Proof.
  induction l as [|a l IH]; intros bs H; cbn [forEach] in H.
  - injection H as <-. constructor.
  - destruct (f a) as [e|b] eqn:E; [discriminate|].
    destruct (forEach f l) as [e|bs'] eqn:El; [discriminate|].
    injection H as <-. constructor; [exact E|now apply IH].
Qed.

Lemma forEach_ok {A B} (f : A -> result B) (l : list A) :
  isErr (forEach f l) = false <-> Forall (fun a => isErr (f a) = false) l.
Proof.
  induction l as [|a l IH]; cbn [forEach].
  - split; [constructor|reflexivity].
  - destruct (f a) as [e|b] eqn:E.
    + split; [discriminate|]. intros H. inversion H as [|? ? Ha _]; subst.
      rewrite E in Ha. discriminate.
    + destruct (forEach f l) as [e|bs].
      * split; [discriminate|]. intros H. inversion H as [|? ? _ Hl]; subst.
        apply IH in Hl. discriminate.
      * split; [|reflexivity]. intros _. constructor; [now rewrite E|now apply IH].
Qed.

Lemma scanColumn_ok (r : columnRow) : isErr (scanColumn r) = false <-> yesOrNo r.
Proof.
  unfold scanColumn, convertBoolFromYesNo, yesOrNo, rbind.
  destruct (String.eqb (row_isNullable r) "YES") eqn:Ey.
  - apply String.eqb_eq in Ey. split; [now left|reflexivity].
  - destruct (String.eqb (row_isNullable r) "NO") eqn:En.
    + apply String.eqb_eq in En. split; [now right|reflexivity].
    + apply String.eqb_neq in Ey, En. split; [discriminate|]. intros [H|H]; congruence.
Qed.

Lemma scanColumn_inr (r : columnRow) (c : columnSchema) :
  scanColumn r = inr c ->
  columnName c = row_columnName r
  /\ isNullable c = String.eqb (row_isNullable r) "YES".
Proof.
  unfold scanColumn, convertBoolFromYesNo, rbind.
  destruct (String.eqb (row_isNullable r) "YES") eqn:Ey.
  - intros [= <-]. split; reflexivity.
  - destruct (String.eqb (row_isNullable r) "NO"); [|discriminate].
    intros [= <-]. split; reflexivity.
Qed.

(** X10: [getTableColumns] returns the columns of a table when, and only
    when, the rows end without an error and every row says YES or NO, in
    capitals, for its nullability; the columns then come in the order of
    the rows, nullable where the row says YES. *)
Theorem getTableColumns_nullable (txn : Tx) (schemaName tableName : string)
        (rows : Rows columnRow) :
  query_columns txn schemaName tableName = inr rows ->
  (isErr (getTableColumns txn schemaName tableName) = false
   <-> Forall yesOrNo (scanned rows) /\ failure rows = None)
  /\ (forall columns,
         getTableColumns txn schemaName tableName = inr columns ->
         map columnName columns = map row_columnName (scanned rows)
         /\ map isNullable columns
            = map (fun r => String.eqb (row_isNullable r) "YES") (scanned rows)).
Proof.
  intros Hq. unfold getTableColumns. rewrite Hq. cbn [rbind]. split.
  - pose proof (forEach_ok scanColumn (scanned rows)) as Hf.
    destruct (forEach scanColumn (scanned rows)) as [e|columns]; cbn [rbind].
    + split; [discriminate|]. intros [Hall _]. apply Hf.
      eapply Forall_impl; [exact Hall|]. intros r. apply scanColumn_ok.
    + assert (Hall : Forall yesOrNo (scanned rows)).
      { eapply Forall_impl; [apply Hf; reflexivity|]. intros r. apply scanColumn_ok. }
      destruct (failure rows); split; try discriminate; try tauto.
      intros [_ H]. discriminate.
  - intros columns. destruct (forEach scanColumn (scanned rows)) as [e|cols] eqn:Ef;
      cbn [rbind]; [discriminate|].
    destruct (failure rows); [discriminate|]. intros [= <-].
    apply forEach_inr in Ef. induction Ef as [|r c rs cs Hc _ IH]; [split; reflexivity|].
    destruct (scanColumn_inr r c Hc) as [Hn Hb]. destruct IH as [IH1 IH2].
    cbn [map]. now rewrite Hn, Hb, IH1, IH2.
Qed.

Lemma getTableColumns_nullable_witness :
  (isErr (getTableColumns DemoCatalog.tx "public" "orders") = false
   <-> Forall yesOrNo (scanned DemoCatalog.columnRows)
       /\ failure DemoCatalog.columnRows = None)
  /\ (forall columns,
         getTableColumns DemoCatalog.tx "public" "orders" = inr columns ->
         map columnName columns = ["id"; "customer_id"; "created_at"]
         /\ map isNullable columns = [false; true; false]).
Proof.
  apply (getTableColumns_nullable DemoCatalog.tx "public" "orders" DemoCatalog.columnRows).
  reflexivity.
Defined.

(** *** The transaction of a database sync *)

(** X11: once the transaction of a database sync has begun, the sync calls
    Commit when, and only when, every read succeeded, and Rollback once, as
    its last call, on every path; it returns a snapshot when, and only
    when, the reads and the commit succeeded. *)
Theorem SyncDBSchema_transaction
        (driver : Driver) (databaseName : string) (st : State)
        (databases : list pgDatabaseSchema) (database : pgDatabaseSchema)
        (sqldb : DB) (txn : Tx) :
  getDatabases driver = inr databases ->
  findDatabase databases databaseName = Some database ->
  GetDBConnection driver databaseName = inr sqldb ->
  BeginTx sqldb = inr txn ->
  let reads := readSchema (nowUnix driver) txn databaseName database in
  let run := SyncDBSchema driver databaseName st in
  events (snd run) = events st ++ transactionTrace databaseName (isErr reads)
  /\ (isErr (fst run) = false <-> isErr reads = false /\ Commit txn = None).
Proof.
  intros Hd Hf Hc Hb. cbv zeta.
  unfold SyncDBSchema, defer, bind, ret, emit, modify, transactionTrace.
  rewrite Hd. cbn. rewrite Hf. cbn. rewrite Hc. cbn. rewrite Hb. cbn.
  destruct (readSchema (nowUnix driver) txn databaseName database) as [e|schema]; cbn.
  - split; [now rewrite <- !app_assoc|]. split; [discriminate|]. intros [H _]. discriminate.
  - destruct (Commit txn) as [e|]; cbn.
    + split; [now rewrite <- !app_assoc|]. split; [discriminate|]. intros [_ H]. discriminate.
    + split; [now rewrite <- !app_assoc|]. split; auto.
Qed.

Lemma SyncDBSchema_transaction_witness :
  events (snd (SyncDBSchema DemoCatalog.pgDriver "shop" initialState))
  = events initialState
    ++ [EvGetDatabases; EvGetDBConnection "shop"; EvBeginTx; EvCommit; EvRollback]
  /\ (isErr (fst (SyncDBSchema DemoCatalog.pgDriver "shop" initialState)) = false
      <-> false = false /\ Commit DemoCatalog.tx = None).
Proof.
  apply (SyncDBSchema_transaction DemoCatalog.pgDriver "shop" initialState Demo.databases
           {| name := "shop"; encoding := "UTF8"; collate := "en_US.UTF-8" |}
           {| BeginTx := inr DemoCatalog.tx |} DemoCatalog.tx); reflexivity.
Defined.

(** *** What a snapshot lists *)

Lemma getPgTables_names (txn : Tx) (rows : Rows tableRow) (tables : list tableSchema) :
  query_pg_tables txn = inr rows ->
  getPgTables txn = inr tables ->
  map tableKey tables = map rowKey (scanned rows).
Proof.
  intros Hq. unfold getPgTables.
  destruct (getTableConstraints txn) as [e|constraints]; [discriminate|].
  rewrite Hq. cbn [rbind]. destruct (failure rows); [discriminate|].
  intros H. apply forEach_inr in H. revert tables H.
  induction (scanned rows) as [|r rs IH]; intros tables H; cbn [map] in *.
  - inversion H. reflexivity.
  - inversion H as [|? tbl ? tables' Hhd Htl]; subst. cbn [map].
    f_equal; [|now apply IH].
    destruct (getTable txn _) as [e|tbl'] eqn:Et; [discriminate|].
    apply getTable_names in Et. cbn [tableSchemaName tableName] in Et. destruct Et as [E1 E2].
    destruct (getTableColumns txn _ _); [discriminate|].
    injection Hhd as <-. unfold tableKey, rowKey. cbn [tableSchemaName tableName].
    now rewrite E1, E2.
Qed.

Lemma scanViews_names (rows : list (string * string * NullString)) :
  forall acc views,
    scanViews rows acc = inr views ->
    map (fun v => viewSchemaName v +:+ "." +:+ viewName v) views
    = map (fun v => viewSchemaName v +:+ "." +:+ viewName v) acc ++ map viewRowKey rows.
Proof.
  induction rows as [|[[s n] def] rows IH]; intros acc views H; cbn [scanViews] in H.
  - injection H as <-. cbn [map]. now rewrite app_nil_r.
  - destruct def as [d|]; [|discriminate]. rewrite (IH _ _ H).
    rewrite map_app, <- app_assoc. reflexivity.
Qed.

Lemma getViews_names (txn : Tx) (rows : Rows (string * string * NullString))
      (views : list viewSchema) :
  query_pg_views txn = inr rows ->
  getViews txn = inr views ->
  map (fun v => viewSchemaName v +:+ "." +:+ viewName v) views = map viewRowKey (scanned rows).
Proof.
  intros Hq. unfold getViews. rewrite Hq. cbn [rbind].
  destruct (scanViews (scanned rows) []) as [e|scannedViews] eqn:Es; cbn [rbind]; [discriminate|].
  apply scanViews_names in Es. cbn [map app] in Es. rewrite <- Es.
  destruct (failure rows); [discriminate|]. intros H. apply forEach_inr in H.
  clear Es. induction H as [|v v' vs vs' Hv _ IH]; [reflexivity|].
  cbn [map]. rewrite IH. f_equal.
  unfold getView, rbind in Hv. destruct (getComment txn _ _ _); [discriminate|].
  injection Hv as <-. reflexivity.
Qed.

Lemma toViews_spec (now : nat -> Z) (views : list viewSchema) :
  forall i,
    map db.ViewName (toViews now i views)
    = map (fun v => viewSchemaName v +:+ "." +:+ viewName v) views
    /\ map db.ViewCreatedTs (toViews now i views) = map now (seq i (length views)).
Proof.
  induction views as [|v views IH]; intros i; cbn [toViews map length seq];
    [split; reflexivity|].
  destruct (IH (S i)) as [Hn Ht]. split; [now rewrite Hn|now rewrite Ht].
Qed.

(** X12: a snapshot that a database sync returns carries the name that was
    asked for, one table for every row of the table query, in order and
    under the name schema, dot, table, and one view for every row of the
    view query, in order; the i-th view carries what the clock answered at
    its i-th reading, one reading for each view. *)
Theorem SyncDBSchema_lists_catalog
        (driver : Driver) (databaseName : string) (st : State) (schema : db.Schema)
        (sqldb : DB) (txn : Tx)
        (tableRows : Rows tableRow) (viewRows : Rows (string * string * NullString)) :
  GetDBConnection driver databaseName = inr sqldb ->
  BeginTx sqldb = inr txn ->
  query_pg_tables txn = inr tableRows ->
  query_pg_views txn = inr viewRows ->
  fst (SyncDBSchema driver databaseName st) = inr schema ->
  db.SchemaName schema = databaseName
  /\ map db.TableName (db.TableList schema) = map rowKey (scanned tableRows)
  /\ map db.ViewName (db.ViewList schema) = map viewRowKey (scanned viewRows)
  /\ map db.ViewCreatedTs (db.ViewList schema)
     = map (nowUnix driver) (seq 0 (length (scanned viewRows))).
Proof.
  intros Hc Hb Ht Hv H.
  destruct (SyncDBSchema_inr _ _ _ _ H)
    as (databases & database & sqldb' & txn' & _ & _ & Hc' & Hb' & Hr & _).
  rewrite Hc in Hc'. injection Hc' as <-. rewrite Hb in Hb'. injection Hb' as <-.
  destruct (readSchema_parts _ _ _ _ _ Hr)
    as (indices & tables & views & extensions & _ & Htables & Hviews & _ & Hn & Hl & Hvl & _).
  destruct (toViews_spec (nowUnix driver) views 0) as [Hnames Hstamps].
  pose proof (getViews_names txn viewRows views Hv Hviews) as Hrows.
  split; [exact Hn|]. rewrite Hl, Hvl, map_map. repeat split.
  - rewrite <- (getPgTables_names txn tableRows tables Ht Htables). reflexivity.
  - now rewrite Hnames.
  - rewrite Hstamps. f_equal. f_equal.
    rewrite <- (length_map (fun v => viewSchemaName v +:+ "." +:+ viewName v) views), Hrows.
    apply length_map.
Qed.

Lemma SyncDBSchema_lists_catalog_witness :
  exists schema,
    fst (SyncDBSchema DemoCatalog.pgDriver "shop" initialState) = inr schema
    /\ db.SchemaName schema = "shop"
    /\ map db.TableName (db.TableList schema) = ["public.orders"]
    /\ map db.ViewName (db.ViewList schema) = ["public.orders_v"; "public.late_orders_v"]
    /\ map db.ViewCreatedTs (db.ViewList schema) = [1667347200; 1667347201].
Proof.
  eexists. split; [vm_compute; reflexivity|].
  apply (SyncDBSchema_lists_catalog DemoCatalog.pgDriver "shop" initialState _
           {| BeginTx := inr DemoCatalog.tx |} DemoCatalog.tx
           DemoCatalog.tableRows DemoCatalog.viewRows); reflexivity.
Defined.

(** *** The denylist across instance syncs *)

Lemma excludeSystemDatabases_lookup (sys excl : gmap string bool) (k : string) :
  excludeSystemDatabases sys excl !! k
  = if decide (k ∈ dom sys) then Some true else excl !! k.
Proof.
  assert (H : (k ∈ dom sys -> excludeSystemDatabases sys excl !! k = Some true)
              /\ (k ∉ dom sys -> excludeSystemDatabases sys excl !! k = excl !! k)).
  { unfold excludeSystemDatabases.
    apply (map_fold_weak_ind
             (fun (r : gmap string bool) (m : gmap string bool) =>
                (k ∈ dom m -> r !! k = Some true) /\ (k ∉ dom m -> r !! k = excl !! k))).
    - rewrite dom_empty_L. split; [set_solver|reflexivity].
    - intros j x m r _ [IH1 IH2]. rewrite dom_insert_L.
      destruct (decide (j = k)) as [->|Hne].
      + rewrite lookup_insert_eq. split; [reflexivity|set_solver].
      + rewrite lookup_insert_ne by assumption. split.
        * intros Hin. apply IH1. set_solver.
        * intros Hin. apply IH2. set_solver. }
  destruct H as [H1 H2]. destruct (decide (k ∈ dom sys)); auto.
Qed.

Lemma excludeSystemDatabases_twice (sys excl : gmap string bool) :
  excludeSystemDatabases sys (excludeSystemDatabases sys excl)
  = excludeSystemDatabases sys excl.
Proof.
  apply map_eq. intros k. rewrite !excludeSystemDatabases_lookup.
  now destruct (decide (k ∈ dom sys)).
Qed.

Lemma SyncInstance_excluded sys driver st :
  excluded (snd (SyncInstance sys driver st))
  = if (isErr (getVersion driver)
        || match query_pg_user driver with
           | inl _ => true
           | inr rows => match failure rows with Some _ => true | None => false end
           end)%bool
    then excluded st
    else excludeSystemDatabases sys (excluded st).
Proof.
  unfold SyncInstance, getUserList, bind, ret, modify, get, emit. cbn.
  destruct (getVersion driver); cbn; [reflexivity|].
  destruct (query_pg_user driver) as [e|rows]; cbn; [reflexivity|].
  destruct (failure rows); cbn; [reflexivity|].
  destruct (getDatabases driver); reflexivity.
Qed.



(** X14: a second instance sync, on whatever server, leaves the denylist
    as a first one that got the version and the users left it. *)
Theorem SyncInstance_denylist_settles
        (sys : gmap string bool) (first second : Driver) (st : State)
        (version : string) (users : list (string * string)) :
  getVersion first = inr version ->
  query_pg_user first = inr {| scanned := users; failure := None |} ->
  excluded (snd (SyncInstance sys second (snd (SyncInstance sys first st))))
  = excluded (snd (SyncInstance sys first st)).
Proof.
  intros Hv Hu. rewrite (SyncInstance_excluded sys second).
  destruct (_ || _)%bool; [reflexivity|].
  rewrite (SyncInstance_excluded sys first), Hv, Hu. cbn.
  apply excludeSystemDatabases_twice.
Qed.

Lemma SyncInstance_denylist_settles_witness :
  excluded (snd (SyncInstance Demo.systemDatabases DemoCatalog.unreachable
                   (snd (SyncInstance Demo.systemDatabases DemoCatalog.pgDriver initialState))))
  = excluded (snd (SyncInstance Demo.systemDatabases DemoCatalog.pgDriver initialState)).
Proof.
  apply (SyncInstance_denylist_settles Demo.systemDatabases DemoCatalog.pgDriver
           DemoCatalog.unreachable initialState "14.2" [("bb", "superuser")]);
    reflexivity.
Defined.

(** *** Row count and comment of a table *)

Lemma fold_left_last {A B} (g : B -> A) (l : list B) :
  forall a, fold_left (fun _ b => g b) l a = from_option g a (last l).
Proof.
  induction l as [|b l IH]; intros a; [reflexivity|].
  cbn [fold_left]. rewrite IH. destruct l as [|b0 l]; [reflexivity|].
  change (last (b :: b0 :: l)) with (last (b0 :: l)).
  destruct (last (b0 :: l)) eqn:E; [reflexivity|].
  apply last_None in E. discriminate.
Qed.

(** X15: [getTable] changes the row count and the comment of a table and
    nothing else: each is taken from the last row of its query and stays
    as it was when the query has no row; a NULL comment reads as the empty
    string. *)
Theorem getTable_last_row (txn : Tx) (tbl tbl' : tableSchema)
        (counts : Rows Z) (comments : Rows NullString) :
  query_count txn (tableSchemaName tbl) (tableName tbl) = inr counts ->
  query_obj_description txn (tableSchemaName tbl) (tableName tbl) = inr comments ->
  getTable txn tbl = inr tbl' ->
  tbl' = {| tableSchemaName := tableSchemaName tbl;
            tableName := tableName tbl;
            tableowner := tableowner tbl;
            tableComment :=
              from_option nullStringValue (tableComment tbl) (last (scanned comments));
            rowCount := default (rowCount tbl) (last (scanned counts));
            tableSizeByte := tableSizeByte tbl;
            indexSizeByte := indexSizeByte tbl;
            columns := columns tbl;
            constraints := constraints tbl |}.
Proof.
  intros Hn Hc. unfold getTable, getComment, lastComment. rewrite Hn, Hc. cbn [rbind].
  destruct (failure counts); [discriminate|].
  destruct (failure comments); [discriminate|]. intros [= <-].
  rewrite (fold_left_last nullStringValue), (fold_left_last (fun n : Z => n)).
  reflexivity.
Qed.

Lemma getTable_last_row_witness :
  exists tbl',
    getTable DemoCatalog.tx
      {| tableSchemaName := "public"; tableName := "orders"; tableowner := "bb";
         tableComment := ""; rowCount := 0; tableSizeByte := 8192; indexSizeByte := 16384;
         columns := []; constraints := [] |}
    = inr tbl'
    /\ tbl' = {| tableSchemaName := "public"; tableName := "orders"; tableowner := "bb";
                 tableComment := "customer orders"; rowCount := 2;
                 tableSizeByte := 8192; indexSizeByte := 16384;
                 columns := []; constraints := [] |}.
Proof.
  eexists. split; [reflexivity|].
  apply (getTable_last_row DemoCatalog.tx
           {| tableSchemaName := "public"; tableName := "orders"; tableowner := "bb";
              tableComment := ""; rowCount := 0; tableSizeByte := 8192;
              indexSizeByte := 16384; columns := []; constraints := [] |}
           _ {| scanned := [2]; failure := None |}
           {| scanned := [Some "customer orders"]; failure := None |});
    reflexivity.
Defined.

End PgCatalogFacts.

(* ===================================================================== *)
(** ** More facts about the executor: failures, calls and the store *)
(* ===================================================================== *)

Module ExecutorFacts.
Import GoStrings Server ServerSpec ExecutorSpec ServerFacts.
#[local] Open Scope go_scope.

(** *** Failures before the migration *)

(** X16: on a payload that does not decode, [RunOnce] returns terminated
    with the decoder's error wrapped, and leaves the world as it was but
    for the completion flag. *)
Theorem RunOnce_invalid_payload
        (pkg : Imports) (server : Server) (task : api.Task) (w : World) (err : error) :
  Unmarshal pkg (api.Payload task) = inl err ->
  RunOnce pkg server task w
  = (Returns (true, None, Some (Errorf "invalid create database payload: %w" [ArgErr err])),
     withExecutor {| completed := 1 |} w).
Proof.
  intros Hp. unfold RunOnce. rewrite defer_run, Hp. reflexivity.
Qed.

Lemma RunOnce_invalid_payload_witness :
  RunOnce Demo.pkg Demo.server (Demo.task "{") (Demo.world [[Demo.shopFound]])
  = (Returns (true, None,
              Some (Errorf "invalid create database payload: %w"
                      [ArgErr (External "unexpected end of JSON input")])),
     withExecutor {| completed := 1 |} (Demo.world [[Demo.shopFound]])).
Proof. apply RunOnce_invalid_payload. reflexivity. Defined.

(** X17: when the administrative driver cannot be had, [RunOnce] returns
    terminated with that error as it is; it has asked for the driver and
    done nothing else: no driver is closed, no migration run, and the
    store is as it was. *)
Theorem RunOnce_no_driver
        (pkg : Imports) (server : Server) (task : api.Task) (w : World)
        (payload : api.TaskDatabaseCreatePayload) (err : error) :
  Unmarshal pkg (api.Payload task) = inr payload ->
  TrimSpace (api.Statement payload) <> "" ->
  getAdminDatabaseDriver server (api.TaskInstance task) "" = inl err ->
  RunOnce pkg server task w
  = (Returns (true, None, Some err),
     withExecutor {| completed := 1 |}
       (withEffects (effects w ++ [GetAdminDriver (api.TaskInstance task) ""]) w)).
Proof.
  intros Hp Hs Hd. unfold RunOnce. rewrite defer_run, Hp. cbv zeta.
  apply String.eqb_neq in Hs. rewrite Hs.
  rewrite bind_run. cbn [effect modify fst snd]. rewrite Hd. reflexivity.
Qed.

Lemma RunOnce_no_driver_witness :
  RunOnce Demo.pkg DemoLabels.offline (Demo.task Demo.createShop) (Demo.world [])
  = (Returns (true, None, Some (External "connection refused")),
     withExecutor {| completed := 1 |}
       (withEffects [GetAdminDriver Demo.instance ""] (Demo.world []))).
Proof.
  apply (RunOnce_no_driver Demo.pkg DemoLabels.offline (Demo.task Demo.createShop)
           (Demo.world [])
           {| api.DatabaseName := "shop";
              api.ProjectID := 42;
              api.SchemaVersion := "v1";
              api.CharacterSet := "UTF8";
              api.Collation := "en_US.UTF-8";
              api.Labels := "";
              api.Statement := Demo.createShop |});
    [reflexivity|vm_compute; discriminate|reflexivity].
Defined.

(** *** The calls that are recorded *)

Lemma effects_logged (es : list Effect) : forall w, effects (logged es w) = effects w ++ es.
Proof.
  unfold logged. induction es as [|e es IH]; intros w; cbn [fold_left].
  - now rewrite app_nil_r.
  - rewrite IH. cbn [effects withEffects]. now rewrite <- app_assoc.
Qed.

Lemma sameStore_logged (es : list Effect) : forall w, sameStore w (logged es w).
Proof.
  unfold logged. induction es as [|e es IH]; intros w; cbn [fold_left].
  - repeat split.
  - destruct (IH (withEffects (effects w ++ [e]) w)) as (H1 & H2 & H3 & H4).
    repeat split; assumption.
Qed.

Lemma tableConstraints_sameStore (w w' : World) :
  sameStore w w' -> tableConstraints w -> tableConstraints w'.
Proof.
  intros (H1 & H2 & _ & _). unfold tableConstraints. now rewrite H1, H2.
Qed.

(** *** The calls on the store record nothing *)

Lemma quiet_ret {A} (a : A) : quiet (ret a).
Proof. intros w. reflexivity. Qed.

Lemma quiet_bind {A B} (m : M World A) (k : A -> M World B) :
  quiet m -> (forall a, quiet (k a)) -> quiet (bind m k).
Proof. intros Hm Hk w. rewrite bind_run, Hk. apply Hm. Qed.

Lemma quiet_modify (f : World -> World) :
  (forall w, effects (f w) = effects w) -> quiet (modify f).
Proof. intros H w. apply H. Qed.

Lemma quiet_get : quiet (@get World).
Proof. intros w. reflexivity. Qed.

Lemma quiet_concurrentSync pkg : quiet (concurrentSync pkg).
Proof.
  intros w. rewrite concurrentSync_run. cbn [snd]. now rewrite effects_discoverAll.
Qed.

Lemma quiet_GetDatabase pkg server find : quiet (GetDatabase pkg server find).
Proof.
  unfold GetDatabase. apply quiet_bind; [apply quiet_concurrentSync|]. intros _.
  destruct (storeFailure server _); [apply quiet_ret|].
  apply quiet_bind; [apply quiet_get|]. intros w. apply quiet_ret.
Qed.

Lemma quiet_CreateDatabase pkg server create : quiet (CreateDatabase pkg server create).
Proof.
  unfold CreateDatabase. apply quiet_bind; [apply quiet_concurrentSync|]. intros _.
  destruct (storeFailure server _); [apply quiet_ret|].
  apply quiet_bind; [apply quiet_get|]. intros w.
  destruct (List.find _ _); [destruct (createConflict server); [apply quiet_ret|]|];
    (apply quiet_bind; [now apply quiet_modify|]); intros _; apply quiet_ret.
Qed.

Lemma quiet_PatchDatabase pkg server patch : quiet (PatchDatabase pkg server patch).
Proof.
  unfold PatchDatabase. apply quiet_bind; [apply quiet_concurrentSync|]. intros _.
  destruct (storeFailure server _); [apply quiet_ret|].
  apply quiet_bind; [apply quiet_get|]. intros w.
  destruct (List.find _ _); [|apply quiet_ret].
  apply quiet_bind; [now apply quiet_modify|]. intros _. apply quiet_ret.
Qed.

Lemma quiet_PatchTask pkg server patch : quiet (PatchTask pkg server patch).
Proof.
  unfold PatchTask. apply quiet_bind; [apply quiet_concurrentSync|]. intros _.
  destruct (storeFailure server _); [apply quiet_ret|].
  destruct (api.TaskPatchDatabaseID patch); [|apply quiet_ret].
  apply quiet_bind; [now apply quiet_modify|]. intros _. apply quiet_ret.
Qed.

Lemma quiet_resolveDatabase pkg server task payload instance :
  quiet (resolveDatabase pkg server task payload instance).
Proof.
  unfold resolveDatabase. apply quiet_bind; [apply quiet_GetDatabase|].
  intros [e|[database|]];
    [apply quiet_ret|apply quiet_PatchDatabase|apply quiet_CreateDatabase].
Qed.

(** After the migration, [executeAndRecord] records at most the call that
    sets the labels. *)
Lemma executeAndRecord_trace pkg server task payload instance driver statement mi w :
  exists rest,
    effects (snd (executeAndRecord pkg server task payload instance driver statement mi w))
    = effects w ++ [Migration mi statement] ++ rest
    /\ (rest = []
        \/ exists database project,
             api.Labels payload <> ""
             /\ GetProjectByID server (api.ProjectID payload) = inr (Some project)
             /\ rest = [SetLabels (api.Labels payload) database project]).
Proof.
  unfold executeAndRecord. rewrite bind_run. cbn [effect modify fst snd].
  set (w0 := withEffects (effects w ++ [Migration mi statement]) w).
  assert (H0 : effects w0 = effects w ++ [Migration mi statement]) by reflexivity.
  destruct (ExecuteMigration driver mi statement) as [e|[migrationID echoed]].
  { exists []. split; [cbn [ret snd]; now rewrite H0, app_nil_r|now left]. }
  rewrite bind_run.
  pose proof (quiet_resolveDatabase pkg server task payload instance w0) as H1.
  destruct (resolveDatabase pkg server task payload instance w0) as [[e|database] w1];
    cbn [fst snd] in *.
  { exists []. split; [cbn [ret snd]; now rewrite H1, H0, app_nil_r|now left]. }
  rewrite bind_run.
  match goal with |- context [PatchTask ?a ?b ?c ?x] =>
    pose proof (quiet_PatchTask a b c x) as H2;
    destruct (PatchTask a b c x) as [[e|?] w2] end; cbn [fst snd] in *.
  { exists []. split; [cbn [ret snd]; now rewrite H2, H1, H0, app_nil_r|now left]. }
  assert (H3 : effects w2 = effects w ++ [Migration mi statement])
    by (now rewrite H2, H1, H0).
  destruct (String.eqb (api.Labels payload) "") eqn:El; cbn [negb].
  { exists []. split; [cbn [ret snd]; now rewrite H3, app_nil_r|now left]. }
  apply String.eqb_neq in El.
  destruct (GetProjectByID server (api.ProjectID payload)) as [e|[project|]] eqn:Eg.
  - exists []. split; [cbn [ret snd]; now rewrite H3, app_nil_r|now left].
  - exists [SetLabels (api.Labels payload) database project]. split.
    + rewrite bind_run. cbn [effect modify fst snd].
      destruct (setDatabaseLabels _ _ _ _ _ _); cbn [ret snd effects withEffects];
        now rewrite H3, <- app_assoc.
    + right. exists database, project. repeat split; assumption.
  - exists []. split; [cbn [ret snd]; now rewrite H3, app_nil_r|now left].
Qed.

(** X18: once the driver is there, the calls that [RunOnce] makes outside
    the store are, in order: the request for the driver, the debug line,
    the error lines of the lineage, the migration, at most one call that
    sets the labels (only for a payload with labels whose project was
    found), and the closing of the driver: one migration, with the forced
    baseline info.  That is so unless the principal lookup answers with
    neither a principal nor an error: then [RunOnce] panics after the
    debug line and runs no migration.  The driver is closed once, last, on
    both paths. *)
Theorem RunOnce_calls
        (pkg : Imports) (server : Server) (task : api.Task) (w : World)
        (payload : api.TaskDatabaseCreatePayload) (driver : Driver) :
  Unmarshal pkg (api.Payload task) = inr payload ->
  TrimSpace (api.Statement payload) <> "" ->
  getAdminDatabaseDriver server (api.TaskInstance task) "" = inr driver ->
  match creatorOf (GetPrincipalByID server (api.CreatorID task)) with
  | None =>
      fst (RunOnce pkg server task w) = Panics nilDereference
      /\ effects (snd (RunOnce pkg server task w))
         = effects w ++ untilLookup task ++ [CloseDriver]
  | Some creator =>
      exists out rest,
        fst (RunOnce pkg server task w) = Returns out
        /\ effects (snd (RunOnce pkg server task w))
           = effects w ++ untilMigration server task payload creator ++ rest ++ [CloseDriver]
        /\ (rest = []
            \/ exists database project,
                 api.Labels payload <> ""
                 /\ GetProjectByID server (api.ProjectID payload) = inr (Some project)
                 /\ rest = [SetLabels (api.Labels payload) database project])
  end.
Proof.
  intros Hp Hs Hd.
  destruct (creatorOf (GetPrincipalByID server (api.CreatorID task))) as [creator|] eqn:Hc.
  - rewrite (RunOnce_with_driver _ _ _ _ _ _ _ Hp Hs Hd Hc). cbv zeta.
    cbn [fst snd effects withExecutor withEffects].
    match goal with |- context [executeAndRecord ?a ?b ?c ?d ?e ?f ?g ?h ?x] =>
      destruct (executeAndRecord_trace a b c d e f g h x) as (rest & Hm & Hrest) end.
    eexists _, rest. split; [reflexivity|]. split; [|exact Hrest].
    rewrite Hm, effects_logged. unfold untilMigration. now rewrite <- !app_assoc.
  - rewrite (RunOnce_nil_principal _ _ _ _ _ _ Hp Hs Hd Hc).
    cbn [fst snd effects withExecutor]. split; [reflexivity|apply effects_logged].
Qed.

Lemma RunOnce_calls_witness :
  (exists out rest,
      fst (RunOnce Demo.pkg Demo.server (Demo.task Demo.createShop) (Demo.world []))
      = Returns out
      /\ effects (snd (RunOnce Demo.pkg Demo.server (Demo.task Demo.createShop)
                         (Demo.world [])))
         = effects (Demo.world [])
           ++ untilMigration Demo.server (Demo.task Demo.createShop)
                {| api.DatabaseName := "shop";
                   api.ProjectID := 42;
                   api.SchemaVersion := "v1";
                   api.CharacterSet := "UTF8";
                   api.Collation := "en_US.UTF-8";
                   api.Labels := "";
                   api.Statement := Demo.createShop |}
                (inl (External "principal not found"))
           ++ rest ++ [CloseDriver]
      /\ (rest = []
          \/ exists database project,
               "" <> ""
               /\ GetProjectByID Demo.server 42 = inr (Some project)
               /\ rest = [SetLabels "" database project]))
  /\ fst (RunOnce Demo.pkg DemoLabels.nobody (Demo.task Demo.createShop) (Demo.world []))
     = Panics nilDereference
  /\ effects (snd (RunOnce Demo.pkg DemoLabels.nobody (Demo.task Demo.createShop)
                     (Demo.world [])))
     = effects (Demo.world []) ++ untilLookup (Demo.task Demo.createShop) ++ [CloseDriver].
Proof.
  split.
  - apply (RunOnce_calls Demo.pkg Demo.server (Demo.task Demo.createShop) (Demo.world [])
             {| api.DatabaseName := "shop";
                api.ProjectID := 42;
                api.SchemaVersion := "v1";
                api.CharacterSet := "UTF8";
                api.Collation := "en_US.UTF-8";
                api.Labels := "";
                api.Statement := Demo.createShop |} Demo.adminDriver);
      [reflexivity|vm_compute; discriminate|reflexivity].
  - apply (RunOnce_calls Demo.pkg DemoLabels.nobody (Demo.task Demo.createShop)
             (Demo.world [])
             {| api.DatabaseName := "shop";
                api.ProjectID := 42;
                api.SchemaVersion := "v1";
                api.CharacterSet := "UTF8";
                api.Collation := "en_US.UTF-8";
                api.Labels := "";
                api.Statement := Demo.createShop |} Demo.adminDriver);
      [reflexivity|vm_compute; discriminate|reflexivity].
Defined.

(** *** A migration that fails *)

(** X19: when the migration fails, [RunOnce] returns terminated with the
    driver's error and no result, closes the driver, and leaves the
    database rows and the task's database as they were: it has made no
    call on the store's database and task tables. *)
Theorem RunOnce_migration_fails
        (pkg : Imports) (server : Server) (task : api.Task) (w : World)
        (payload : api.TaskDatabaseCreatePayload) (driver : Driver)
        (creator : result api.Principal) (err : error) :
  Unmarshal pkg (api.Payload task) = inr payload ->
  TrimSpace (api.Statement payload) <> "" ->
  getAdminDatabaseDriver server (api.TaskInstance task) "" = inr driver ->
  creatorOf (GetPrincipalByID server (api.CreatorID task)) = Some creator ->
  ExecuteMigration driver (migrationInfoOf server task payload creator)
    (TrimSpace (api.Statement payload)) = inl err ->
  fst (RunOnce pkg server task w) = Returns (true, None, Some err)
  /\ sameStore w (snd (RunOnce pkg server task w))
  /\ effects (snd (RunOnce pkg server task w))
     = effects w ++ untilMigration server task payload creator ++ [CloseDriver].
Proof.
  intros Hp Hs Hd Hc He. rewrite (RunOnce_with_driver _ _ _ _ _ _ _ Hp Hs Hd Hc).
  cbv zeta. cbn [fst snd].
  unfold executeAndRecord. rewrite bind_run. cbn [effect modify fst snd]. rewrite He.
  cbn [ret fst snd]. split; [reflexivity|].
  match goal with |- context [logged ?es w] =>
    pose proof (sameStore_logged es w) as (H1 & H2 & H3 & H4);
    pose proof (effects_logged es w) as H5 end.
  split.
  - repeat split; cbn; assumption.
  - cbn [effects withExecutor withEffects]. rewrite H5. unfold untilMigration.
    now rewrite <- !app_assoc.
Qed.

Lemma RunOnce_migration_fails_witness :
  fst (RunOnce Demo.pkg DemoLabels.refusing (Demo.task Demo.createShop)
         (Demo.world [[Demo.shopFound]]))
  = Returns (true, None, Some (External "permission denied to create database"))
  /\ sameStore (Demo.world [[Demo.shopFound]])
       (snd (RunOnce Demo.pkg DemoLabels.refusing (Demo.task Demo.createShop)
               (Demo.world [[Demo.shopFound]])))
  /\ effects (snd (RunOnce Demo.pkg DemoLabels.refusing (Demo.task Demo.createShop)
                     (Demo.world [[Demo.shopFound]])))
     = effects (Demo.world [[Demo.shopFound]])
       ++ untilMigration DemoLabels.refusing (Demo.task Demo.createShop)
            {| api.DatabaseName := "shop";
               api.ProjectID := 42;
               api.SchemaVersion := "v1";
               api.CharacterSet := "UTF8";
               api.Collation := "en_US.UTF-8";
               api.Labels := "";
               api.Statement := Demo.createShop |}
            (inl (External "principal not found"))
       ++ [CloseDriver].
Proof.
  apply (RunOnce_migration_fails Demo.pkg DemoLabels.refusing (Demo.task Demo.createShop)
           (Demo.world [[Demo.shopFound]])
           {| api.DatabaseName := "shop";
              api.ProjectID := 42;
              api.SchemaVersion := "v1";
              api.CharacterSet := "UTF8";
              api.Collation := "en_US.UTF-8";
              api.Labels := "";
              api.Statement := Demo.createShop |}
           {| ExecuteMigration :=
                fun _ _ => inl (External "permission denied to create database") |});
    [reflexivity|vm_compute; discriminate|reflexivity|reflexivity|reflexivity].
Defined.

(** *** The row of the database after the run *)

Lemma GetDatabase_fails pkg server find w e :
  storeFailure server CallGetDatabase = Some e ->
  fst (GetDatabase pkg server find w) = inl e.
Proof. intros H. unfold GetDatabase. rewrite bind_run, H. reflexivity. Qed.

Lemma CreateDatabase_fails pkg server create w e :
  storeFailure server CallCreateDatabase = Some e ->
  fst (CreateDatabase pkg server create w) = inl e.
Proof. intros H. unfold CreateDatabase. rewrite bind_run, H. reflexivity. Qed.

Lemma PatchDatabase_fails pkg server patch w e :
  storeFailure server CallPatchDatabase = Some e ->
  fst (PatchDatabase pkg server patch w) = inl e.
Proof. intros H. unfold PatchDatabase. rewrite bind_run, H. reflexivity. Qed.

Lemma PatchTask_run pkg server patch w id :
  api.TaskPatchDatabaseID patch = Some id ->
  PatchTask pkg server patch w
  = match storeFailure server CallPatchTask with
    | Some e => (inl e, snd (concurrentSync pkg w))
    | None =>
        (inr tt,
         withTaskDatabaseID
           (<[api.TaskPatchID patch := id]> (taskDatabaseID (snd (concurrentSync pkg w))))
           (snd (concurrentSync pkg w)))
    end.
Proof.
  intros H. unfold PatchTask. rewrite bind_run.
  destruct (storeFailure server CallPatchTask); [reflexivity|]. now rewrite H.
Qed.

Lemma tableConstraints_insert (w : World) (row : api.Database) :
  tableConstraints w ->
  existsb (isRowOf (api.DatabaseInstanceID row) (api.Name row)) (databases w) = false ->
  api.ID row = nextDatabaseID w ->
  tableConstraints (withDatabases (databases w ++ [row]) (nextDatabaseID w + 1) w).
Proof.
  intros (Hk & Hi & Hlt) E Hid.
  unfold tableConstraints. cbn [databases nextDatabaseID withDatabases].
  rewrite !map_app. cbn [map]. repeat split.
  - apply NoDup_app. split; [assumption|]. split; [|apply NoDup_singleton].
    intros k Hin Hk'. apply list_elem_of_singleton in Hk'. subst k.
    apply list_elem_of_fmap in Hin. destruct Hin as (x & Hx & Hin).
    apply existsb_filter in E.
    assert (Hf : x ∈ filter (fun r => isRowOf (api.DatabaseInstanceID row) (api.Name row) r
                                      = true)
                       (databases w)).
    { apply list_elem_of_filter. split; [|assumption].
      apply isRowOf_keyOf. now rewrite <- Hx. }
    rewrite E in Hf. inversion Hf.
  - apply NoDup_app. split; [assumption|]. split; [|apply NoDup_singleton].
    intros i Hin Hi'. apply list_elem_of_singleton in Hi'. subst i.
    apply list_elem_of_fmap in Hin. destruct Hin as (x & Hx & Hin).
    rewrite Forall_forall in Hlt. specialize (Hlt x Hin). lia.
  - apply Forall_app. split.
    + eapply Forall_impl; [exact Hlt|]. cbn. intros; lia.
    + apply Forall_singleton. lia.
Qed.

Lemma tableConstraints_patched (w : World) (patch : api.DatabasePatch) :
  tableConstraints w ->
  tableConstraints (withDatabases (patchRows patch (databases w)) (nextDatabaseID w) w).
Proof.
  intros (Hk & Hi & Hlt).
  unfold tableConstraints, patchRows. cbn [databases nextDatabaseID withDatabases].
  rewrite !map_map.
  rewrite (map_ext _ keyOf) by (intros d; now destruct (api.ID d =? api.PatchID patch)).
  rewrite (map_ext (fun x => api.ID (if api.ID x =? api.PatchID patch
                                     then patched patch x else x)) api.ID)
    by (intros d; now destruct (api.ID d =? api.PatchID patch)).
  repeat split; [assumption|assumption|].
  clear Hk Hi. induction Hlt as [|d l Hd _ IH]; cbn [map]; constructor; [|exact IH].
  now destruct (api.ID d =? api.PatchID patch).
Qed.

(** The row that [resolveDatabase] returns is the one row of the database,
    in the project of the payload. *)
Lemma resolveDatabase_row pkg server task payload instance w row :
  tableConstraints w ->
  fst (resolveDatabase pkg server task payload instance w) = inr row ->
  rowsOf (api.InstanceID task) (api.DatabaseName payload)
    (snd (resolveDatabase pkg server task payload instance w)) = [row]
  /\ api.DatabaseProjectID row = api.ProjectID payload
  /\ tableConstraints (snd (resolveDatabase pkg server task payload instance w)).
Proof.
  intros Hc. unfold resolveDatabase. rewrite bind_run. cbv beta.
  destruct (storeFailure server CallGetDatabase) as [e|] eqn:Eg.
  { rewrite (GetDatabase_fails _ _ _ _ _ Eg). discriminate. }
  rewrite (GetDatabase_run _ _ _ _ Eg). cbn [fst snd].
  set (w1 := snd (concurrentSync pkg w)).
  assert (Hc1 : tableConstraints w1) by now apply concurrentSync_constraints.
  assert (Hhead : List.find
                    (matchesFind {| api.FindInstanceID := Some (api.InstanceID task);
                                    api.FindName := Some (api.DatabaseName payload) |})
                    (databases w1)
                  = head (rowsOf (api.InstanceID task) (api.DatabaseName payload) w1)).
  { rewrite find_head_filter. reflexivity. }
  rewrite Hhead.
  destruct (head (rowsOf (api.InstanceID task) (api.DatabaseName payload) w1))
    as [database|] eqn:Eh.
  - pose proof (rowsOf_head_singleton _ _ _ _ Hc1 Eh) as Hrows.
    destruct (storeFailure server CallPatchDatabase) as [e|] eqn:Ep.
    { rewrite (PatchDatabase_fails _ _ _ _ _ Ep). discriminate. }
    rewrite (PatchDatabase_run _ _ _ _ Ep). cbv zeta. cbn [api.PatchID].
    set (w2 := snd (concurrentSync pkg w1)).
    assert (Hc2 : tableConstraints w2) by now apply concurrentSync_constraints.
    assert (Hrows2 : rowsOf (api.InstanceID task) (api.DatabaseName payload) w2 = [database]).
    { unfold w2. rewrite rowsOf_concurrentSync, rowsOf_discoverAll_keep; [exact Hrows|].
      rewrite Hrows. discriminate. }
    assert (Hin : In database (databases w2)).
    { apply list_elem_of_In.
      assert (H : database ∈ rowsOf (api.InstanceID task) (api.DatabaseName payload) w2)
        by (rewrite Hrows2; left).
      unfold rowsOf in H. apply list_elem_of_filter in H. tauto. }
    destruct Hc2 as (Hk2 & Hi2 & Hlt2).
    rewrite (find_by_id (databases w2) database Hi2 Hin). cbn [fst snd].
    intros [= <-]. split; [|split; [reflexivity|]].
    + unfold rowsOf. cbn [databases withDatabases].
      apply (rows_patched _ _
               {| api.PatchID := api.ID database;
                  api.PatchUpdaterID := SystemBotID pkg;
                  api.PatchProjectID := Some (api.ProjectID payload) |});
        [assumption|reflexivity|exact Hrows2].
    + apply (tableConstraints_patched w2
               {| api.PatchID := api.ID database;
                  api.PatchUpdaterID := SystemBotID pkg;
                  api.PatchProjectID := Some (api.ProjectID payload) |}).
      repeat split; assumption.
  - destruct (storeFailure server CallCreateDatabase) as [e|] eqn:Ec.
    { rewrite (CreateDatabase_fails _ _ _ _ _ Ec). discriminate. }
    rewrite (CreateDatabase_run _ _ _ _ Ec). cbv zeta.
    cbn [api.CreateInstanceID api.CreateName].
    set (w2 := snd (concurrentSync pkg w1)).
    assert (Hc2 : tableConstraints w2) by now apply concurrentSync_constraints.
    assert (Hhead2 : List.find (isRowOf (api.InstanceID task) (api.DatabaseName payload))
                       (databases w2)
                     = head (rowsOf (api.InstanceID task) (api.DatabaseName payload) w2)).
    { rewrite find_head_filter. reflexivity. }
    rewrite Hhead2.
    destruct (head (rowsOf (api.InstanceID task) (api.DatabaseName payload) w2))
      as [old|] eqn:Eh2.
    + (* the row came in between: a store that upserts patches it *)
      destruct (createConflict server); cbn [fst snd]; [discriminate|].
      pose proof (rowsOf_head_singleton _ _ _ _ Hc2 Eh2) as Hrows2.
      intros [= <-]. split; [|split; [reflexivity|]].
      * unfold rowsOf. cbn [databases withDatabases].
        apply rows_patched; [exact (proj1 (proj2 Hc2))|reflexivity|exact Hrows2].
      * now apply tableConstraints_patched.
    + assert (Hnone : rowsOf (api.InstanceID task) (api.DatabaseName payload) w2 = []).
      { destruct (rowsOf (api.InstanceID task) (api.DatabaseName payload) w2);
          [reflexivity|discriminate]. }
      cbn [fst snd]. intros [= <-]. split; [|split; [reflexivity|]].
      * unfold rowsOf in *. cbn [databases withDatabases]. rewrite filter_app.
        rewrite Hnone, filter_cons, filter_nil.
        rewrite decide_True; [reflexivity|].
        unfold isRowOf. cbn. now rewrite Z.eqb_refl, String.eqb_refl.
      * apply tableConstraints_insert; [assumption| |reflexivity].
        apply existsb_filter. exact Hnone.
Qed.

(** Once the migration has run, the store has answered and the task has
    been patched, the row of the database is in the store and the task
    points to it, whatever becomes of the labels. *)
Lemma executeAndRecord_recorded
      pkg server task payload instance driver statement mi w migrationID echoed row :
  tableConstraints w ->
  ExecuteMigration driver mi statement = inr (migrationID, echoed) ->
  fst (resolveDatabase pkg server task payload instance
         (withEffects (effects w ++ [Migration mi statement]) w)) = inr row ->
  isErr (fst (PatchTask pkg server (taskPatch pkg task row)
                (snd (resolveDatabase pkg server task payload instance
                        (withEffects (effects w ++ [Migration mi statement]) w)))))
  = false ->
  rowsOf (api.InstanceID task) (api.DatabaseName payload)
    (snd (executeAndRecord pkg server task payload instance driver statement mi w)) = [row]
  /\ api.DatabaseProjectID row = api.ProjectID payload
  /\ taskDatabaseID
       (snd (executeAndRecord pkg server task payload instance driver statement mi w))
     !! api.TaskID task = Some (api.ID row)
  /\ tableConstraints
       (snd (executeAndRecord pkg server task payload instance driver statement mi w)).
Proof.
  intros Hc He Hr Hpt.
  unfold executeAndRecord. rewrite bind_run. cbn [effect modify fst snd]. rewrite He.
  rewrite bind_run, Hr. cbv beta iota. rewrite bind_run.
  set (w0 := withEffects (effects w ++ [Migration mi statement]) w) in *.
  assert (Hc0 : tableConstraints w0) by exact Hc.
  destruct (resolveDatabase_row _ _ _ _ _ _ _ Hc0 Hr) as (Hrows & Hproj & Hc1).
  set (w1 := snd (resolveDatabase pkg server task payload instance w0)) in *.
  fold (taskPatch pkg task row).
  rewrite (PatchTask_run pkg server (taskPatch pkg task row) w1 (api.ID row) eq_refl) in *.
  destruct (storeFailure server CallPatchTask) as [e|]; [discriminate|].
  cbn [fst snd api.TaskPatchID taskPatch].
  set (w2 := snd (concurrentSync pkg w1)).
  assert (Hc2 : tableConstraints w2) by now apply concurrentSync_constraints.
  assert (Hrows2 : rowsOf (api.InstanceID task) (api.DatabaseName payload) w2 = [row]).
  { unfold w2. rewrite rowsOf_concurrentSync, rowsOf_discoverAll_keep; [exact Hrows|].
    rewrite Hrows. discriminate. }
  set (w3 := withTaskDatabaseID (<[api.TaskID task := api.ID row]> (taskDatabaseID w2)) w2).
  assert (Hend : rowsOf (api.InstanceID task) (api.DatabaseName payload) w3 = [row]
                 /\ api.DatabaseProjectID row = api.ProjectID payload
                 /\ taskDatabaseID w3 !! api.TaskID task = Some (api.ID row)
                 /\ tableConstraints w3).
  { split; [exact Hrows2|]. split; [exact Hproj|]. split; [|exact Hc2].
    unfold w3. cbn [taskDatabaseID withTaskDatabaseID]. apply lookup_insert_eq. }
  destruct (negb (String.eqb (api.Labels payload) "")); [|exact Hend].
  destruct (GetProjectByID server (api.ProjectID payload)) as [e|[project|]];
    [exact Hend| |exact Hend].
  rewrite bind_run. cbn [effect modify fst snd].
  destruct (setDatabaseLabels _ _ _ _ _ _); exact Hend.
Qed.

Lemma executeAndRecord_success_recorded
      pkg server task payload instance driver statement mi w terminated res :
  tableConstraints w ->
  fst (executeAndRecord pkg server task payload instance driver statement mi w)
  = (terminated, res, None) ->
  exists row,
    rowsOf (api.InstanceID task) (api.DatabaseName payload)
      (snd (executeAndRecord pkg server task payload instance driver statement mi w)) = [row]
    /\ api.DatabaseProjectID row = api.ProjectID payload
    /\ taskDatabaseID
         (snd (executeAndRecord pkg server task payload instance driver statement mi w))
       !! api.TaskID task = Some (api.ID row)
    /\ tableConstraints
         (snd (executeAndRecord pkg server task payload instance driver statement mi w)).
Proof.
  intros Hc H.
  assert (Hparts : exists migrationID echoed row,
             ExecuteMigration driver mi statement = inr (migrationID, echoed)
             /\ fst (resolveDatabase pkg server task payload instance
                       (withEffects (effects w ++ [Migration mi statement]) w)) = inr row
             /\ isErr (fst (PatchTask pkg server (taskPatch pkg task row)
                              (snd (resolveDatabase pkg server task payload instance
                                      (withEffects (effects w ++ [Migration mi statement])
                                         w)))))
                = false).
  { unfold executeAndRecord in H. rewrite bind_run in H. cbn [effect modify fst snd] in H.
    destruct (ExecuteMigration driver mi statement) as [e|[migrationID echoed]];
      [discriminate|].
    rewrite bind_run in H.
    destruct (fst (resolveDatabase _ _ _ _ _ _)) as [e|row] eqn:Hr; [discriminate|].
    rewrite bind_run in H. fold (taskPatch pkg task row) in H.
    destruct (fst (PatchTask _ _ _ _)) as [e|?] eqn:Hpt; [discriminate|].
    exists migrationID, echoed, row. repeat split. now rewrite Hpt. }
  destruct Hparts as (migrationID & echoed & row & He & Hr & Hpt).
  exists row. exact (executeAndRecord_recorded _ _ _ _ _ _ _ _ _ _ _ _ Hc He Hr Hpt).
Qed.

(** X20: a run that returns no error leaves, in a store that holds one
    row for an instance and a name, exactly one row for the new database,
    in the project of the payload, and the task points to that row;
    whatever the schema sync did meanwhile. *)
Theorem RunOnce_success_recorded
        (pkg : Imports) (server : Server) (task : api.Task) (w : World)
        (terminated : bool) (res : option api.TaskRunResultPayload) :
  tableConstraints w ->
  fst (RunOnce pkg server task w) = Returns (terminated, res, None) ->
  exists payload row,
    Unmarshal pkg (api.Payload task) = inr payload
    /\ rowsOf (api.InstanceID task) (api.DatabaseName payload)
         (snd (RunOnce pkg server task w)) = [row]
    /\ api.DatabaseProjectID row = api.ProjectID payload
    /\ taskDatabaseID (snd (RunOnce pkg server task w)) !! api.TaskID task
       = Some (api.ID row)
    /\ tableConstraints (snd (RunOnce pkg server task w)).
Proof.
  intros Hc H.
  destruct (Unmarshal pkg (api.Payload task)) as [e|payload] eqn:Hp.
  { unfold RunOnce in H. rewrite defer_run, Hp in H. discriminate. }
  destruct (String.eqb (TrimSpace (api.Statement payload)) "") eqn:Hs.
  { unfold RunOnce in H. rewrite defer_run, Hp in H. cbv zeta in H. rewrite Hs in H.
    discriminate. }
  apply String.eqb_neq in Hs.
  destruct (getAdminDatabaseDriver server (api.TaskInstance task) "") as [e|driver] eqn:Hd.
  { unfold RunOnce in H. rewrite defer_run, Hp in H. cbv zeta in H.
    apply String.eqb_neq in Hs. rewrite Hs in H.
    rewrite bind_run in H. cbn [effect modify fst snd] in H. rewrite Hd in H.
    discriminate. }
  destruct (creatorOf (GetPrincipalByID server (api.CreatorID task)))
    as [creator|] eqn:Hcr.
  2:{ rewrite (RunOnce_nil_principal _ _ _ _ _ _ Hp Hs Hd Hcr) in H. discriminate. }
  rewrite (RunOnce_with_driver _ _ _ _ _ _ _ Hp Hs Hd Hcr) in *.
  cbv zeta in *. cbn [fst snd] in *. injection H as H.
  match type of H with fst (executeAndRecord _ _ _ _ _ _ _ _ ?wl) = _ =>
    assert (Hcl : tableConstraints wl)
      by (eapply tableConstraints_sameStore; [apply sameStore_logged|exact Hc]);
    destruct (executeAndRecord_success_recorded _ _ _ _ _ _ _ _ _ _ _ Hcl H)
      as (row & H1 & H2 & H3 & H4)
  end.
  exists payload, row. split; [reflexivity|].
  split; [exact H1|]. split; [exact H2|]. split; [exact H3|exact H4].
Qed.

Lemma RunOnce_success_recorded_witness :
  exists payload row,
    Unmarshal Demo.pkg (api.Payload (Demo.task Demo.createShop)) = inr payload
    /\ rowsOf 7 (api.DatabaseName payload)
         (snd (RunOnce Demo.pkg Demo.server (Demo.task Demo.createShop)
                 (Demo.world [[Demo.shopFound]; []; [Demo.shopFound]])))
       = [row]
    /\ api.DatabaseProjectID row = api.ProjectID payload
    /\ taskDatabaseID
         (snd (RunOnce Demo.pkg Demo.server (Demo.task Demo.createShop)
                 (Demo.world [[Demo.shopFound]; []; [Demo.shopFound]])))
       !! 11
       = Some (api.ID row)
    /\ tableConstraints
         (snd (RunOnce Demo.pkg Demo.server (Demo.task Demo.createShop)
                 (Demo.world [[Demo.shopFound]; []; [Demo.shopFound]]))).
Proof.
  apply (RunOnce_success_recorded Demo.pkg Demo.server (Demo.task Demo.createShop)
           (Demo.world [[Demo.shopFound]; []; [Demo.shopFound]]) true
           (Some {| api.Detail := "Created database " +:+ Demo.quote "shop";
                    api.MigrationID := 101;
                    api.Version := "v1" |})).
  - apply tableConstraints_empty.
  - vm_compute. reflexivity.
Defined.

(** *** Labels that cannot be recorded *)

Lemma unraced_scheduled instanceID databaseName w i :
  unraced instanceID databaseName w ->
  Forall (fun d => ~ discovers instanceID databaseName d) (scheduled i w).
Proof.
  unfold unraced, scheduled. generalize (syncSchedule w). intros l H. revert i.
  induction H as [|passes l Hp _ IH]; intros [|i]; cbn [nth];
    [constructor|constructor|exact Hp|apply IH].
Qed.

(** With a store that answers and a sync that does not find the new
    database meanwhile, [resolveDatabase] returns a row. *)
Lemma resolveDatabase_answers pkg server task payload instance w :
  storeAnswers server -> tableConstraints w ->
  unraced (api.InstanceID task) (api.DatabaseName payload) w ->
  exists row, fst (resolveDatabase pkg server task payload instance w) = inr row.
Proof.
  intros Ha Hc Hu. unfold resolveDatabase. rewrite bind_run. cbv beta.
  rewrite (GetDatabase_run _ _ _ _ (Ha CallGetDatabase)). cbn [fst snd].
  set (w1 := snd (concurrentSync pkg w)).
  assert (Hc1 : tableConstraints w1) by now apply concurrentSync_constraints.
  assert (Hhead : List.find
                    (matchesFind {| api.FindInstanceID := Some (api.InstanceID task);
                                    api.FindName := Some (api.DatabaseName payload) |})
                    (databases w1)
                  = head (rowsOf (api.InstanceID task) (api.DatabaseName payload) w1)).
  { rewrite find_head_filter. reflexivity. }
  rewrite Hhead.
  set (w2 := snd (concurrentSync pkg w1)).
  assert (Hc2 : tableConstraints w2) by now apply concurrentSync_constraints.
  destruct (head (rowsOf (api.InstanceID task) (api.DatabaseName payload) w1))
    as [database|] eqn:Eh.
  - pose proof (rowsOf_head_singleton _ _ _ _ Hc1 Eh) as Hrows.
    rewrite (PatchDatabase_run _ _ _ _ (Ha CallPatchDatabase)). cbv zeta.
    cbn [api.PatchID]. fold w2.
    assert (Hrows2 : rowsOf (api.InstanceID task) (api.DatabaseName payload) w2 = [database]).
    { unfold w2. rewrite rowsOf_concurrentSync, rowsOf_discoverAll_keep; [exact Hrows|].
      rewrite Hrows. discriminate. }
    assert (Hin : In database (databases w2)).
    { apply list_elem_of_In.
      assert (H : database ∈ rowsOf (api.InstanceID task) (api.DatabaseName payload) w2)
        by (rewrite Hrows2; left).
      unfold rowsOf in H. apply list_elem_of_filter in H. tauto. }
    rewrite (find_by_id (databases w2) database (proj1 (proj2 Hc2)) Hin).
    eexists. reflexivity.
  - assert (Hnone : rowsOf (api.InstanceID task) (api.DatabaseName payload) w1 = []).
    { destruct (rowsOf (api.InstanceID task) (api.DatabaseName payload) w1);
        [reflexivity|discriminate]. }
    rewrite (CreateDatabase_run _ _ _ _ (Ha CallCreateDatabase)). cbv zeta.
    cbn [api.CreateInstanceID api.CreateName]. fold w2.
    assert (Hnone2 : rowsOf (api.InstanceID task) (api.DatabaseName payload) w2 = []).
    { unfold w2. rewrite rowsOf_concurrentSync, rowsOf_discoverAll_other; [exact Hnone|].
      unfold w1. rewrite scheduled_concurrentSync. now apply unraced_scheduled. }
    assert (Hfind : List.find (isRowOf (api.InstanceID task) (api.DatabaseName payload))
                      (databases w2) = None).
    { rewrite find_head_filter. fold (rowsOf (api.InstanceID task) (api.DatabaseName payload) w2).
      now rewrite Hnone2. }
    rewrite Hfind. eexists. reflexivity.
Qed.

(** X21: when the store answers every call, no sync pass finds the new
    database during the run, the payload carries labels and its project
    is not found, [RunOnce] returns an error and no result although the
    migration has run, and what it recorded before stays: the row of the
    database is in the store, in the project of the payload, and the task
    points to it. *)
Theorem RunOnce_labels_without_project
        (pkg : Imports) (server : Server) (task : api.Task) (w : World)
        (payload : api.TaskDatabaseCreatePayload) (driver : Driver)
        (creator : result api.Principal) (migrationID : Z) (echoed : string) :
  tableConstraints w ->
  unraced (api.InstanceID task) (api.DatabaseName payload) w ->
  storeAnswers server ->
  Unmarshal pkg (api.Payload task) = inr payload ->
  TrimSpace (api.Statement payload) <> "" ->
  getAdminDatabaseDriver server (api.TaskInstance task) "" = inr driver ->
  creatorOf (GetPrincipalByID server (api.CreatorID task)) = Some creator ->
  ExecuteMigration driver (migrationInfoOf server task payload creator)
    (TrimSpace (api.Statement payload)) = inr (migrationID, echoed) ->
  api.Labels payload <> "" ->
  GetProjectByID server (api.ProjectID payload) = inr None ->
  fst (RunOnce pkg server task w)
  = Returns (true, None,
             Some (Errorf "project not found with ID %d" [ArgInt (api.ProjectID payload)]))
  /\ exists row,
       rowsOf (api.InstanceID task) (api.DatabaseName payload)
         (snd (RunOnce pkg server task w)) = [row]
       /\ api.DatabaseProjectID row = api.ProjectID payload
       /\ taskDatabaseID (snd (RunOnce pkg server task w)) !! api.TaskID task
          = Some (api.ID row).
Proof.
  intros Hc Hsched Ha Hp Hs Hd Hcr He Hl Hproj.
  rewrite (RunOnce_with_driver _ _ _ _ _ _ _ Hp Hs Hd Hcr).
  cbv zeta. cbn [fst snd].
  match goal with |- context [logged ?es w] =>
    set (wl := logged es w);
    pose proof (sameStore_logged es w) as Hsame
  end.
  fold wl in Hsame.
  assert (Hcl : tableConstraints wl) by (eapply tableConstraints_sameStore; eassumption).
  set (mi := migrationInfoOf server task payload creator) in *.
  set (statement := TrimSpace (api.Statement payload)) in *.
  set (w0 := withEffects (effects wl ++ [Migration mi statement]) wl).
  assert (Hu0 : unraced (api.InstanceID task) (api.DatabaseName payload) w0).
  { unfold unraced in *. destruct Hsame as (_ & _ & _ & H4).
    change (syncSchedule w0) with (syncSchedule wl). now rewrite H4. }
  destruct (resolveDatabase_answers pkg server task payload (api.TaskInstance task) w0
              Ha Hcl Hu0) as (row & Hr).
  assert (Hpt : isErr (fst (PatchTask pkg server (taskPatch pkg task row)
                              (snd (resolveDatabase pkg server task payload
                                      (api.TaskInstance task) w0)))) = false).
  { rewrite (PatchTask_run pkg server (taskPatch pkg task row) _ (api.ID row) eq_refl),
      (Ha CallPatchTask). reflexivity. }
  destruct (executeAndRecord_recorded _ _ _ _ _ _ _ _ _ _ _ _ Hcl He Hr Hpt)
    as (H1 & H2 & H3 & _).
  split.
  - f_equal. unfold executeAndRecord. rewrite bind_run. cbn [effect modify fst snd].
    rewrite He. fold w0. rewrite bind_run, Hr. cbv beta iota. rewrite bind_run.
    fold (taskPatch pkg task row).
    rewrite (PatchTask_run pkg server (taskPatch pkg task row) _ (api.ID row) eq_refl),
      (Ha CallPatchTask).
    cbn [fst snd]. apply String.eqb_neq in Hl. rewrite Hl. cbn [negb].
    rewrite Hproj. reflexivity.
  - exists row. split; [exact H1|]. split; [exact H2|exact H3].
Qed.

Lemma RunOnce_labels_without_project_witness :
  fst (RunOnce DemoLabels.labelled DemoLabels.projectless (Demo.task Demo.createShop)
         (Demo.world [[DemoLabels.ordersFound]; []; [DemoLabels.ordersFound]]))
  = Returns (true, None, Some (Errorf "project not found with ID %d" [ArgInt 42]))
  /\ exists row,
       rowsOf 7 "shop"
         (snd (RunOnce DemoLabels.labelled DemoLabels.projectless (Demo.task Demo.createShop)
                 (Demo.world [[DemoLabels.ordersFound]; []; [DemoLabels.ordersFound]])))
       = [row]
       /\ api.DatabaseProjectID row = 42
       /\ taskDatabaseID
            (snd (RunOnce DemoLabels.labelled DemoLabels.projectless
                    (Demo.task Demo.createShop)
                    (Demo.world [[DemoLabels.ordersFound]; []; [DemoLabels.ordersFound]])))
          !! 11
          = Some (api.ID row).
Proof.
  apply (RunOnce_labels_without_project DemoLabels.labelled DemoLabels.projectless
           (Demo.task Demo.createShop)
           (Demo.world [[DemoLabels.ordersFound]; []; [DemoLabels.ordersFound]])
           {| api.DatabaseName := "shop";
              api.ProjectID := 42;
              api.SchemaVersion := "v1";
              api.CharacterSet := "UTF8";
              api.Collation := "en_US.UTF-8";
              api.Labels := "[]";
              api.Statement := Demo.createShop |}
           Demo.adminDriver (inl (External "principal not found")) 101 "v1.effective").
  - apply tableConstraints_empty.
  - repeat constructor; intros [_ H]; discriminate H.
  - intros call. reflexivity.
  - reflexivity.
  - vm_compute. discriminate.
  - reflexivity.
  - reflexivity.
  - reflexivity.
  - discriminate.
  - reflexivity.
Defined.

End ExecutorFacts.
